(** * PDF Assistant with RAG: the Streamlit script [app.py] as a state machine

    The script is re-executed from top to bottom on every user interaction.
    What survives between two executions is [st.session_state] and the
    outside world (vector database, temporary files, LLM service).  One
    execution is modelled as a program in a state-and-exception monad over
    that persistent state; everything the script calls in [phi], [os],
    [tempfile] and [uuid] is a field of an environment record, so every
    theorem of the session holds for all behaviours of these collaborators. *)

From Stdlib Require Import String Ascii List Arith Lia Bool DecimalString.
From stdpp Require Import base strings list gmap.
Import ListNotations.
Open Scope string_scope.
Open Scope list_scope.

(** ** Python strings *)

(** The character ["\n"]. *)
Definition nl : string := String (ascii_of_nat 10) EmptyString.

(** The double quote character. *)
Definition dq : string := String (ascii_of_nat 34) EmptyString.

(** [str(n)] for a non-negative [int]. *)
Definition str_of_int (n : nat) : string :=
  NilEmpty.string_of_uint (Nat.to_uint n).

(** [sep.join(parts)]. *)
Fixpoint str_join (sep : string) (parts : list string) : string :=
  match parts with
  | [] => EmptyString
  | [p] => p
  | p :: rest => p +:+ sep +:+ str_join sep rest
  end.

(** [enumerate(l)], counting from [i]. *)
Fixpoint enumerate_from {A : Type} (i : nat) (l : list A) : list (nat * A) :=
  match l with
  | [] => []
  | x :: rest => (i, x) :: enumerate_from (S i) rest
  end.

Definition enumerate {A : Type} (l : list A) : list (nat * A) :=
  enumerate_from 0 l.

(** A [str] is kept as its UTF-8 encoding, one [ascii] per byte; [utf8]
    writes a character by its bytes. *)
Definition utf8 (bytes : list nat) : string :=
  fold_right (fun b s => String (ascii_of_nat b) s) EmptyString bytes.

(** The characters [str.isspace] accepts, which are the ones [str.strip]
    removes: U+0009 to U+000D, U+001C to U+0020, U+0085, U+00A0, U+1680,
    U+2000 to U+200A, U+2028, U+2029, U+202F, U+205F and U+3000. *)
Definition whitespace : list string :=
  map utf8
    [ [9]; [10]; [11]; [12]; [13]; [28]; [29]; [30]; [31]; [32];
      [194; 133]; [194; 160]; [225; 154; 128];
      [226; 128; 128]; [226; 128; 129]; [226; 128; 130]; [226; 128; 131];
      [226; 128; 132]; [226; 128; 133]; [226; 128; 134]; [226; 128; 135];
      [226; 128; 136]; [226; 128; 137]; [226; 128; 138];
      [226; 128; 168]; [226; 128; 169]; [226; 128; 175];
      [226; 129; 159]; [227; 128; 128] ].

(** [s] without its prefix [p], if it starts with [p]. *)
Fixpoint without_prefix (p s : string) : option string :=
  match p, s with
  | EmptyString, _ => Some s
  | String a p', String b s' => if Ascii.eqb a b then without_prefix p' s' else None
  | String _ _, EmptyString => None
  end.

(** [s] without the character of [chars] it starts with, if it starts with
    one. *)
Fixpoint skip_one (chars : list string) (s : string) : option string :=
  match chars with
  | [] => None
  | ch :: rest =>
      match without_prefix ch s with
      | Some s' => Some s'
      | None => skip_one rest s
      end
  end.

(** [s] without the characters of [chars] it starts with; [fuel] bounds the
    number of characters skipped. *)
Fixpoint skip_all (chars : list string) (fuel : nat) (s : string) : string :=
  match fuel with
  | 0 => s
  | S fuel' =>
      match skip_one chars s with
      | Some s' => skip_all chars fuel' s'
      | None => s
      end
  end.

Fixpoint reversed (s : string) : string :=
  match s with
  | EmptyString => EmptyString
  | String c rest => reversed rest +:+ String c EmptyString
  end.

(** [s.lstrip()]. *)
Definition lstrip (s : string) : string :=
  skip_all whitespace (String.length s) s.

(** [s.rstrip()]: the same from the other end. *)
Definition rstrip (s : string) : string :=
  reversed (skip_all (map reversed whitespace) (String.length s) (reversed s)).

(** [s.strip()]. *)
Definition strip (s : string) : string := rstrip (lstrip s).

(** [s.split('\n')]. *)
Fixpoint split_nl (s : string) : list string :=
  match s with
  | EmptyString => [EmptyString]
  | String c rest =>
      if Ascii.eqb c (ascii_of_nat 10) then EmptyString :: split_nl rest
      else match split_nl rest with
           | [] => [String c EmptyString]
           | line :: lines => String c line :: lines
           end
  end.

(** Truth value of a [str]: the empty string is falsy. *)
Definition truthy (s : string) : bool :=
  match s with
  | EmptyString => false
  | String _ _ => true
  end.

(** ** Exceptions and results *)

(** An instance of a subclass of [Exception]; [exn_str e] is [str(e)]. *)
Record exn : Type := PyException { exn_type : string; exn_str : string }.

(** What a call into a library does: return a value or raise. *)
Inductive result (A : Type) : Type :=
| Return (a : A)
| Raise (e : exn).
Arguments Return {A} a.
Arguments Raise {A} e.

(** How a piece of the script ends: normally, with an [Exception], or with
    the control-flow exception of [st.rerun()], which is no [Exception] and
    passes through [except Exception]. *)
Inductive outcome (A : Type) : Type :=
| Ok (a : A)
| Raised (e : exn)
| Rerun.
Arguments Ok {A} a.
Arguments Raised {A} e.
Arguments Rerun {A}.

Definition lift_result {A : Type} (r : result A) : outcome A :=
  match r with
  | Return a => Ok a
  | Raise e => Raised e
  end.

Definition AttributeError (what : string) : exn :=
  {| exn_type := "AttributeError"; exn_str := what |}.

Definition IndexError (what : string) : exn :=
  {| exn_type := "IndexError"; exn_str := what |}.

Definition TypeError (what : string) : exn :=
  {| exn_type := "TypeError"; exn_str := what |}.

(** ** Objects of the [phi] library, as the script builds and reads them *)

Record OpenAIEmbedder : Type :=
  { model : string; api_key : option string; base_url : string }.

Record PgVector2 : Type :=
  { collection : string; vdb_db_url : string; embedder : OpenAIEmbedder }.

Record PDFReader : Type := { chunk : bool }.

Inductive KnowledgeBase : Type :=
| PDFKnowledgeBase (path : list string) (reader : PDFReader) (vector_db : PgVector2)
| PDFUrlKnowledgeBase (urls : list string) (vector_db : PgVector2).

Definition vector_db_of (kb : KnowledgeBase) : PgVector2 :=
  match kb with
  | PDFKnowledgeBase _ _ v => v
  | PDFUrlKnowledgeBase _ v => v
  end.

Record PgAssistantStorage : Type :=
  { table_name : string; storage_db_url : string }.

Record Assistant : Type :=
  { llm : string;
    knowledge_base : KnowledgeBase;
    storage : PgAssistantStorage;
    show_tool_calls : bool;
    search_knowledge : bool;
    read_chat_history : bool }.

(** A retrieved document; the script reads only [doc.content]. *)
Record Document : Type := { doc_name : string; doc_content : string }.

(** An element of [response.messages]: [msg_content] is [Some] exactly when
    [hasattr(m, 'content')]; [msg_repr] is [str(m)]. *)
Record ResponseMessage : Type :=
  { msg_repr : string; msg_content : option string }.

(** The value returned by [assistant.run]: an attribute is [Some] exactly
    when [hasattr] finds it; [resp_repr] is [str(response)].  A plain [str]
    has neither attribute and is its own [str]. *)
Record Response : Type :=
  { resp_repr : string;
    resp_content : option string;
    resp_messages : option (list ResponseMessage) }.

(** A file of [st.file_uploader]. *)
Record UploadedFile : Type := { file_name : string; getvalue : string }.

(** ** Session state *)

(** An entry of [st.session_state.messages], the dict
    [{"role": ..., "content": ...}]. *)
Record message : Type := { role : string; content : string }.

(** [st.session_state].  A key the script has not created yet is represented
    by the default the script gives it ([[]], [None], [False]); the
    collection name has no fixed default, so it is optional. *)
Record session_state : Type :=
  { messages : list message;
    assistant : option Assistant;
    knowledge_base_loaded : bool;
    collection_name : option string }.

(** The state of a browser session before the first execution. *)
Definition fresh_session : session_state :=
  {| messages := [];
     assistant := None;
     knowledge_base_loaded := false;
     collection_name := None |}.

(** ** What one execution shows and calls *)

Inductive ui_event : Type :=
| UiTitle (body : string)
| UiHeader (body : string)
| UiMarkdown (body : string)
| UiInfo (body : string)
| UiSuccess (body : string)
| UiWarning (body : string)
| UiError (body : string)
| UiDivider
| UiChat (who : string) (body : string).

(** What an ingestion may say about one source.  Line 87 and line 154 call
    [knowledge_base.load()] as a statement: whatever the call returns is not
    read by the script. *)
Record IngestionError : Type := { failed_source : string; cause : string }.

(** Calls that leave the script, with what came back. *)
Inductive ext_call : Type :=
| LoadCall (kb : KnowledgeBase) (r : result (list IngestionError))
| SearchCall (kb : KnowledgeBase) (query : string) (num_documents : nat)
    (r : result (list Document))
| RunCall (a : Assistant) (prompt : string) (r : result Response).

(** ** Widgets *)

Inductive input_method : Type := UploadPDFs | ProvideURLs.

(** The interaction that caused this execution; at most one button or the
    chat input fires per execution. *)
Inductive trigger : Type :=
| NoTrigger
| ClickLoadPDFs
| ClickLoadURLs
| ClickClear
| SubmitChat (prompt : string).

Record run_input : Type :=
  { radio : input_method;
    uploaded_files : list UploadedFile;
    url_input : string;
    fired : trigger }.

(** ** The environment of the script *)

(** What the script calls outside itself.  [construct_knowledge_base]
    stands for the constructors of lines 72-84 and of lines 139-151
    ([PDFReader], [OpenAIEmbedder], [PgVector2] and the knowledge base over
    them): the library validates the fields it is given, so the call builds
    the object with these fields or raises. *)
Record Env (W : Type) : Type :=
  { GROQ_API_KEY : option string;
    GITHUB_TOKEN : option string;
    uuid4 : W -> string * W;
    save_upload : string -> W -> result string * W;
    os_unlink : string -> W -> result unit * W;
    construct_knowledge_base : KnowledgeBase -> W -> result unit * W;
    kb_load : KnowledgeBase -> W -> result (list IngestionError) * W;
    kb_search : KnowledgeBase -> string -> nat -> W -> result (list Document) * W;
    assistant_run : Assistant -> string -> W -> result Response * W;
    format_exc : exn -> string }.
Arguments GROQ_API_KEY {W} _.
Arguments GITHUB_TOKEN {W} _.
Arguments uuid4 {W} _ _.
Arguments save_upload {W} _ _ _.
Arguments os_unlink {W} _ _ _.
Arguments construct_knowledge_base {W} _ _ _.
Arguments kb_load {W} _ _ _.
Arguments kb_search {W} _ _ _ _ _.
Arguments assistant_run {W} _ _ _ _.
Arguments format_exc {W} _ _.

(** Module-level constants of the script. *)
Definition db_url : string := "postgresql+psycopg://ai:ai@localhost:5532/ai".
Definition endpoint : string := "https://models.github.ai/inference".

(** ** The monad of one execution *)

(** What an execution works on: the session state and the world, which
    persist, and what it has shown and called so far. *)
Record runtime (W : Type) : Type :=
  { session : session_state;
    world : W;
    screen : list ui_event;
    calls : list ext_call }.
Arguments session {W} _.
Arguments world {W} _.
Arguments screen {W} _.
Arguments calls {W} _.

Definition M (W A : Type) : Type := runtime W -> outcome A * runtime W.

Definition ret {W A : Type} (a : A) : M W A := fun rt => (Ok a, rt).

Definition bind {W A B : Type} (m : M W A) (k : A -> M W B) : M W B :=
  fun rt =>
    match m rt with
    | (Ok a, rt') => k a rt'
    | (Raised e, rt') => (Raised e, rt')
    | (Rerun, rt') => (Rerun, rt')
    end.

Definition raise {W A : Type} (e : exn) : M W A := fun rt => (Raised e, rt).

(** [st.rerun()]. *)
Definition st_rerun {W A : Type} : M W A := fun rt => (Rerun, rt).

(** [try: body / except Exception as e: handler e]. *)
Definition try_except {W A : Type} (body : M W A) (handler : exn -> M W A) : M W A :=
  fun rt =>
    match body rt with
    | (Raised e, rt') => handler e rt'
    | done => done
    end.

(** [try: body / except: pass]: the bare clause catches everything. *)
Definition try_pass {W : Type} (body : M W unit) : M W unit :=
  fun rt => (Ok tt, snd (body rt)).

Notation "x <- m ;; k" := (bind m (fun x => k))
  (at level 100, m at next level, right associativity).
Notation "m ;; k" := (bind m (fun _ => k))
  (at level 100, right associativity).

Fixpoint for_each {W A : Type} (f : A -> M W unit) (l : list A) : M W unit :=
  match l with
  | [] => ret tt
  | x :: rest => f x ;; for_each f rest
  end.

(** *** Reading and writing [st.session_state] *)

Definition with_session {W : Type} (f : session_state -> session_state) : M W unit :=
  fun rt =>
    (Ok tt, {| session := f (session rt); world := world rt;
               screen := screen rt; calls := calls rt |}).

Definition read {W A : Type} (f : session_state -> A) : M W A :=
  fun rt => (Ok (f (session rt)), rt).

Definition set_messages {W : Type} (ms : list message) : M W unit :=
  with_session (fun s =>
    {| messages := ms; assistant := assistant s;
       knowledge_base_loaded := knowledge_base_loaded s;
       collection_name := collection_name s |}).

Definition append_message {W : Type} (m : message) : M W unit :=
  with_session (fun s =>
    {| messages := messages s ++ [m]; assistant := assistant s;
       knowledge_base_loaded := knowledge_base_loaded s;
       collection_name := collection_name s |}).

Definition set_assistant {W : Type} (a : option Assistant) : M W unit :=
  with_session (fun s =>
    {| messages := messages s; assistant := a;
       knowledge_base_loaded := knowledge_base_loaded s;
       collection_name := collection_name s |}).

Definition set_knowledge_base_loaded {W : Type} (b : bool) : M W unit :=
  with_session (fun s =>
    {| messages := messages s; assistant := assistant s;
       knowledge_base_loaded := b;
       collection_name := collection_name s |}).

Definition set_collection_name {W : Type} (c : string) : M W unit :=
  with_session (fun s =>
    {| messages := messages s; assistant := assistant s;
       knowledge_base_loaded := knowledge_base_loaded s;
       collection_name := Some c |}).

(** [st.session_state.collection_name]: an [AttributeError] while the key
    does not exist. *)
Definition get_collection_name {W : Type} : M W string :=
  fun rt =>
    match collection_name (session rt) with
    | Some c => (Ok c, rt)
    | None => (Raised (AttributeError "st.session_state has no attribute 'collection_name'"), rt)
    end.

(** *** Display and library calls *)

(** The display calls of Streamlit only draw: they return and leave the
    session state alone.  A library call returns or raises an [Exception];
    nothing but [st.rerun()] raises outside that class. *)

Definition show {W : Type} (ev : ui_event) : M W unit :=
  fun rt =>
    (Ok tt, {| session := session rt; world := world rt;
               screen := screen rt ++ [ev]; calls := calls rt |}).

(** A call into the world: the world moves on, the call is recorded. *)
Definition call {W A : Type} (op : W -> result A * W) (entry : result A -> ext_call) : M W A :=
  fun rt =>
    let (r, w') := op (world rt) in
    (lift_result r,
     {| session := session rt; world := w';
        screen := screen rt; calls := calls rt ++ [entry r] |}).

(** A call the properties below do not track (temporary files, [uuid]). *)
Definition call_quiet {W A : Type} (op : W -> result A * W) : M W A :=
  fun rt =>
    let (r, w') := op (world rt) in
    (lift_result r,
     {| session := session rt; world := w';
        screen := screen rt; calls := calls rt |}).

(** ** Extraction of the answer text (lines 232-243) *)

Definition result_bind {A B : Type} (r : result A) (k : A -> result B) : result B :=
  match r with
  | Return a => k a
  | Raise e => Raise e
  end.

Definition hasattr_content (response : Response) : bool :=
  match resp_content response with Some _ => true | None => false end.

Definition hasattr_messages (response : Response) : bool :=
  match resp_messages response with Some _ => true | None => false end.

(** [response.content]. *)
Definition getattr_content (response : Response) : result string :=
  match resp_content response with
  | Some c => Return c
  | None => Raise (AttributeError "object has no attribute 'content'")
  end.

(** [response.messages]. *)
Definition getattr_messages (response : Response) : result (list ResponseMessage) :=
  match resp_messages response with
  | Some ms => Return ms
  | None => Raise (AttributeError "object has no attribute 'messages'")
  end.

Definition message_hasattr_content (m : ResponseMessage) : bool :=
  match msg_content m with Some _ => true | None => false end.

(** [last_message.content]. *)
Definition message_getattr_content (m : ResponseMessage) : result string :=
  match msg_content m with
  | Some c => Return c
  | None => Raise (AttributeError "object has no attribute 'content'")
  end.

(** [l[-1]]. *)
Definition index_last {A : Type} (l : list A) : result A :=
  match last l with
  | Some x => Return x
  | None => Raise (IndexError "list index out of range")
  end.

Definition extract_response_text (response : Response) : result string :=
  if hasattr_content response then getattr_content response
  else
    result_bind
      (* hasattr(response, 'messages') and len(response.messages) > 0 *)
      (if hasattr_messages response
       then result_bind (getattr_messages response)
              (fun ms => Return (Nat.ltb 0 (length ms)))
       else Return false)
      (fun nonempty =>
         if nonempty : bool then
           result_bind (getattr_messages response) (fun ms =>
           result_bind (index_last ms) (fun last_message =>
             if message_hasattr_content last_message
             then message_getattr_content last_message
             else Return (msg_repr last_message)))
         else Return (resp_repr response)).

(** ** Context and prompt (lines 217-227) *)

Definition document_block (entry : nat * Document) : string :=
  let (i, doc) := entry in
  "Document " +:+ str_of_int (i + 1) +:+ ":" +:+ nl +:+ doc_content doc.

Definition build_context (relevant_docs : list Document) : string :=
  str_join (nl +:+ nl) (map document_block (enumerate relevant_docs)).

Definition enhanced_prompt (context prompt : string) : string :=
  "Based on the following context from the documents, please answer the question."
  +:+ nl +:+ nl +:+ "Context:" +:+ nl +:+ context
  +:+ nl +:+ nl +:+ "Question: " +:+ prompt
  +:+ nl +:+ nl +:+ "Answer:".

(** ** The script *)

(** Line 261. *)
Definition not_loaded_notice : ui_event :=
  UiInfo "👈 Please load documents from the sidebar to start chatting".

Section Script.

Context {W : Type}.
Variable env : Env W.

(** Line 18: [os.environ["GROQ_API_KEY"] = os.getenv("GROQ_API_KEY")];
    assigning [None] to an environment variable is a [TypeError]. *)
Definition configure : M W unit :=
  match GROQ_API_KEY env with
  | Some _ => ret tt
  | None => raise (TypeError "str expected, not NoneType")
  end.

Definition page_header : M W unit :=
  show (UiTitle "📚 PDF Assistant with RAG") ;;
  show (UiMarkdown "Upload PDFs or provide URLs to chat with your documents").

(** Lines 36-44.  The first three keys get the defaults that stand for
    their absence; the collection name is drawn once per session. *)
Definition init_session_state : M W unit :=
  c <- read collection_name ;;
  match c with
  | Some _ => ret tt
  | None =>
      u <- call_quiet (fun w => let (u, w') := uuid4 env w in (Return u, w')) ;;
      set_collection_name ("docs_" +:+ substring 0 8 u)
  end.

Definition new_vector_db (c : string) : PgVector2 :=
  {| collection := c;
     vdb_db_url := db_url;
     embedder := {| model := "text-embedding-3-small";
                    api_key := GITHUB_TOKEN env;
                    base_url := endpoint |} |}.

Definition new_assistant (kb : KnowledgeBase) : Assistant :=
  {| llm := "llama-3.3-70b-versatile";
     knowledge_base := kb;
     storage := {| table_name := "pdf_assistant_streamlit"; storage_db_url := db_url |};
     show_tool_calls := false;
     search_knowledge := false;
     read_chat_history := true |}.

Definition knowledge_base_load (kb : KnowledgeBase) : M W (list IngestionError) :=
  call (kb_load env kb) (LoadCall kb).

Definition knowledge_base_search (kb : KnowledgeBase) (query : string) (num_documents : nat)
  : M W (list Document) :=
  call (kb_search env kb query num_documents) (SearchCall kb query num_documents).

Definition run_assistant (a : Assistant) (prompt : string) : M W Response :=
  call (assistant_run env a prompt) (RunCall a prompt).

(** Lines 64-68: every upload is written to a temporary file. *)
Fixpoint save_uploads (files : list UploadedFile) (temp_paths : list string)
  : M W (list string) :=
  match files with
  | [] => ret temp_paths
  | uploaded_file :: rest =>
      name <- call_quiet (save_upload env (getvalue uploaded_file)) ;;
      save_uploads rest (temp_paths ++ [name])
  end.

(** Lines 110-114: the temporary files are removed; a failure to remove one
    is ignored. *)
Definition remove_temp_files (temp_paths : list string) : M W unit :=
  for_each (fun path => try_pass (call_quiet (os_unlink env path))) temp_paths.

(** Lines 60-119: the body of the "Load PDFs" button. *)
Definition load_pdfs (files : list UploadedFile) : M W unit :=
  try_except
    (show (UiInfo ("📥 Uploading " +:+ str_of_int (length files) +:+ " file(s)...")) ;;
     temp_paths <- save_uploads files [] ;;
     show (UiInfo "🔧 Creating knowledge base...") ;;
     c <- get_collection_name ;;
     let kb := PDFKnowledgeBase temp_paths {| chunk := true |} (new_vector_db c) in
     call_quiet (construct_knowledge_base env kb) ;;
     show (UiInfo "📚 Loading documents into vector database (this may take a moment)...") ;;
     knowledge_base_load kb ;;
     set_assistant (Some (new_assistant kb)) ;;
     set_knowledge_base_loaded true ;;
     set_messages [] ;;
     show (UiSuccess ("✅ Loaded " +:+ str_of_int (length files) +:+ " PDF(s) successfully!")) ;;
     remove_temp_files temp_paths)
    (fun e =>
       show (UiError ("❌ Error loading PDFs: " +:+ exn_str e)) ;;
       show (UiError ("Details: " +:+ format_exc env e))).

(** Line 134: the non-blank lines of the text area, stripped. *)
Definition parse_urls (text : string) : list string :=
  map strip (List.filter (fun url => truthy (strip url)) (split_nl text)).

(** Lines 131-179: the body of the "Load URLs" button for a non-blank input. *)
Definition load_urls (text : string) : M W unit :=
  try_except
    (let urls := parse_urls text in
     show (UiInfo ("🔗 Processing " +:+ str_of_int (length urls) +:+ " URL(s)...")) ;;
     show (UiInfo "🔧 Creating knowledge base...") ;;
     c <- get_collection_name ;;
     let kb := PDFUrlKnowledgeBase urls (new_vector_db c) in
     call_quiet (construct_knowledge_base env kb) ;;
     show (UiInfo "📚 Downloading and loading documents into vector database (this may take a moment)...") ;;
     knowledge_base_load kb ;;
     set_assistant (Some (new_assistant kb)) ;;
     set_knowledge_base_loaded true ;;
     set_messages [] ;;
     show (UiSuccess ("✅ Loaded " +:+ str_of_int (length urls) +:+ " URL(s) successfully!")))
    (fun e =>
       show (UiError ("❌ Error loading URLs: " +:+ exn_str e)) ;;
       show (UiError ("Details: " +:+ format_exc env e))).

Definition button_load_pdfs (inp : run_input) : bool :=
  match fired inp with ClickLoadPDFs => true | _ => false end.

Definition button_load_urls (inp : run_input) : bool :=
  match fired inp with ClickLoadURLs => true | _ => false end.

Definition button_clear (inp : run_input) : bool :=
  match fired inp with ClickClear => true | _ => false end.

(** [st.chat_input(...)]: the submitted text, or [None]. *)
Definition chat_input (inp : run_input) : option string :=
  match fired inp with SubmitChat prompt => Some prompt | _ => None end.

Definition nonempty {A : Type} (l : list A) : bool :=
  match l with [] => false | _ :: _ => true end.

(** Lines 47-192. *)
Definition sidebar (inp : run_input) : M W unit :=
  show (UiHeader "📄 Add Documents") ;;
  match radio inp with
  | UploadPDFs =>
      if nonempty (uploaded_files inp) && button_load_pdfs inp
      then load_pdfs (uploaded_files inp)
      else ret tt
  | ProvideURLs =>
      show (UiMarkdown "Enter PDF URLs (one per line):") ;;
      if button_load_urls inp then
        if truthy (strip (url_input inp)) then load_urls (url_input inp)
        else show (UiWarning "Please enter at least one URL")
      else ret tt
  end ;;
  show UiDivider ;;
  (if button_clear inp then set_messages [] ;; st_rerun else ret tt) ;;
  loaded <- read knowledge_base_loaded ;;
  if loaded : bool then show (UiSuccess "✅ Knowledge base loaded!")
  else show (UiInfo "👆 Load documents to start chatting").

(** [st.session_state.assistant.<attr>]: [None] has no attributes. *)
Definition assistant_attr (attr : string) : M W Assistant :=
  a <- read assistant ;;
  match a with
  | Some a => ret a
  | None => raise (AttributeError ("'NoneType' object has no attribute '" +:+ attr +:+ "'"))
  end.

(** Lines 212-251: the body of the [try] of a chat turn. *)
Definition answer (prompt : string) : M W unit :=
  a <- assistant_attr "knowledge_base" ;;
  let kb := knowledge_base a in
  relevant_docs <- knowledge_base_search kb prompt 5 ;;
  let context := build_context relevant_docs in
  a <- assistant_attr "run" ;;
  response <- run_assistant a (enhanced_prompt context prompt) ;;
  response_text <- (fun rt => (lift_result (extract_response_text response), rt)) ;;
  show (UiChat "assistant" response_text) ;;
  append_message {| role := "assistant"; content := response_text |}.

(** Lines 203-259: one chat turn. *)
Definition chat_turn (prompt : string) : M W unit :=
  append_message {| role := "user"; content := prompt |} ;;
  show (UiChat "user" prompt) ;;
  try_except (answer prompt)
    (fun e =>
       let error_msg := "Error: " +:+ exn_str e in
       show (UiError error_msg) ;;
       append_message {| role := "assistant"; content := error_msg |}).

Definition how_to_use : string :=
  nl +:+ "    1. **Choose your input method** in the sidebar:"
  +:+ nl +:+ "       - Upload PDF files from your computer, or"
  +:+ nl +:+ "       - Provide URLs to PDF documents"
  +:+ nl +:+ "    2. **Load the documents** by clicking the button"
  +:+ nl +:+ "    3. **Ask questions** about your documents in the chat"
  +:+ nl +:+ "    "
  +:+ nl +:+ "    ### 💡 Example questions:"
  +:+ nl +:+ "    - " +:+ dq +:+ "What is this document about?" +:+ dq
  +:+ nl +:+ "    - " +:+ dq +:+ "Summarize the main points" +:+ dq
  +:+ nl +:+ "    - " +:+ dq +:+ "Find information about [specific topic]" +:+ dq
  +:+ nl +:+ "    ".

(** Lines 195-276. *)
Definition main_chat (inp : run_input) : M W unit :=
  loaded <- read knowledge_base_loaded ;;
  if loaded : bool then
    ms <- read messages ;;
    for_each (fun m => show (UiChat (role m) (content m))) ms ;;
    match chat_input inp with
    | Some prompt => if truthy prompt then chat_turn prompt else ret tt
    | None => ret tt
    end
  else
    show not_loaded_notice ;;
    show (UiMarkdown "### 🎯 How to use:") ;;
    show (UiMarkdown how_to_use).

(** The whole file, top to bottom. *)
Definition script (inp : run_input) : M W unit :=
  configure ;;
  page_header ;;
  init_session_state ;;
  sidebar inp ;;
  main_chat inp.

End Script.

(** ** Executions and sessions *)

Section Runs.

Context {W : Type}.
Variable env : Env W.

(** An execution starts on an empty screen. *)
Definition start (s : session_state) (w : W) : runtime W :=
  {| session := s; world := w; screen := []; calls := [] |}.

Definition without_trigger (inp : run_input) : run_input :=
  {| radio := radio inp; uploaded_files := uploaded_files inp;
     url_input := url_input inp; fired := NoTrigger |}.

(** One interaction: the script runs; if it asks for a rerun, it is run once
    more with the same widget values and nothing fired. *)
Definition run_script (inp : run_input) (s : session_state) (w : W)
  : outcome unit * runtime W :=
  match script env inp (start s w) with
  | (Rerun, rt) =>
      script env (without_trigger inp)
        {| session := session rt; world := world rt; screen := []; calls := calls rt |}
  | done => done
  end.

Definition after_run (inp : run_input) (s : session_state) (w : W) : runtime W :=
  snd (run_script inp s w).

(** A session: the interactions one after the other, each from the session
    state and world the previous one left.  The trace pairs the session
    state before each execution with the runtime after it. *)
Fixpoint session_trace (inputs : list run_input) (s : session_state) (w : W)
  : list (session_state * runtime W) :=
  match inputs with
  | [] => []
  | inp :: rest =>
      let rt := after_run inp s w in
      (s, rt) :: session_trace rest (session rt) (world rt)
  end.

Fixpoint run_session (inputs : list run_input) (s : session_state) (w : W)
  : session_state * W :=
  match inputs with
  | [] => (s, w)
  | inp :: rest =>
      let rt := after_run inp s w in
      run_session rest (session rt) (world rt)
  end.

End Runs.

(** ** Observations on an execution *)

(** The bodies of the [st.error] boxes on a screen. *)
Fixpoint errors_shown (scr : list ui_event) : list string :=
  match scr with
  | [] => []
  | UiError body :: rest => body :: errors_shown rest
  | _ :: rest => errors_shown rest
  end.

Definition load_returned (c : ext_call) : bool :=
  match c with LoadCall _ (Return _) => true | _ => false end.

Definition load_raised (c : ext_call) : bool :=
  match c with LoadCall _ (Raise _) => true | _ => false end.

(** The exception of a retrieval or LLM call that raised. *)
Definition step_raised (c : ext_call) : option exn :=
  match c with
  | SearchCall _ _ _ (Raise e) => Some e
  | RunCall _ _ (Raise e) => Some e
  | _ => None
  end.

(** The session state after a turn that asked [q] and recorded [reply]. *)
Definition with_turn (s : session_state) (q reply : string) : session_state :=
  {| messages := messages s ++ [ {| role := "user"; content := q |};
                                 {| role := "assistant"; content := reply |} ];
     assistant := assistant s;
     knowledge_base_loaded := knowledge_base_loaded s;
     collection_name := collection_name s |}.

(** Roles alternate, starting with the given one of ["user"], ["assistant"]. *)
Fixpoint alternating (user_next : bool) (ms : list message) : bool :=
  match ms with
  | [] => true
  | m :: rest =>
      String.eqb (role m) (if user_next then "user" else "assistant")
      && alternating (negb user_next) rest
  end.

(** The parts occur in the text one after the other, without overlap. *)
Inductive occur_in_order : list string -> string -> Prop :=
| occur_nil (s : string) : occur_in_order [] s
| occur_cons (part : string) (parts : list string) (before after : string) :
    occur_in_order parts after ->
    occur_in_order (part :: parts) (before +:+ part +:+ after).

(** A chat interaction with question [q]. *)
Definition ask_input (inp : run_input) (q : string) : run_input :=
  {| radio := radio inp; uploaded_files := uploaded_files inp;
     url_input := url_input inp; fired := SubmitChat q |}.

(** ** The collaborators behind [phi], after the specification *)

Module SpecIndex.

(** Modelled from the spec: the Vector Index, the Document Loader and the
    Ingestion Pipeline live in the [phi] library and the database, not in
    [app.py].  Section 3 gives the chunk, section 4.3 the operations of the
    index: [createCollection] is idempotent, [upsert] adds entries and does
    not deduplicate, [search] ranks by descending similarity, breaks ties by
    ascending [sequence_index], returns fewer than [k] results from a small
    collection and nothing from an unknown one. *)
Record Chunk : Type :=
  { source_id : string; text : string; sequence_index : nat }.

(** Modelled from the spec: the entries of a collection (section 3); an
    unknown collection has none (section 4.3, [search]). *)
Definition entries_of (id : string) (idx : gmap string (list Chunk)) : list Chunk :=
  default [] (idx !! id).

(** Modelled from the spec: [createCollection] of section 4.3, idempotent on
    a collection that exists.  The dimension of the vectors is not modelled. *)
Definition createCollection (id : string) (idx : gmap string (list Chunk))
  : gmap string (list Chunk) :=
  match idx !! id with
  | Some _ => idx
  | None => <[id := []]> idx
  end.

(** Modelled from the spec: [upsert] of section 4.3 adds the entries and
    does not deduplicate. *)
Definition upsert (id : string) (entries : list Chunk) (idx : gmap string (list Chunk))
  : gmap string (list Chunk) :=
  <[id := entries_of id idx ++ entries]> idx.

(** Modelled from the spec: the order of [search] in section 4.3, descending
    similarity, ties by ascending [sequence_index]; [c] ranks before [d]. *)
Definition ranks_before (score : Chunk -> nat) (c d : Chunk) : bool :=
  Nat.ltb (score d) (score c)
  || (Nat.eqb (score d) (score c) && Nat.leb (sequence_index c) (sequence_index d)).

(** Modelled from the spec: ranking by insertion, for [search]. *)
Fixpoint insert_ranked (score : Chunk -> nat) (c : Chunk) (ranked : list Chunk)
  : list Chunk :=
  match ranked with
  | [] => [c]
  | d :: rest =>
      if ranks_before score c d then c :: ranked
      else d :: insert_ranked score c rest
  end.

(** Modelled from the spec: the entries in the order of [search]. *)
Definition rank (score : Chunk -> nat) (entries : list Chunk) : list Chunk :=
  fold_right (insert_ranked score) [] entries.

(** Modelled from the spec: [search] of section 4.3, the first [k] entries
    of the collection in rank order, fewer if the collection is smaller. *)
Definition search (id : string) (score : Chunk -> nat) (k : nat)
  (idx : gmap string (list Chunk)) : list Chunk :=
  firstn k (rank score (entries_of id idx)).

(** Modelled from the spec: section 4.1, the chunks of one source, in
    document order. *)
Definition chunks_of (source : string) (texts : list string) : list Chunk :=
  map (fun entry : nat * string =>
         {| source_id := source; text := snd entry; sequence_index := fst entry |})
      (enumerate texts).

(** Modelled from the spec: sections 4.1 and 4.4, every source is read; a
    source that cannot be read is reported on its own, the others still
    produce chunks. *)
Fixpoint read_sources (reader : string -> result (list string)) (sources : list string)
  : list IngestionError * list Chunk :=
  match sources with
  | [] => ([], [])
  | source :: rest =>
      let (errors, chunks) := read_sources reader rest in
      match reader source with
      | Return texts => (errors, chunks_of source texts ++ chunks)
      | Raise e => ({| failed_source := source; cause := exn_str e |} :: errors, chunks)
      end
  end.

(** Modelled from the spec: the Ingestion Pipeline of section 4.4, the
    collection is created if it does not exist and the chunks of the
    sources that could be read are upserted. *)
Definition ingest (reader : string -> result (list string)) (sources : list string)
  (id : string) (idx : gmap string (list Chunk))
  : list IngestionError * gmap string (list Chunk) :=
  let (errors, chunks) := read_sources reader sources in
  (errors, upsert id chunks (createCollection id idx)).

End SpecIndex.

(** Modelled from the spec: a world for the script made of the temporary
    files the upload handler writes and the index of [SpecIndex]; the PDF
    parser, the download, the similarity of a query to a chunk and the
    language model are parameters.  [strict] chooses between the two ways a
    pipeline can treat a source it cannot read: raise for the whole load, or
    report the source in its return value and go on. *)
Record rag_world : Type :=
  { tmp_files : gmap string string;
    tmp_counter : nat;
    vector_index : gmap string (list SpecIndex.Chunk) }.

Section SpecEnv.

Variable strict : bool.
Variable parse_pdf : string -> result (list string).
Variable download : string -> result string.
Variable similarity : string -> SpecIndex.Chunk -> nat.
Variable language_model : string -> result Response.
Variable construct : KnowledgeBase -> result unit.

(** Modelled from the spec: the Document Loader of section 4.1 on a file. *)
Definition read_path (w : rag_world) (p : string) : result (list string) :=
  match tmp_files w !! p with
  | Some bytes => parse_pdf bytes
  | None => Raise {| exn_type := "FileNotFoundError"; exn_str := p |}
  end.

(** Modelled from the spec: the Document Loader of section 4.1 on a URL. *)
Definition read_url (url : string) : result (list string) :=
  result_bind (download url) parse_pdf.

Definition sources_of (kb : KnowledgeBase) : list string :=
  match kb with
  | PDFKnowledgeBase paths _ _ => paths
  | PDFUrlKnowledgeBase urls _ => urls
  end.

Definition reader_of (kb : KnowledgeBase) (w : rag_world) : string -> result (list string) :=
  match kb with
  | PDFKnowledgeBase _ _ _ => read_path w
  | PDFUrlKnowledgeBase _ _ => read_url
  end.

(** Modelled from the spec: [knowledge_base.load()] as the pipeline of
    section 4.4 on the collection the knowledge base names.  A strict
    pipeline raises an [IngestionError] for the first source it could not
    read, after storing the chunks of the others; a lenient one returns the
    report. *)
Definition spec_kb_load (kb : KnowledgeBase) (w : rag_world)
  : result (list IngestionError) * rag_world :=
  let (errors, idx) :=
    SpecIndex.ingest (reader_of kb w) (sources_of kb)
      (collection (vector_db_of kb)) (vector_index w) in
  let w' := {| tmp_files := tmp_files w; tmp_counter := tmp_counter w; vector_index := idx |} in
  match errors with
  | first :: _ =>
      if strict
      then (Raise {| exn_type := "IngestionError"; exn_str := failed_source first |}, w')
      else (Return errors, w')
  | [] => (Return [], w')
  end.

(** Modelled from the spec: [kb.search] as the Retriever of section 4.5 on
    the collection the knowledge base names. *)
Definition spec_kb_search (kb : KnowledgeBase) (query : string) (k : nat) (w : rag_world)
  : result (list Document) * rag_world :=
  (Return (map (fun c => {| doc_name := SpecIndex.source_id c;
                            doc_content := SpecIndex.text c |})
               (SpecIndex.search (collection (vector_db_of kb)) (similarity query) k (vector_index w))),
   w).

(** A temporary file with a fresh name (lines 66-68). *)
Definition spec_save_upload (bytes : string) (w : rag_world) : result string * rag_world :=
  let name := "/tmp/tmp" +:+ str_of_int (tmp_counter w) +:+ ".pdf" in
  (Return name,
   {| tmp_files := <[name := bytes]> (tmp_files w);
      tmp_counter := S (tmp_counter w);
      vector_index := vector_index w |}).

(** [os.unlink]: the file goes, or [FileNotFoundError]. *)
Definition spec_os_unlink (p : string) (w : rag_world) : result unit * rag_world :=
  match tmp_files w !! p with
  | Some _ =>
      (Return tt,
       {| tmp_files := delete p (tmp_files w);
          tmp_counter := tmp_counter w;
          vector_index := vector_index w |})
  | None => (Raise {| exn_type := "FileNotFoundError"; exn_str := p |}, w)
  end.

(** Modelled from the spec: the collaborators of section 6 put together. *)
Definition spec_env (groq_key : option string) : Env rag_world :=
  {| GROQ_API_KEY := groq_key;
     GITHUB_TOKEN := Some "token";
     uuid4 := fun w => ("3f2b8c1e-77aa-4c0d-9b1e-5d6f7a8b9c0d", w);
     save_upload := spec_save_upload;
     os_unlink := spec_os_unlink;
     construct_knowledge_base := fun kb w => (construct kb, w);
     kb_load := spec_kb_load;
     kb_search := spec_kb_search;
     assistant_run := fun _ prompt w => (language_model prompt, w);
     format_exc := fun e => "Traceback (most recent call last): " +:+ exn_type e |}.

End SpecEnv.

(** *** Sample collaborators *)

Definition empty_world : rag_world :=
  {| tmp_files := ∅; tmp_counter := 0; vector_index := ∅ |}.

(** A payload is a PDF when it starts with the PDF magic; its chunks are the
    lines after the first. *)
Definition sample_parse_pdf (bytes : string) : result (list string) :=
  if String.prefix "%PDF" bytes then Return (tl (split_nl bytes))
  else Raise {| exn_type := "PdfReadError"; exn_str := "invalid pdf header" |}.

Definition good_pdf : UploadedFile :=
  {| file_name := "good.pdf";
     getvalue := "%PDF" +:+ nl +:+ "X is a letter." +:+ nl +:+ "Y follows X." |}.

Definition other_pdf : UploadedFile :=
  {| file_name := "other.pdf"; getvalue := "%PDF" +:+ nl +:+ "Z is last." |}.

Definition corrupt_pdf : UploadedFile :=
  {| file_name := "corrupt.pdf"; getvalue := "not a pdf at all" |}.

(** Three addresses that serve these files; nothing else answers. *)
Definition good_url : string := "https://example.org/good.pdf".
Definition other_url : string := "https://example.org/other.pdf".
Definition corrupt_url : string := "https://example.org/corrupt.pdf".

Definition sample_download (url : string) : result string :=
  if String.eqb url good_url then Return (getvalue good_pdf)
  else if String.eqb url other_url then Return (getvalue other_pdf)
  else if String.eqb url corrupt_url then Return (getvalue corrupt_pdf)
  else Raise {| exn_type := "ConnectError"; exn_str := url |}.

(** The constructors as the library has them: [PDFUrlKnowledgeBase] takes a
    list of URLs, [PDFKnowledgeBase] takes one path, a [str] or a [Path], and
    its validation rejects the list of paths of line 73. *)
Definition sample_construct (kb : KnowledgeBase) : result unit :=
  match kb with
  | PDFUrlKnowledgeBase _ _ => Return tt
  | PDFKnowledgeBase _ _ _ =>
      Raise {| exn_type := "ValidationError";
               exn_str := "validation error for PDFKnowledgeBase: path" |}
  end.

(** Similarity of a query to a chunk: the shorter the chunk, the closer. *)
Definition sample_similarity (query : string) (c : SpecIndex.Chunk) : nat :=
  100 - String.length (SpecIndex.text c).

(** A model that answers with a plain [str]. *)
Definition echo_model (prompt : string) : result Response :=
  Return {| resp_repr := "It is in the documents.";
            resp_content := None; resp_messages := None |}.

Definition broken_model (prompt : string) : result Response :=
  Raise {| exn_type := "APIConnectionError"; exn_str := "Connection error." |}.

Definition sample_env (strict : bool) (language_model : string -> result Response)
  : Env rag_world :=
  spec_env strict sample_parse_pdf sample_download sample_similarity
    language_model sample_construct (Some "gsk-key").

Definition upload_click (files : list UploadedFile) : run_input :=
  {| radio := UploadPDFs; uploaded_files := files; url_input := EmptyString;
     fired := ClickLoadPDFs |}.

Definition url_click (text : string) : run_input :=
  {| radio := ProvideURLs; uploaded_files := []; url_input := text;
     fired := ClickLoadURLs |}.

Definition idle : run_input :=
  {| radio := UploadPDFs; uploaded_files := []; url_input := EmptyString;
     fired := NoTrigger |}.

Definition ask_click (q : string) : run_input := ask_input idle q.

Definition clear_click : run_input :=
  {| radio := UploadPDFs; uploaded_files := []; url_input := EmptyString;
     fired := ClickClear |}.

(** ** What the properties speak about *)

(** The text the extraction is to produce: [content] when the response has
    it, else the last message's [content] or [str], else [str(response)]. *)
Definition last_message_text (m : ResponseMessage) : string :=
  match msg_content m with Some c => c | None => msg_repr m end.

Definition response_text_of (response : Response) : string :=
  match resp_content response with
  | Some c => c
  | None =>
      match resp_messages response with
      | Some ms =>
          match last ms with
          | Some m => last_message_text m
          | None => resp_repr response
          end
      | None => resp_repr response
      end
  end.

(** The session state with its collection name set. *)
Definition named (c : string) (s : session_state) : session_state :=
  {| messages := messages s; assistant := assistant s;
     knowledge_base_loaded := knowledge_base_loaded s;
     collection_name := Some c |}.

(** The session state a successful load leaves. *)
Definition after_load (s : session_state) (a : Assistant) : session_state :=
  {| messages := []; assistant := Some a;
     knowledge_base_loaded := true;
     collection_name := collection_name s |}.

Definition cleared (s : session_state) : session_state :=
  {| messages := []; assistant := assistant s;
     knowledge_base_loaded := knowledge_base_loaded s;
     collection_name := collection_name s |}.

(** The ways a chat turn on question [q] can go in session state [s]: the
    calls it makes, the reply it records, and how it shows the reply. *)
Inductive turn_outcome (s : session_state) (q : string)
  : list ext_call -> string -> ui_event -> Prop :=
| turn_without_assistant :
    assistant s = None ->
    turn_outcome s q []
      ("Error: " +:+ "'NoneType' object has no attribute 'knowledge_base'")
      (UiError ("Error: " +:+ "'NoneType' object has no attribute 'knowledge_base'"))
| turn_search_raised (a : Assistant) (e : exn) :
    assistant s = Some a ->
    turn_outcome s q
      [SearchCall (knowledge_base a) q 5 (Raise e)]
      ("Error: " +:+ exn_str e)
      (UiError ("Error: " +:+ exn_str e))
| turn_run_raised (a : Assistant) (docs : list Document) (e : exn) :
    assistant s = Some a ->
    turn_outcome s q
      [SearchCall (knowledge_base a) q 5 (Return docs);
       RunCall a (enhanced_prompt (build_context docs) q) (Raise e)]
      ("Error: " +:+ exn_str e)
      (UiError ("Error: " +:+ exn_str e))
| turn_answered (a : Assistant) (docs : list Document) (response : Response) :
    assistant s = Some a ->
    turn_outcome s q
      [SearchCall (knowledge_base a) q 5 (Return docs);
       RunCall a (enhanced_prompt (build_context docs) q) (Return response)]
      (response_text_of response)
      (UiChat "assistant" (response_text_of response)).

Definition load_click (inp : run_input) : Prop :=
  fired inp = ClickLoadPDFs \/ fired inp = ClickLoadURLs.

(** What pressing a load button does.  Either [knowledge_base.load()]
    returned, and the session state is the one of [after_load]; or something
    in the [try] block raised, and the session state is as before, with the
    two [st.error] boxes of the handler on the screen. *)
Inductive load_effect {W : Type} (env : Env W) (c : string) (rt rt' : runtime W) : Prop :=
| load_succeeded (kb : KnowledgeBase) (report : list IngestionError) :
    collection (vector_db_of kb) = c ->
    calls rt' = calls rt ++ [LoadCall kb (Return report)] ->
    session rt' = after_load (session rt) (new_assistant kb) ->
    errors_shown (screen rt') = errors_shown (screen rt) ->
    load_effect env c rt rt'
| load_failed (label : string) (e : exn) (made : list ext_call) :
    made = [] \/ (exists kb, collection (vector_db_of kb) = c /\ made = [LoadCall kb (Raise e)]) ->
    calls rt' = calls rt ++ made ->
    session rt' = session rt ->
    errors_shown (screen rt')
    = errors_shown (screen rt) ++ [label +:+ exn_str e; "Details: " +:+ format_exc env e] ->
    load_effect env c rt rt'.

(** What one interaction does to a session in state [s], when the API key is
    configured: [c] is the collection name of the session, drawn by this
    execution if the session had none. *)
Inductive run_effect {W : Type} (env : Env W) (inp : run_input) (s : session_state)
  (rt' : runtime W) : Prop :=
| run_idle (c : string) :
    collection_name s = None \/ collection_name s = Some c ->
    (forall q, fired inp = SubmitChat q -> truthy q = false \/ knowledge_base_loaded s = false) ->
    session rt' = named c s ->
    calls rt' = [] ->
    errors_shown (screen rt') = [] ->
    (knowledge_base_loaded s = false -> In not_loaded_notice (screen rt')) ->
    run_effect env inp s rt'
| run_loaded (c : string) (kb : KnowledgeBase) (report : list IngestionError) :
    collection_name s = None \/ collection_name s = Some c ->
    load_click inp ->
    collection (vector_db_of kb) = c ->
    session rt' = after_load (named c s) (new_assistant kb) ->
    calls rt' = [LoadCall kb (Return report)] ->
    errors_shown (screen rt') = [] ->
    run_effect env inp s rt'
| run_load_failed (c label : string) (e : exn) (made : list ext_call) :
    collection_name s = None \/ collection_name s = Some c ->
    load_click inp ->
    made = [] \/ (exists kb, collection (vector_db_of kb) = c /\ made = [LoadCall kb (Raise e)]) ->
    session rt' = named c s ->
    calls rt' = made ->
    errors_shown (screen rt') = [label +:+ exn_str e; "Details: " +:+ format_exc env e] ->
    run_effect env inp s rt'
| run_cleared (c : string) :
    collection_name s = None \/ collection_name s = Some c ->
    fired inp = ClickClear ->
    session rt' = cleared (named c s) ->
    calls rt' = [] ->
    errors_shown (screen rt') = [] ->
    run_effect env inp s rt'
| run_asked (c q reply : string) (made : list ext_call) (shown : ui_event) (before : list ui_event) :
    collection_name s = None \/ collection_name s = Some c ->
    fired inp = SubmitChat q ->
    truthy q = true ->
    knowledge_base_loaded s = true ->
    turn_outcome (named c s) q made reply shown ->
    session rt' = with_turn (named c s) q reply ->
    calls rt' = made ->
    screen rt' = before ++ [UiChat "user" q; shown] ->
    errors_shown before = [] ->
    run_effect env inp s rt'.

(** The chat messages drawn before the chat input (lines 197-199). *)
Definition history (ms : list message) : list ui_event :=
  map (fun m => UiChat (role m) (content m)) ms.

(** The transcript of the turns that asked [qs] and recorded [replies]. *)
Fixpoint transcript_of (qs replies : list string) : list message :=
  match qs, replies with
  | q :: qs', reply :: replies' =>
      {| role := "user"; content := q |}
      :: {| role := "assistant"; content := reply |}
      :: transcript_of qs' replies'
  | _, _ => []
  end.

(** The chat interactions asking [qs], under the widget values of [inp]. *)
Definition ask_inputs (inp : run_input) (qs : list string) : list run_input :=
  map (ask_input inp) qs.

(** An execution ended with an exception of the given type. *)
Definition fails_with (type : string) (o : outcome unit) : Prop :=
  exists e, o = Raised e /\ exn_type e = type.

(** The documents the retrieval calls of an execution returned. *)
Fixpoint retrieved (cs : list ext_call) : list Document :=
  match cs with
  | [] => []
  | SearchCall _ _ _ (Return docs) :: rest => docs ++ retrieved rest
  | _ :: rest => retrieved rest
  end.

(** The contract of [kb.search]: at most [num_documents] documents. *)
Definition search_honours_k {W : Type} (env : Env W) : Prop :=
  forall kb query k w docs w',
    kb_search env kb query k w = (Return docs, w') -> length docs <= k.

(** A recorded call is what the collaborator answered in some world. *)
Definition genuine {W : Type} (env : Env W) (c : ext_call) : Prop :=
  match c with
  | LoadCall kb r => exists w, fst (kb_load env kb w) = r
  | SearchCall kb query k r => exists w, fst (kb_search env kb query k w) = r
  | RunCall a prompt r => exists w, fst (assistant_run env a prompt w) = r
  end.

(** The marker and the text of every document, in order, then the question. *)
Definition prompt_parts (docs : list Document) (q : string) : list string :=
  flat_map (fun entry : nat * Document =>
              ["Document " +:+ str_of_int (fst entry + 1); doc_content (snd entry)])
           (enumerate docs)
  ++ [q].

(** The prompt of a turn that retrieved no document. *)
Definition empty_context_prompt (q : string) : string :=
  "Based on the following context from the documents, please answer the question."
  +:+ nl +:+ nl +:+ "Context:" +:+ nl +:+ nl +:+ nl +:+ "Question: " +:+ q
  +:+ nl +:+ nl +:+ "Answer:".

(** The prompt is the ordinary template filled with the empty context: the
    model is asked to answer from the empty string. *)
Definition answers_from_empty_string (q prompt : string) : Prop :=
  prompt = enhanced_prompt EmptyString q.

(** Every chunk stored in the first index is stored in the second, in the
    same collection. *)
Definition entries_kept (idx idx' : gmap string (list SpecIndex.Chunk)) : Prop :=
  forall id c, In c (SpecIndex.entries_of id idx) -> In c (SpecIndex.entries_of id idx').

(** ** A logic for what every execution keeps *)

(** An invariant of the world and of the calls made so far is kept by a
    piece of the script. *)
Definition preserves {W A : Type} (I : W -> list ext_call -> Prop) (m : M W A) : Prop :=
  forall rt o rt', I (world rt) (calls rt) -> m rt = (o, rt') -> I (world rt') (calls rt').

(** The collaborators keep the invariant, each call being recorded with
    what it returned. *)
Record respects {W : Type} (env : Env W) (I : W -> list ext_call -> Prop) : Prop :=
  { respects_uuid4 : forall w cs, I w cs -> I (snd (uuid4 env w)) cs;
    respects_save_upload : forall bytes w cs, I w cs -> I (snd (save_upload env bytes w)) cs;
    respects_os_unlink : forall p w cs, I w cs -> I (snd (os_unlink env p w)) cs;
    respects_construct : forall kb w cs,
      I w cs -> I (snd (construct_knowledge_base env kb w)) cs;
    respects_kb_load : forall kb w cs,
      I w cs -> I (snd (kb_load env kb w)) (cs ++ [LoadCall kb (fst (kb_load env kb w))]);
    respects_kb_search : forall kb q k w cs,
      I w cs ->
      I (snd (kb_search env kb q k w)) (cs ++ [SearchCall kb q k (fst (kb_search env kb q k w))]);
    respects_assistant_run : forall a p w cs,
      I w cs ->
      I (snd (assistant_run env a p w)) (cs ++ [RunCall a p (fst (assistant_run env a p w))]) }.

(** *** Sample sessions *)

(** The session after one PDF was loaded from the URL form. *)
Definition first_load : runtime rag_world :=
  after_run (sample_env true echo_model) (url_click good_url) fresh_session empty_world.

(** The same session after a second PDF was loaded. *)
Definition second_load : runtime rag_world :=
  after_run (sample_env true echo_model) (url_click other_url)
    (session first_load) (world first_load).

(** A question asked after the second load. *)
Definition question_after_reload : runtime rag_world :=
  after_run (sample_env true echo_model) (ask_click "What is X?")
    (session second_load) (world second_load).

(** A question asked after the first load, while the model is unreachable. *)
Definition question_to_broken_model : runtime rag_world :=
  after_run (sample_env true broken_model) (ask_click "What is X?")
    (session first_load) (world first_load).

(** The address of a good and of a corrupt file loaded together, by a
    pipeline that raises and by one that reports in its return value. *)
Definition mixed_load (strict : bool) : runtime rag_world :=
  after_run (sample_env strict echo_model) (url_click (good_url +:+ nl +:+ corrupt_url))
    fresh_session empty_world.

(** A session with one recorded turn. *)
Definition one_turn : runtime rag_world :=
  after_run (sample_env true echo_model) (ask_click "What is X?")
    (session first_load) (world first_load).

(** The call to the model in that turn: the assistant of the first load,
    the prompt built from the two retrieved chunks, and the exception. *)
Definition failed_model_call : ext_call :=
  RunCall
    (new_assistant
       (PDFUrlKnowledgeBase [good_url]
          (new_vector_db (sample_env true broken_model) "docs_3f2b8c1e")))
    (enhanced_prompt
       (build_context [ {| doc_name := good_url; doc_content := "Y follows X." |};
                        {| doc_name := good_url; doc_content := "X is a letter." |} ])
       "What is X?")
    (Raise {| exn_type := "APIConnectionError"; exn_str := "Connection error." |}).

(** The sample sessions are names for the runs that define them. *)
Strategy expand
  [first_load second_load question_after_reload question_to_broken_model
   mixed_load one_turn failed_model_call].

(** ** What the further properties speak about *)

(** The string has no line break. *)
Fixpoint no_newline (s : string) : bool :=
  match s with
  | EmptyString => true
  | String c rest => negb (Ascii.eqb c (ascii_of_nat 10)) && no_newline rest
  end.

(** The string is made of characters of [chars] only. *)
Inductive made_of (chars : list string) : string -> Prop :=
| made_of_nil : made_of chars EmptyString
| made_of_cons (ch s : string) :
    In ch chars -> made_of chars s -> made_of chars (ch +:+ s).

(** No character of [chars] is the beginning of another one. *)
Definition prefix_free (chars : list string) : bool :=
  forallb (fun a =>
    forallb (fun b =>
      String.eqb a b
      || match without_prefix a b with Some _ => false | None => true end)
      chars) chars.

(** A piece of the script leaves an observation of the runtime as it was. *)
Definition unchanged {W A X : Type} (obs : runtime W -> X) (m : M W A) : Prop :=
  forall rt, obs (snd (m rt)) = obs rt.

(** The interaction asks for a load: the upload form holds a file and its
    button fired (line 59), or the URL form's button fired on a text that is
    not blank (lines 129-130). *)
Definition load_requested (inp : run_input) : bool :=
  match radio inp with
  | UploadPDFs => nonempty (uploaded_files inp) && button_load_pdfs inp
  | ProvideURLs => button_load_urls inp && truthy (strip (url_input inp))
  end.

(** The knowledge base the handlers build for an interaction in the session
    whose collection is [c] (lines 72-84 and 139-151). *)
Definition requested_knowledge_base {W : Type} (env : Env W) (inp : run_input)
  (c : string) (kb : KnowledgeBase) : Prop :=
  match radio inp with
  | UploadPDFs =>
      exists temp_paths,
        length temp_paths = length (uploaded_files inp)
        /\ kb = PDFKnowledgeBase temp_paths {| chunk := true |} (new_vector_db env c)
  | ProvideURLs =>
      kb = PDFUrlKnowledgeBase (parse_urls (url_input inp)) (new_vector_db env c)
  end.

(** The chat messages of a screen, a [st.markdown] inside a
    [st.chat_message], in the order drawn. *)
Definition chats_shown (scr : list ui_event) : list ui_event :=
  List.filter (fun ev => match ev with UiChat _ _ => true | _ => false end) scr.

(** What one execution may do to the transcript. *)
Inductive transcript_step (before after : list message) : Prop :=
| transcript_kept : after = before -> transcript_step before after
| transcript_emptied : after = [] -> transcript_step before after
| transcript_extended (q reply : string) :
    after = before ++ [ {| role := "user"; content := q |};
                        {| role := "assistant"; content := reply |} ] ->
    transcript_step before after.

(** The world after lines 64-68: every upload written, until one fails. *)
Fixpoint write_uploads {W : Type} (env : Env W) (files : list UploadedFile)
  (temp_paths : list string) (w : W) : result (list string) * W :=
  match files with
  | [] => (Return temp_paths, w)
  | uploaded_file :: rest =>
      match save_upload env (getvalue uploaded_file) w with
      | (Return name, w') => write_uploads env rest (temp_paths ++ [name]) w'
      | (Raise e, w') => (Raise e, w')
      end
  end.

(** The world after lines 110-114: every path unlinked, failures ignored. *)
Fixpoint unlink_all {W : Type} (env : Env W) (temp_paths : list string) (w : W) : W :=
  match temp_paths with
  | [] => w
  | p :: rest => unlink_all env rest (snd (os_unlink env p w))
  end.

(** The collection name of a runtime, and the chat messages on its screen. *)
Definition name_of {W : Type} (rt : runtime W) : option string :=
  collection_name (session rt).

Definition chats_of {W : Type} (rt : runtime W) : list ui_event :=
  chats_shown (screen rt).

(** The name line 44 gives a session in world [w]. *)
Definition drawn_name {W : Type} (env : Env W) (w : W) : string :=
  "docs_" +:+ substring 0 8 (fst (uuid4 env w)).

(** The collection name an execution works with, and the world it reaches
    the sidebar in: the name is drawn only if the session has none
    (lines 42-44). *)
Definition session_name {W : Type} (env : Env W) (s : session_state) (w : W) : string :=
  match collection_name s with
  | Some c => c
  | None => drawn_name env w
  end.

Definition world_named {W : Type} (env : Env W) (s : session_state) (w : W) : W :=
  match collection_name s with
  | Some _ => w
  | None => snd (uuid4 env w)
  end.

(** The world an upload interaction leaves (lines 64-114): the uploads are
    written, the knowledge base over the written paths is constructed and
    loaded, and the paths are unlinked if the constructor and the load
    returned. *)
Definition world_after_upload {W : Type} (env : Env W) (files : list UploadedFile)
  (c : string) (w : W) : W :=
  match write_uploads env files [] w with
  | (Raise _, w1) => w1
  | (Return temp_paths, w1) =>
      let kb := PDFKnowledgeBase temp_paths {| chunk := true |} (new_vector_db env c) in
      match construct_knowledge_base env kb w1 with
      | (Raise _, w2) => w2
      | (Return _, w2) =>
          match kb_load env kb w2 with
          | (Return _, w3) => unlink_all env temp_paths w3
          | (Raise _, w3) => w3
          end
      end
  end.

(** An interaction that neither asks for a load, nor clears, nor puts a
    question to a ready session. *)
Definition quiet (loaded : bool) (inp : run_input) : bool :=
  negb (load_requested inp)
  && match fired inp with
     | ClickClear => false
     | SubmitChat q => negb (loaded && truthy q)
     | _ => true
     end.

(** What the page draws above the sidebar (lines 32-33). *)
Definition page_top : list ui_event :=
  [UiTitle "📚 PDF Assistant with RAG";
   UiMarkdown "Upload PDFs or provide URLs to chat with your documents"].

(** The runtime in which the sidebar of an execution starts. *)
Definition at_sidebar {W : Type} (c : string) (s : session_state) (w : W) : runtime W :=
  {| session := named c s; world := w; screen := page_top; calls := [] |}.

(** The runtime in which the rerun asked by [st.rerun()] starts. *)
Definition rerun_from {W : Type} (rt : runtime W) : runtime W :=
  {| session := session rt; world := world rt; screen := []; calls := calls rt |}.

(** The transcript is a sequence of turns: roles alternate from ["user"]
    and the last message is an assistant's. *)
Definition well_formed_transcript (ms : list message) : Prop :=
  alternating true ms = true /\ Nat.even (length ms) = true.

(** * Properties *)

(** ** The helpers on sample values *)

Example parse_urls_sample :
  parse_urls (" https://a.org/x.pdf  " +:+ nl +:+ nl +:+ "   " +:+ nl +:+ "https://b.org/y.pdf")
  = ["https://a.org/x.pdf"; "https://b.org/y.pdf"].
Proof. reflexivity. Qed.

Example build_context_sample :
  build_context [ {| doc_name := "a.pdf"; doc_content := "first" |};
                  {| doc_name := "a.pdf"; doc_content := "second" |} ]
  = "Document 1:" +:+ nl +:+ "first" +:+ nl +:+ nl +:+ "Document 2:" +:+ nl +:+ "second".
Proof. reflexivity. Qed.

Example extract_from_plain_str :
  extract_response_text
    {| resp_repr := "plain answer"; resp_content := None; resp_messages := None |}
  = Return "plain answer".
Proof. reflexivity. Qed.

Example extract_from_last_message :
  extract_response_text
    {| resp_repr := "<RunResponse>"; resp_content := None;
       resp_messages := Some [ {| msg_repr := "<m1>"; msg_content := Some "one" |};
                               {| msg_repr := "<m2>"; msg_content := None |} ] |}
  = Return "<m2>".
Proof. reflexivity. Qed.

Example index_last_of_empty :
  index_last (@nil nat) = Raise (IndexError "list index out of range").
Proof. reflexivity. Qed.

(** ** The extraction never raises *)

(** The index [-1] of a list that [len] found non-empty is its last element. *)
Lemma index_last_guarded {A : Type} (l : list A) :
  Nat.ltb 0 (length l) = true ->
  exists x, last l = Some x /\ index_last l = Return x.
Proof.
  intros Hlen. unfold index_last. destruct (last l) as [x|] eqn:E.
  - exists x. split; reflexivity.
  - apply last_None in E. subst l. discriminate.
Qed.

Lemma extract_response_text_ok (response : Response) :
  extract_response_text response = Return (response_text_of response).
Proof.
  unfold extract_response_text, response_text_of, hasattr_content, getattr_content,
    hasattr_messages, getattr_messages.
  destruct (resp_content response) as [c|]; [reflexivity|].
  destruct (resp_messages response) as [ms|]; [|reflexivity].
  cbn [result_bind]. destruct (Nat.ltb 0 (length ms)) eqn:Hlen.
  - destruct (index_last_guarded ms Hlen) as (m & -> & ->). cbn [result_bind].
    unfold message_hasattr_content, message_getattr_content, last_message_text.
    destruct (msg_content m); reflexivity.
  - destruct ms; [reflexivity|discriminate].
Qed.

Lemma errors_shown_app (a b : list ui_event) :
  errors_shown (a ++ b) = errors_shown a ++ errors_shown b.
Proof.
  induction a as [|ev a IH]; [reflexivity|].
  destruct ev; cbn; rewrite ?IH; reflexivity.
Qed.

(** ** Stepping through the script *)

Ltac munfold :=
  unfold knowledge_base_load, knowledge_base_search, run_assistant, assistant_attr,
    set_messages, append_message, set_assistant, set_knowledge_base_loaded,
    set_collection_name, get_collection_name in *;
  unfold bind, ret, raise, st_rerun, try_except, try_pass, show, call, call_quiet,
    read, with_session, lift_result in *;
  cbn [session world screen calls fst snd
       messages assistant knowledge_base_loaded collection_name] in *.

Section Steps.

Context {W : Type}.
Variable env : Env W.

Lemma for_each_show (f : message -> ui_event) (ms : list message) (rt : runtime W) :
  for_each (fun m => show (f m)) ms rt
  = (Ok tt, {| session := session rt; world := world rt;
               screen := screen rt ++ map f ms; calls := calls rt |}).
Proof.
  revert rt. induction ms as [|m ms IH]; intros rt.
  - cbn. rewrite app_nil_r. destruct rt; reflexivity.
  - cbn [for_each map]. unfold bind at 1. unfold show at 1.
    rewrite IH. cbn [session world screen calls messages assistant knowledge_base_loaded collection_name]. rewrite <- app_assoc. reflexivity.
Qed.

(** Writing the uploads touches only the world. *)
Lemma save_uploads_frame (files : list UploadedFile) (acc : list string) (rt : runtime W) :
  exists o w',
    save_uploads env files acc rt
    = (o, {| session := session rt; world := w'; screen := screen rt; calls := calls rt |})
    /\ o <> Rerun.
Proof.
  revert acc rt. induction files as [|f files IH]; intros acc rt.
  - exists (Ok acc), (world rt). destruct rt; split; [reflexivity|discriminate].
  - cbn [save_uploads]. munfold.
    destruct (save_upload env (getvalue f) (world rt)) as [[name|e] w1].
    + destruct (IH (acc ++ [name])
                  {| session := session rt; world := w1; screen := screen rt; calls := calls rt |})
        as (o & w' & Heq & Hne).
      exists o, w'. rewrite Heq. cbn. destruct o; split; try reflexivity; assumption.
    + exists (Raised e), w1. split; [reflexivity|discriminate].
Qed.

(** Removing the temporary files touches only the world and never fails. *)
Lemma cleanup_frame (paths : list string) (rt : runtime W) :
  exists w',
    remove_temp_files env paths rt
    = (Ok tt, {| session := session rt; world := w'; screen := screen rt; calls := calls rt |}).
Proof.
  revert rt. induction paths as [|p paths IH]; intros rt.
  - exists (world rt). destruct rt; reflexivity.
  - unfold remove_temp_files in *. cbn [for_each]. munfold.
    destruct (os_unlink env p (world rt)) as [r w1]. cbn.
    destruct (IH {| session := session rt; world := w1; screen := screen rt; calls := calls rt |})
      as (w' & Heq).
    exists w'. exact Heq.
Qed.


Ltac screen_errors :=
  cbn [session world screen calls messages assistant knowledge_base_loaded collection_name];
  rewrite ?errors_shown_app; cbn [errors_shown]; rewrite ?app_nil_r, <- ?app_assoc;
  try reflexivity.

Lemma load_pdfs_spec (files : list UploadedFile) (rt : runtime W) (c : string) :
  collection_name (session rt) = Some c ->
  exists rt', load_pdfs env files rt = (Ok tt, rt') /\ load_effect env c rt rt'.
Proof.
  intros Hc. unfold load_pdfs. munfold.
  destruct (save_uploads_frame files []
              {| session := session rt; world := world rt;
                 screen := screen rt ++ [UiInfo ("📥 Uploading " +:+ str_of_int (length files) +:+ " file(s)...")];
                 calls := calls rt |}) as (o & w1 & Heq & Hne).
  cbn [session world screen calls] in Heq. rewrite Heq. clear Heq.
  destruct o as [paths|e|]; [| |congruence].
  - cbn [session world screen calls]. rewrite Hc. cbn [session world screen calls].
    match goal with |- context [construct_knowledge_base env ?kb ?w] =>
      destruct (construct_knowledge_base env kb w) as [[[]|e] w1'] end;
      cbn [session world screen calls].
    + match goal with |- context [kb_load env ?kb ?w] =>
        destruct (kb_load env kb w) as [[report|e] w2] end; cbn [session world screen calls].
      * match goal with |- context [remove_temp_files env paths ?r] =>
          destruct (cleanup_frame paths r) as (w3 & Hclean) end.
        cbn [session world screen calls] in Hclean. rewrite Hclean.
        eexists; split; [reflexivity|].
        eapply load_succeeded with (report := report);
          [ | reflexivity | reflexivity | screen_errors]; reflexivity.
      * eexists; split; [reflexivity|].
        eapply load_failed with (e := e) (label := "❌ Error loading PDFs: ");
          [ | reflexivity | reflexivity | screen_errors]; right; eexists; split; [|reflexivity]; reflexivity.
    + eexists; split; [reflexivity|].
      eapply load_failed with (e := e) (made := []) (label := "❌ Error loading PDFs: ");
        [left; reflexivity | cbn; rewrite app_nil_r; reflexivity | reflexivity | screen_errors].
  - eexists; split; [reflexivity|].
    eapply load_failed with (e := e) (made := []) (label := "❌ Error loading PDFs: ");
      [left; reflexivity | cbn; rewrite app_nil_r; reflexivity | reflexivity | screen_errors].
Qed.

Lemma load_urls_spec (text : string) (rt : runtime W) (c : string) :
  collection_name (session rt) = Some c ->
  exists rt', load_urls env text rt = (Ok tt, rt') /\ load_effect env c rt rt'.
Proof.
  intros Hc. unfold load_urls. munfold. rewrite Hc. cbn [session world screen calls].
  match goal with |- context [construct_knowledge_base env ?kb ?w] =>
    destruct (construct_knowledge_base env kb w) as [[[]|e] w1] end;
    cbn [session world screen calls].
  - match goal with |- context [kb_load env ?kb ?w] =>
      destruct (kb_load env kb w) as [[report|e] w2] end; cbn [session world screen calls].
    + eexists; split; [reflexivity|].
      eapply load_succeeded with (report := report);
        [ | reflexivity | reflexivity | screen_errors]; reflexivity.
    + eexists; split; [reflexivity|].
      eapply load_failed with (e := e) (label := "❌ Error loading URLs: ");
        [ | reflexivity | reflexivity | screen_errors]; right; eexists; split; [|reflexivity]; reflexivity.
  - eexists; split; [reflexivity|].
    eapply load_failed with (e := e) (made := []) (label := "❌ Error loading URLs: ");
      [left; reflexivity | cbn; rewrite app_nil_r; reflexivity | reflexivity | screen_errors].
Qed.


Lemma chat_turn_spec (q : string) (rt : runtime W) :
  exists reply made shown w',
    chat_turn env q rt
    = (Ok tt, {| session := with_turn (session rt) q reply; world := w';
                 screen := screen rt ++ [UiChat "user" q; shown];
                 calls := calls rt ++ made |})
    /\ turn_outcome (session rt) q made reply shown.
Proof.
  unfold chat_turn, answer, with_turn. munfold.
  destruct (assistant (session rt)) as [a|] eqn:Ha;
    cbn [session world screen calls messages assistant knowledge_base_loaded collection_name].
  - destruct (kb_search env (knowledge_base a) q 5 (world rt)) as [[docs|e] w1].
    + cbn [session world screen calls messages assistant knowledge_base_loaded collection_name].
      destruct (assistant_run env a (enhanced_prompt (build_context docs) q) w1)
        as [[response|e] w2].
      * rewrite extract_response_text_ok.
        cbn [session world screen calls messages assistant knowledge_base_loaded collection_name].
        do 4 eexists. rewrite <- !app_assoc. split; [reflexivity|].
        cbn [app]. apply turn_answered. exact Ha.
      * cbn [session world screen calls messages assistant knowledge_base_loaded collection_name].
        do 4 eexists. rewrite <- !app_assoc. split; [reflexivity|].
        cbn [app]. apply turn_run_raised. exact Ha.
    + cbn [session world screen calls messages assistant knowledge_base_loaded collection_name].
      do 4 eexists. rewrite <- !app_assoc. split; [reflexivity|].
      apply turn_search_raised. exact Ha.
  - do 4 eexists. rewrite <- !app_assoc. split.
    + cbn [app]. instantiate (1 := []). rewrite app_nil_r. reflexivity.
    + apply turn_without_assistant. exact Ha.
Qed.


Lemma named_id (c : string) (s : session_state) :
  collection_name s = Some c -> named c s = s.
Proof. destruct s; cbn; intros ->; reflexivity. Qed.

Lemma errors_shown_history (ms : list message) : errors_shown (history ms) = [].
Proof. induction ms; [reflexivity|assumption]. Qed.

(** Lines 14-44: with the API key configured, the script reaches the sidebar
    in a session that has a collection name. *)
Lemma script_prelude (k : string) (inp : run_input) (rt : runtime W) :
  GROQ_API_KEY env = Some k ->
  exists c w1,
    (collection_name (session rt) = None \/ collection_name (session rt) = Some c)
    /\ (collection_name (session rt) = Some c -> w1 = world rt)
    /\ script env inp rt
       = (sidebar env inp ;; main_chat env inp)
           {| session := named c (session rt); world := w1;
              screen := screen rt ++ [UiTitle "📚 PDF Assistant with RAG";
                                      UiMarkdown "Upload PDFs or provide URLs to chat with your documents"];
              calls := calls rt |}.
Proof.
  intros Hk. unfold script, configure, page_header, init_session_state. rewrite Hk.
  unfold bind at 1. unfold ret at 1.
  unfold bind at 1. unfold bind at 1. unfold show at 1. unfold show at 1.
  unfold bind at 1. unfold bind at 1. unfold read at 1.
  cbn [session world screen calls].
  destruct (collection_name (session rt)) as [c|] eqn:Hc.
  - exists c, (world rt). split; [right; reflexivity|]. split; [reflexivity|].
    unfold ret at 1. rewrite <- app_assoc. cbn [app].
    replace (named c (session rt)) with (session rt); [reflexivity|].
    symmetry. apply named_id. exact Hc.
  - unfold bind at 1. unfold call_quiet at 1. cbn [session world screen calls].
    destruct (uuid4 env (world rt)) as [u w1].
    exists ("docs_" +:+ substring 0 8 u), w1. split; [left; reflexivity|].
    split; [discriminate|].
    cbn [lift_result]. unfold set_collection_name, with_session.
    cbn [session world screen calls]. rewrite <- app_assoc. reflexivity.
Qed.

Lemma script_without_key (inp : run_input) (rt : runtime W) :
  GROQ_API_KEY env = None ->
  script env inp rt = (Raised (TypeError "str expected, not NoneType"), rt).
Proof. intros Hk. unfold script, configure. rewrite Hk. reflexivity. Qed.

Lemma load_effect_frame (c : string) (rt rt1 rt2 rt' : runtime W) :
  load_effect env c rt1 rt2 ->
  session rt1 = session rt -> calls rt1 = calls rt ->
  errors_shown (screen rt1) = errors_shown (screen rt) ->
  session rt' = session rt2 -> calls rt' = calls rt2 ->
  errors_shown (screen rt') = errors_shown (screen rt2) ->
  load_effect env c rt rt'.
Proof.
  intros [kb report Hcol Hcalls Hsess Herr | label e made Hmade Hcalls Hsess Herr]
    Hs1 Hc1 He1 Hs2 Hc2 He2.
  - eapply load_succeeded with (kb := kb) (report := report); congruence.
  - eapply load_failed with (label := label) (e := e) (made := made); congruence.
Qed.

Ltac finish_quiet :=
  do 2 eexists; split; [reflexivity|]; split;
  [ first [ left; split; [reflexivity|discriminate] | right; split; reflexivity ]
  | left; split; [reflexivity|]; split; [reflexivity|screen_errors] ].

Ltac finish_load Heff :=
  do 2 eexists; split; [reflexivity|]; split;
  [ left; split; [reflexivity|discriminate]
  | right; split; [auto|];
    eapply load_effect_frame; [exact Heff | reflexivity | reflexivity | screen_errors
                              | reflexivity | reflexivity | screen_errors ] ].

Lemma sidebar_spec (inp : run_input) (rt : runtime W) (c : string) :
  collection_name (session rt) = Some c ->
  exists o rt',
    sidebar env inp rt = (o, rt')
    /\ ((o = Ok tt /\ fired inp <> ClickClear) \/ (o = Rerun /\ fired inp = ClickClear))
    /\ ((session rt' = (if button_clear inp then cleared (session rt) else session rt)
         /\ calls rt' = calls rt
         /\ errors_shown (screen rt') = errors_shown (screen rt))
        \/ (load_click inp /\ load_effect env c rt rt')).
Proof.
  intros Hc. destruct inp as [method files text trig].
  unfold sidebar, button_load_pdfs, button_load_urls, button_clear, load_click, cleared.
  cbn [radio uploaded_files url_input fired].
  destruct method, trig; rewrite ?andb_false_r;
    try (munfold; destruct (knowledge_base_loaded (session rt)); finish_quiet; fail).
  - (* Load PDFs pressed *)
    destruct files as [|f files]; cbn [nonempty andb];
      [munfold; destruct (knowledge_base_loaded (session rt)); finish_quiet|].
    unfold bind at 1. unfold show at 1. unfold bind at 1.
    match goal with |- context [load_pdfs env ?fs ?r] =>
      destruct (load_pdfs_spec fs r c Hc) as (rt2 & Heq & Heff); rewrite Heq end.
    munfold. destruct (knowledge_base_loaded (session rt2)); finish_load Heff.
  - (* Load URLs pressed *)
    destruct (truthy (strip text)).
    + unfold bind at 1. unfold show at 1. unfold bind at 1. unfold bind at 1.
      unfold show at 1.
      match goal with |- context [load_urls env ?t ?r] =>
        destruct (load_urls_spec t r c Hc) as (rt2 & Heq & Heff); rewrite Heq end.
      munfold. destruct (knowledge_base_loaded (session rt2)); finish_load Heff.
    + munfold; destruct (knowledge_base_loaded (session rt)); finish_quiet.
Qed.


Lemma main_chat_not_loaded (inp : run_input) (rt : runtime W) :
  knowledge_base_loaded (session rt) = false ->
  main_chat env inp rt
  = (Ok tt, {| session := session rt; world := world rt;
               screen := screen rt ++ [not_loaded_notice; UiMarkdown "### 🎯 How to use:";
                                       UiMarkdown how_to_use];
               calls := calls rt |}).
Proof.
  intros Hl. unfold main_chat. munfold. rewrite Hl.
  rewrite <- !app_assoc. reflexivity.
Qed.

Lemma main_chat_idle (inp : run_input) (rt : runtime W) :
  knowledge_base_loaded (session rt) = true ->
  (forall q, fired inp = SubmitChat q -> truthy q = false) ->
  main_chat env inp rt
  = (Ok tt, {| session := session rt; world := world rt;
               screen := screen rt ++ history (messages (session rt));
               calls := calls rt |}).
Proof.
  intros Hl Hq. unfold main_chat.
  unfold bind at 1. unfold read at 1. rewrite Hl.
  unfold bind at 1. unfold read at 1. unfold bind at 1.
  rewrite for_each_show. cbn [session world screen calls].
  unfold chat_input. destruct (fired inp) as [| | | |q] eqn:Hf; try reflexivity.
  rewrite (Hq q eq_refl). reflexivity.
Qed.

Lemma main_chat_ask (inp : run_input) (rt : runtime W) (q : string) :
  knowledge_base_loaded (session rt) = true ->
  fired inp = SubmitChat q ->
  truthy q = true ->
  exists reply made shown w',
    main_chat env inp rt
    = (Ok tt, {| session := with_turn (session rt) q reply; world := w';
                 screen := (screen rt ++ history (messages (session rt)))
                           ++ [UiChat "user" q; shown];
                 calls := calls rt ++ made |})
    /\ turn_outcome (session rt) q made reply shown.
Proof.
  intros Hl Hf Hq. unfold main_chat.
  unfold bind at 1. unfold read at 1. rewrite Hl.
  unfold bind at 1. unfold read at 1. unfold bind at 1.
  rewrite for_each_show. cbn [session world screen calls].
  unfold chat_input. rewrite Hf, Hq.
  match goal with |- context [chat_turn env q ?r] =>
    destruct (chat_turn_spec q r) as (reply & made & shown & w' & Heq & Hto) end.
  cbn [session world screen calls] in Heq, Hto.
  exists reply, made, shown, w'. split; [exact Heq|exact Hto].
Qed.


(** An execution in which nothing fired leaves the session as it was. *)
Lemma script_nothing_fired (k : string) (inp : run_input) (rt : runtime W) (c : string) :
  GROQ_API_KEY env = Some k ->
  fired inp = NoTrigger ->
  collection_name (session rt) = Some c ->
  exists rt',
    script env inp rt = (Ok tt, rt')
    /\ session rt' = session rt /\ calls rt' = calls rt
    /\ errors_shown (screen rt') = errors_shown (screen rt).
Proof.
  intros Hk Hf Hc.
  destruct (script_prelude k inp rt Hk) as (c' & w1 & Hname & Hw & Heq).
  rewrite Heq. clear Heq.
  assert (c' = c) as -> by (destruct Hname; congruence).
  rewrite (named_id c _ Hc).
  unfold bind at 1.
  match goal with |- context [sidebar env inp ?r] =>
    destruct (sidebar_spec inp r c Hc) as (o & rt2 & Hs & Ho & Heff) end.
  rewrite Hs. clear Hs.
  unfold button_clear, load_click in *. rewrite Hf in *.
  destruct Ho as [[-> _] | [_ ?]]; [|discriminate].
  destruct Heff as [(Hsess & Hcalls & Herr) | ([?|?] & _)]; try discriminate.
  cbn [session world screen calls] in *.
  destruct (knowledge_base_loaded (session rt2)) eqn:Hl.
  - rewrite main_chat_idle; [|exact Hl|intros q; rewrite Hf; discriminate].
    eexists; split; [reflexivity|]. cbn [session world screen calls].
    split; [exact Hsess|]. split; [exact Hcalls|].
    rewrite errors_shown_app, errors_shown_history, app_nil_r, Herr.
    screen_errors.
  - rewrite main_chat_not_loaded; [|exact Hl].
    eexists; split; [reflexivity|]. cbn [session world screen calls].
    split; [exact Hsess|]. split; [exact Hcalls|].
    rewrite errors_shown_app, Herr. screen_errors.
Qed.


(** With the API key configured, every interaction ends normally and has one
    of the five effects of [run_effect]. *)
Theorem run_script_effect (k : string) (inp : run_input) (s : session_state) (w : W) :
  GROQ_API_KEY env = Some k ->
  exists rt', run_script env inp s w = (Ok tt, rt') /\ run_effect env inp s rt'.
Proof.
  intros Hk. unfold run_script.
  destruct (script_prelude k inp (start s w) Hk) as (c & w1 & Hname & Hw & Heq).
  rewrite Heq. clear Heq. cbn [start session world screen calls app] in *.
  unfold bind at 1.
  match goal with |- context [sidebar env inp ?r] =>
    destruct (sidebar_spec inp r c eq_refl) as (o & rt2 & Hs & Ho & Heff) end.
  rewrite Hs. clear Hs. cbn [session world screen calls errors_shown] in Heff.
  destruct Ho as [[-> Hnc] | [-> Hclear]]; cbv beta iota.
  - enough (exists rt', main_chat env inp rt2 = (Ok tt, rt') /\ run_effect env inp s rt')
      as (rt' & Heq & Hre) by (rewrite Heq; eauto).
    destruct Heff as [(Hsess & Hcalls & Herr) | (Hlc & Hl)].
    + assert (button_clear inp = false) as Hbc
        by (unfold button_clear; destruct (fired inp); congruence).
      rewrite Hbc in Hsess.
      destruct (knowledge_base_loaded s) eqn:Hloaded.
      * assert (knowledge_base_loaded (session rt2) = true) as Hl2
          by (rewrite Hsess; exact Hloaded).
        assert (forall q, fired inp = SubmitChat q -> truthy q = false ->
                exists rt', main_chat env inp rt2 = (Ok tt, rt') /\ run_effect env inp s rt')
          as Hidle_q.
        { intros q Hf Hq. rewrite main_chat_idle; [|exact Hl2|congruence].
          eexists; split; [reflexivity|].
          eapply run_idle with (c := c); cbn [session world screen calls]; try assumption.
          - intros q' Hf'. left. congruence.
          - rewrite errors_shown_app, errors_shown_history, Herr. reflexivity.
          - congruence. }
        assert ((forall q, fired inp <> SubmitChat q) ->
                exists rt', main_chat env inp rt2 = (Ok tt, rt') /\ run_effect env inp s rt')
          as Hidle.
        { intros Hf. rewrite main_chat_idle; [|exact Hl2|intros q Hq; destruct (Hf q Hq)].
          eexists; split; [reflexivity|].
          eapply run_idle with (c := c); cbn [session world screen calls]; try assumption.
          - intros q' Hf'. destruct (Hf q' Hf').
          - rewrite errors_shown_app, errors_shown_history, Herr. reflexivity.
          - congruence. }
        destruct (fired inp) as [| | | |q] eqn:Hf; try (apply Hidle; intros ?; congruence).
        destruct (truthy q) eqn:Hq; [|apply (Hidle_q q eq_refl Hq)].
        destruct (main_chat_ask inp rt2 q Hl2 Hf Hq)
          as (reply & made & shown & w' & Heq & Hto).
        rewrite Heq. eexists; split; [reflexivity|].
        rewrite Hsess, Hcalls in *.
        eapply run_asked with (c := c) (q := q) (reply := reply) (shown := shown)
          (before := screen rt2 ++ history (messages (named c s)));
          cbn [session world screen calls]; try eassumption; try reflexivity.
        rewrite errors_shown_app, errors_shown_history, Herr. reflexivity.
      * assert (knowledge_base_loaded (session rt2) = false) as Hl2
          by (rewrite Hsess; exact Hloaded).
        rewrite main_chat_not_loaded; [|exact Hl2].
        eexists; split; [reflexivity|].
        eapply run_idle with (c := c); cbn [session world screen calls]; try assumption.
        -- intros q _. right. exact Hloaded.
        -- rewrite errors_shown_app, Herr. reflexivity.
        -- intros _. apply in_or_app. right. left. reflexivity.
    + assert (forall q, fired inp = SubmitChat q -> truthy q = false) as Hnochat
        by (intros q Hq; destruct Hlc; congruence).
      destruct Hl as [kb report Hcol Hcalls Hsess Herr | label e made Hmade Hcalls Hsess Herr];
        cbn [session world screen calls errors_shown app] in *.
      * rewrite main_chat_idle; [|rewrite Hsess; reflexivity|exact Hnochat].
        eexists; split; [reflexivity|].
        eapply run_loaded with (c := c) (kb := kb) (report := report);
          cbn [session world screen calls]; try assumption.
        rewrite errors_shown_app, errors_shown_history, Herr. reflexivity.
      * destruct (knowledge_base_loaded (session rt2)) eqn:Hl2.
        -- rewrite main_chat_idle; [|exact Hl2|exact Hnochat].
           eexists; split; [reflexivity|].
           eapply run_load_failed with (c := c) (label := label) (e := e) (made := made);
             cbn [session world screen calls]; try assumption.
           rewrite errors_shown_app, errors_shown_history, Herr. reflexivity.
        -- rewrite main_chat_not_loaded; [|exact Hl2].
           eexists; split; [reflexivity|].
           eapply run_load_failed with (c := c) (label := label) (e := e) (made := made);
             cbn [session world screen calls]; try assumption.
           rewrite errors_shown_app, Herr. reflexivity.
  - destruct Heff as [(Hsess & Hcalls & Herr) | ([Hlc|Hlc] & _)]; try congruence.
    assert (button_clear inp = true) as Hbc by (unfold button_clear; rewrite Hclear; reflexivity).
    rewrite Hbc in Hsess.
    match goal with |- context [script env (without_trigger inp) ?r] =>
      destruct (script_nothing_fired k (without_trigger inp) r c Hk eq_refl)
        as (rt3 & Heq & Hs3 & Hc3 & He3) end.
    { cbn [session]. rewrite Hsess. reflexivity. }
    rewrite Heq. eexists; split; [reflexivity|].
    cbn [session world screen calls errors_shown] in *.
    eapply run_cleared with (c := c); try assumption; congruence.
Qed.

Theorem run_script_without_key (inp : run_input) (s : session_state) (w : W) :
  GROQ_API_KEY env = None ->
  run_script env inp s w = (Raised (TypeError "str expected, not NoneType"), start s w).
Proof.
  intros Hk. unfold run_script. rewrite script_without_key by exact Hk. reflexivity.
Qed.

End Steps.

(** ** Invariants of the world and of the calls *)

Section Logic.

Context {W : Type}.
Variable I : W -> list ext_call -> Prop.

Lemma preserves_pure {A : Type} (m : M W A) :
  (forall rt, world (snd (m rt)) = world rt /\ calls (snd (m rt)) = calls rt) ->
  preserves I m.
Proof.
  intros H rt o rt' Hi Heq. destruct (H rt) as [Hw Hc].
  rewrite Heq in Hw, Hc. cbn in Hw, Hc. rewrite Hw, Hc. exact Hi.
Qed.

Lemma preserves_ret {A : Type} (a : A) : preserves I (ret a).
Proof. apply preserves_pure. intros rt; split; reflexivity. Qed.

Lemma preserves_raise {A : Type} (e : exn) : preserves I (@raise W A e).
Proof. apply preserves_pure. intros rt; split; reflexivity. Qed.

Lemma preserves_st_rerun {A : Type} : preserves I (@st_rerun W A).
Proof. apply preserves_pure. intros rt; split; reflexivity. Qed.

Lemma preserves_show (ev : ui_event) : preserves I (show ev).
Proof. apply preserves_pure. intros rt; split; reflexivity. Qed.

Lemma preserves_read {A : Type} (f : session_state -> A) : preserves I (read f).
Proof. apply preserves_pure. intros rt; split; reflexivity. Qed.

Lemma preserves_with_session (f : session_state -> session_state) :
  preserves I (with_session f).
Proof. apply preserves_pure. intros rt; split; reflexivity. Qed.

Lemma preserves_get_collection_name : preserves I (@get_collection_name W).
Proof.
  apply preserves_pure. intros rt. unfold get_collection_name.
  destruct (collection_name (session rt)); split; reflexivity.
Qed.

Lemma preserves_bind {A B : Type} (m : M W A) (k : A -> M W B) :
  preserves I m -> (forall a, preserves I (k a)) -> preserves I (bind m k).
Proof.
  intros Hm Hk rt o rt' Hi. unfold bind.
  destruct (m rt) as [[a|e|] rt1] eqn:Em; intros Heq.
  - eapply Hk; [|exact Heq]. eapply Hm; [exact Hi|exact Em].
  - injection Heq as <- <-. eapply Hm; [exact Hi|exact Em].
  - injection Heq as <- <-. eapply Hm; [exact Hi|exact Em].
Qed.

Lemma preserves_try_except {A : Type} (body : M W A) (handler : exn -> M W A) :
  preserves I body -> (forall e, preserves I (handler e)) ->
  preserves I (try_except body handler).
Proof.
  intros Hb Hh rt o rt' Hi. unfold try_except.
  destruct (body rt) as [[a|e|] rt1] eqn:Eb; intros Heq.
  - injection Heq as <- <-. eapply Hb; [exact Hi|exact Eb].
  - eapply Hh; [|exact Heq]. eapply Hb; [exact Hi|exact Eb].
  - injection Heq as <- <-. eapply Hb; [exact Hi|exact Eb].
Qed.

Lemma preserves_try_pass (body : M W unit) :
  preserves I body -> preserves I (try_pass body).
Proof.
  intros Hb rt o rt' Hi. unfold try_pass. intros Heq. injection Heq as <- <-.
  destruct (body rt) as [o1 rt1] eqn:Eb. eapply Hb; [exact Hi|exact Eb].
Qed.

Lemma preserves_for_each {A : Type} (f : A -> M W unit) (l : list A) :
  (forall x, preserves I (f x)) -> preserves I (for_each f l).
Proof.
  intros Hf. induction l as [|x l IH]; cbn [for_each].
  - apply preserves_ret.
  - apply preserves_bind; [apply Hf|intros _; exact IH].
Qed.

Lemma preserves_call {A : Type} (op : W -> result A * W) (entry : result A -> ext_call) :
  (forall w cs, I w cs -> I (snd (op w)) (cs ++ [entry (fst (op w))])) ->
  preserves I (call op entry).
Proof.
  intros H rt o rt' Hi. unfold call. specialize (H (world rt) (calls rt) Hi).
  destruct (op (world rt)) as [r w']. intros Heq. injection Heq as <- <-. exact H.
Qed.

Lemma preserves_call_quiet {A : Type} (op : W -> result A * W) :
  (forall w cs, I w cs -> I (snd (op w)) cs) ->
  preserves I (call_quiet op).
Proof.
  intros H rt o rt' Hi. unfold call_quiet. specialize (H (world rt) (calls rt) Hi).
  destruct (op (world rt)) as [r w']. intros Heq. injection Heq as <- <-. exact H.
Qed.

Variable env : Env W.
Hypothesis Henv : respects env I.

Lemma preserves_save_uploads (files : list UploadedFile) (acc : list string) :
  preserves I (save_uploads env files acc).
Proof.
  revert acc. induction files as [|f files IH]; intros acc; cbn [save_uploads].
  - apply preserves_ret.
  - apply preserves_bind; [|intros name; apply IH].
    apply preserves_call_quiet. intros w cs. apply (respects_save_upload _ _ Henv).
Qed.

Ltac preserve :=
  repeat first
    [ apply preserves_ret | apply preserves_raise | apply preserves_st_rerun
    | apply preserves_show | apply preserves_read | apply preserves_with_session
    | apply preserves_get_collection_name | apply preserves_save_uploads
    | apply preserves_bind; [|intros ?]
    | apply preserves_try_except; [|intros ?]
    | apply preserves_try_pass
    | apply preserves_for_each; intros ?
    | apply preserves_call; intros ? ?;
      first [ apply (respects_kb_load _ _ Henv) | apply (respects_kb_search _ _ Henv)
            | apply (respects_assistant_run _ _ Henv) ]
    | apply preserves_call_quiet; intros ? ?;
      first [ apply (respects_save_upload _ _ Henv) | apply (respects_os_unlink _ _ Henv)
            | apply (respects_construct _ _ Henv) ]
    | match goal with
      | |- preserves _ (if ?b then _ else _) => destruct b
      | |- preserves _ (match ?x with _ => _ end) => destruct x
      end ].

Lemma preserves_script (inp : run_input) : preserves I (script env inp).
Proof.
  unfold script, configure, page_header, init_session_state, sidebar, main_chat,
    load_pdfs, load_urls, remove_temp_files, chat_turn, answer, assistant_attr,
    knowledge_base_load, knowledge_base_search, run_assistant,
    set_messages, append_message, set_assistant, set_knowledge_base_loaded,
    set_collection_name.
  preserve.
  all: try (apply preserves_pure; intros rt; split; reflexivity).
  apply preserves_call_quiet. intros w cs Hi.
  pose proof (respects_uuid4 _ _ Henv w cs Hi) as Hu.
  destruct (uuid4 env w) as [u w']. exact Hu.
Qed.

(** One interaction, with its possible rerun, keeps the invariant. *)
Theorem run_script_preserves (inp : run_input) (s : session_state) (w : W) :
  I w [] -> I (world (after_run env inp s w)) (calls (after_run env inp s w)).
Proof.
  intros Hi. unfold after_run, run_script.
  destruct (script env inp (start s w)) as [o rt] eqn:E1.
  assert (I (world rt) (calls rt)) as H1
    by (eapply (preserves_script inp); [|exact E1]; exact Hi).
  destruct o as [[]|e|]; cbn [snd]; try exact H1.
  match goal with |- context [script env ?i ?r] =>
    destruct (script env i r) as [o2 rt2] eqn:E2 end.
  cbn [snd]. eapply (preserves_script _); [|exact E2]. exact H1.
Qed.

End Logic.

(** ** The prompt *)

Lemma string_app_assoc (a b c : string) : (a +:+ b) +:+ c = a +:+ b +:+ c.
Proof.
  induction a as [|ch a IH]; [reflexivity|].
  change (String ch ((a +:+ b) +:+ c) = String ch (a +:+ b +:+ c)).
  f_equal. exact IH.
Qed.

Lemma occur_in_order_at (part : string) (parts : list string) (s before after : string) :
  s = before +:+ part +:+ after ->
  occur_in_order parts after ->
  occur_in_order (part :: parts) s.
Proof. intros -> H. constructor. exact H. Qed.

Lemma occur_in_order_prefix (parts : list string) (pre s : string) :
  occur_in_order parts s -> occur_in_order parts (pre +:+ s).
Proof.
  intros [s'|part parts' before after H]; [constructor|].
  apply occur_in_order_at with (before := pre +:+ before) (after := after); [|exact H].
  rewrite string_app_assoc. reflexivity.
Qed.

(** The blocks of the context carry, in order, the marker and the text of
    every document; what follows the context still comes after them. *)
Lemma occur_in_context (docs : list Document) (i : nat) (pre rest : string)
  (parts : list string) :
  occur_in_order parts rest ->
  occur_in_order
    (flat_map (fun entry : nat * Document =>
                 ["Document " +:+ str_of_int (fst entry + 1); doc_content (snd entry)])
              (enumerate_from i docs) ++ parts)
    (pre +:+ str_join (nl +:+ nl) (map document_block (enumerate_from i docs)) +:+ rest).
Proof.
  intros Hrest. revert i pre. induction docs as [|d docs IH]; intros i pre.
  - cbn. apply occur_in_order_prefix. exact Hrest.
  - cbn [enumerate_from map flat_map fst snd].
    assert (str_join (nl +:+ nl) (document_block (i, d) :: map document_block (enumerate_from (S i) docs))
            +:+ rest
            = "Document " +:+ str_of_int (i + 1) +:+ ":" +:+ nl +:+ doc_content d
              +:+ (match docs with [] => EmptyString | _ :: _ => nl +:+ nl end)
              +:+ str_join (nl +:+ nl) (map document_block (enumerate_from (S i) docs)) +:+ rest)
      as ->.
    { unfold document_block at 1. destruct docs as [|d' docs'].
      - cbn [enumerate_from map str_join]. rewrite !string_app_assoc. reflexivity.
      - cbn [enumerate_from map str_join]. rewrite !string_app_assoc. reflexivity. }
    cbn [app].
    apply occur_in_order_at with (before := pre)
      (after := ":" +:+ nl +:+ doc_content d
                +:+ (match docs with [] => EmptyString | _ :: _ => nl +:+ nl end)
                +:+ str_join (nl +:+ nl) (map document_block (enumerate_from (S i) docs)) +:+ rest).
    { rewrite !string_app_assoc. reflexivity. }
    apply occur_in_order_at with (before := ":" +:+ nl)
      (after := (match docs with [] => EmptyString | _ :: _ => nl +:+ nl end)
                +:+ str_join (nl +:+ nl) (map document_block (enumerate_from (S i) docs)) +:+ rest).
    { rewrite !string_app_assoc. reflexivity. }
    apply IH.
Qed.

(** The prompt carries every document's marker and text in retrieval order,
    and the question after them. *)
Lemma occur_in_prompt (docs : list Document) (q : string) :
  occur_in_order (prompt_parts docs q) (enhanced_prompt (build_context docs) q).
Proof.
  unfold prompt_parts, build_context, enumerate.
  change (enhanced_prompt (str_join (nl +:+ nl) (map document_block (enumerate_from 0 docs))) q)
    with (("Based on the following context from the documents, please answer the question."
           +:+ nl +:+ nl +:+ "Context:" +:+ nl)
          +:+ str_join (nl +:+ nl) (map document_block (enumerate_from 0 docs))
          +:+ (nl +:+ nl +:+ "Question: " +:+ q +:+ nl +:+ nl +:+ "Answer:")).
  apply occur_in_context.
  apply occur_in_order_at with (before := nl +:+ nl +:+ "Question: ")
    (after := nl +:+ nl +:+ "Answer:"); [reflexivity|constructor].
Qed.

(** ** The session *)

Section Claims.

Context {W : Type}.
Variable env : Env W.

(** A chat interaction in a session whose knowledge base is loaded is a
    chat turn. *)
Lemma run_ask (k : string) (inp : run_input) (q : string) (s : session_state) (w : W) :
  GROQ_API_KEY env = Some k ->
  knowledge_base_loaded s = true ->
  truthy q = true ->
  exists c reply made shown before rt',
    run_script env (ask_input inp q) s w = (Ok tt, rt')
    /\ (collection_name s = None \/ collection_name s = Some c)
    /\ turn_outcome (named c s) q made reply shown
    /\ session rt' = with_turn (named c s) q reply
    /\ calls rt' = made
    /\ screen rt' = before ++ [UiChat "user" q; shown]
    /\ errors_shown before = [].
Proof.
  intros Hk Hl Hq.
  destruct (run_script_effect env k (ask_input inp q) s w Hk) as (rt' & Heq & Heff).
  destruct Heff as
    [ c Hn Hig _ _ _ _
    | c kb report _ [Hlc|Hlc] _ _ _ _
    | c label e made _ [Hlc|Hlc] _ _ _ _
    | c _ Hf _ _ _
    | c q' reply made shown before Hn Hf Hq' Hl' Hto Hs Hc Hscr Herr ];
    try discriminate.
  - destruct (Hig q eq_refl); congruence.
  - cbn in Hf. injection Hf as <-.
    exists c, reply, made, shown, before, rt'. repeat split; assumption.
Qed.

(** In a turn whose retrieval or LLM call raised, the reply is the error
    text, and it is what [st.error] shows. *)
Lemma turn_outcome_raised (s : session_state) (q reply : string)
  (made : list ext_call) (shown : ui_event) (c : ext_call) (e : exn) :
  turn_outcome s q made reply shown ->
  In c made -> step_raised c = Some e ->
  reply = "Error: " +:+ exn_str e /\ shown = UiError reply.
Proof.
  intros [Ha | a e' Ha | a docs e' Ha | a docs response Ha] Hin Hr; cbn in Hin.
  - destruct Hin.
  - destruct Hin as [<-|[]]. cbn in Hr. injection Hr as <-. split; reflexivity.
  - destruct Hin as [<-|[<-|[]]]; cbn in Hr; [discriminate|].
    injection Hr as <-. split; reflexivity.
  - destruct Hin as [<-|[<-|[]]]; cbn in Hr; discriminate.
Qed.

Lemma transcript_of_length (qs replies : list string) :
  length replies = length qs -> length (transcript_of qs replies) = 2 * length qs.
Proof.
  revert replies. induction qs as [|q qs IH]; intros [|r rs] Hlen; cbn in *; try lia.
  rewrite IH by lia. lia.
Qed.

Lemma transcript_of_alternating (qs replies : list string) :
  alternating true (transcript_of qs replies) = true.
Proof.
  revert replies. induction qs as [|q qs IH]; intros [|r rs]; cbn; try reflexivity.
  apply IH.
Qed.

(** C1: transcript invariant.  In a session whose knowledge base is loaded,
    [n] chat turns in a row append exactly [2n] messages to the transcript:
    for each turn a ["user"] message with the question as typed, then an
    ["assistant"] message; the roles alternate starting with ["user"]; and
    in every turn whose retrieval or LLM call raised, the assistant message
    is the text ["Error: " + str(e)], shown in an [st.error] box. *)
Theorem C1_transcript_two_messages_per_turn
  (k : string) (inp : run_input) (qs : list string) (s : session_state) (w : W) :
  GROQ_API_KEY env = Some k ->
  knowledge_base_loaded s = true ->
  Forall (fun q => truthy q = true) qs ->
  exists replies,
    length replies = length qs
    /\ messages (fst (run_session env (ask_inputs inp qs) s w))
       = messages s ++ transcript_of qs replies
    /\ length (transcript_of qs replies) = 2 * length qs
    /\ alternating true (transcript_of qs replies) = true
    /\ knowledge_base_loaded (fst (run_session env (ask_inputs inp qs) s w)) = true
    /\ Forall2
         (fun (run : session_state * runtime W) (reply : string) =>
            forall c e, In c (calls (snd run)) -> step_raised c = Some e ->
                        reply = "Error: " +:+ exn_str e
                        /\ In (UiError reply) (screen (snd run)))
         (session_trace env (ask_inputs inp qs) s w) replies.
Proof.
  intros Hk Hl Hqs.
  enough (exists replies,
    length replies = length qs
    /\ messages (fst (run_session env (ask_inputs inp qs) s w))
       = messages s ++ transcript_of qs replies
    /\ knowledge_base_loaded (fst (run_session env (ask_inputs inp qs) s w)) = true
    /\ Forall2
         (fun (run : session_state * runtime W) (reply : string) =>
            forall c e, In c (calls (snd run)) -> step_raised c = Some e ->
                        reply = "Error: " +:+ exn_str e
                        /\ In (UiError reply) (screen (snd run)))
         (session_trace env (ask_inputs inp qs) s w) replies)
    as (replies & Hlen & Hms & Hl' & Hf).
  { exists replies. repeat split; try assumption.
    - apply transcript_of_length. exact Hlen.
    - apply transcript_of_alternating. }
  revert s w Hl. induction Hqs as [|q qs Hq Hqs IH]; intros s w Hl.
  - exists []. cbn. rewrite app_nil_r. repeat split; try assumption. constructor.
  - destruct (run_ask k inp q s w Hk Hl Hq)
      as (c & reply & made & shown & before & rt' & Heq & Hn & Hto & Hs & Hc & Hscr & Herr).
    unfold ask_inputs in *. cbn [map run_session session_trace].
    unfold after_run. rewrite Heq. cbn [snd].
    destruct (IH (session rt') (world rt')) as (replies & Hlen & Hms & Hl' & Hf).
    { rewrite Hs. exact Hl. }
    exists (reply :: replies). split; [cbn; lia|]. split; [|split].
    + rewrite Hms, Hs. cbn. rewrite <- app_assoc. reflexivity.
    + exact Hl'.
    + constructor; [|exact Hf]. cbn [snd]. intros call e Hin Hr.
      rewrite Hc in Hin.
      destruct (turn_outcome_raised _ _ _ _ _ _ _ Hto Hin Hr) as [-> ->].
      split; [reflexivity|]. rewrite Hscr. apply in_or_app. right. right. left. reflexivity.
Qed.


(** C8: a retrieval or LLM call that raises inside a chat turn is caught:
    the execution ends normally, the error text is shown and recorded as the
    assistant's message, and the ready flag, the assistant and the
    collection name are what they were. *)
Theorem C8_turn_failure_is_caught
  (k : string) (inp : run_input) (q c : string) (s : session_state) (w : W)
  (call : ext_call) (e : exn) :
  GROQ_API_KEY env = Some k ->
  knowledge_base_loaded s = true ->
  collection_name s = Some c ->
  truthy q = true ->
  In call (calls (after_run env (ask_input inp q) s w)) ->
  step_raised call = Some e ->
  fst (run_script env (ask_input inp q) s w) = Ok tt
  /\ session (after_run env (ask_input inp q) s w) = with_turn s q ("Error: " +:+ exn_str e)
  /\ In (UiError ("Error: " +:+ exn_str e)) (screen (after_run env (ask_input inp q) s w))
  /\ knowledge_base_loaded (session (after_run env (ask_input inp q) s w)) = true
  /\ assistant (session (after_run env (ask_input inp q) s w)) = assistant s
  /\ collection_name (session (after_run env (ask_input inp q) s w)) = Some c.
Proof.
  intros Hk Hl Hc Hq. unfold after_run.
  destruct (run_ask k inp q s w Hk Hl Hq)
    as (c' & reply & made & shown & before & rt' & Heq & Hn & Hto & Hs & Hcalls & Hscr & Herr).
  rewrite Heq. cbn [fst snd]. intros Hin Hr.
  assert (c' = c) as -> by (destruct Hn; congruence).
  rewrite (named_id c s Hc) in *. rewrite Hcalls in Hin.
  destruct (turn_outcome_raised _ _ _ _ _ _ _ Hto Hin Hr) as [-> ->].
  rewrite Hs, Hscr. cbn [with_turn knowledge_base_loaded assistant collection_name].
  repeat split; try assumption.
  apply in_or_app. right. right. left. reflexivity.
Qed.

(** Every recorded call is an answer of the collaborator it names. *)
Lemma genuine_respected : respects env (fun _ cs => Forall (genuine env) cs).
Proof.
  constructor; intros; try assumption;
    (apply Forall_app; split; [assumption|]); constructor; try constructor;
    cbn; eexists; reflexivity.
Qed.

Lemma calls_genuine (inp : run_input) (s : session_state) (w : W) :
  Forall (genuine env) (calls (after_run env inp s w)).
Proof.
  apply (run_script_preserves _ env genuine_respected inp s w). constructor.
Qed.



(** Every interaction either stops at line 18 for want of an API key, with
    nothing changed, or has one of the effects of [run_effect]. *)
Lemma run_cases (inp : run_input) (s : session_state) (w : W) :
  (GROQ_API_KEY env = None /\ after_run env inp s w = start s w)
  \/ (exists k, GROQ_API_KEY env = Some k /\ run_effect env inp s (after_run env inp s w)).
Proof.
  unfold after_run. destruct (GROQ_API_KEY env) as [k|] eqn:Hk.
  - right. exists k. split; [reflexivity|].
    destruct (run_script_effect env k inp s w Hk) as (rt' & Heq & Heff).
    rewrite Heq. exact Heff.
  - left. split; [reflexivity|]. rewrite run_script_without_key by exact Hk. reflexivity.
Qed.

(** A session whose ready flag is set has a collection name and an
    assistant: the states the turn theorems start from are the ones a
    session reaches. *)
Lemma loaded_session_complete (inputs : list run_input) (s : session_state) (w : W) :
  (knowledge_base_loaded s = true -> collection_name s <> None /\ assistant s <> None) ->
  knowledge_base_loaded (fst (run_session env inputs s w)) = true ->
  collection_name (fst (run_session env inputs s w)) <> None
  /\ assistant (fst (run_session env inputs s w)) <> None.
Proof.
  revert s w. induction inputs as [|inp inputs IH]; intros s w Hinv; [exact Hinv|].
  cbn [run_session]. apply IH.
  destruct (run_cases inp s w) as [[_ ->] | (k & _ & Heff)]; [exact Hinv|].
  destruct Heff as
    [ c _ _ Hs _ _ _
    | c kb report _ _ _ Hs _ _
    | c label e made _ _ _ Hs _ _
    | c _ _ Hs _ _
    | c q reply made shown before _ _ _ _ _ Hs _ _ _ ];
    rewrite Hs; cbn; intros Hl; split; try discriminate; apply Hinv; exact Hl.
Qed.

Lemma turn_outcome_no_load (s : session_state) (q reply : string)
  (made : list ext_call) (shown : ui_event) :
  turn_outcome s q made reply shown ->
  existsb load_returned made = false /\ existsb load_raised made = false.
Proof. intros []; split; reflexivity. Qed.

(** What one execution does to the ready flag. *)
Lemma run_flag (inp : run_input) (s : session_state) (w : W) :
  (knowledge_base_loaded (session (after_run env inp s w)) = true ->
   knowledge_base_loaded s = true
   \/ existsb load_returned (calls (after_run env inp s w)) = true)
  /\ (existsb load_raised (calls (after_run env inp s w)) = true ->
      knowledge_base_loaded (session (after_run env inp s w)) = knowledge_base_loaded s).
Proof.
  destruct (run_cases inp s w) as [[_ ->] | (k & _ & Heff)].
  - cbn. split; [auto|discriminate].
  - destruct Heff as
      [ c _ _ Hs Hc _ _
      | c kb report _ _ _ Hs Hc _
      | c label e made _ _ Hmade Hs Hc _
      | c _ _ Hs Hc _
      | c q reply made shown before _ _ _ _ Hto Hs Hc _ _ ];
      rewrite Hs, Hc; cbn; split; auto; try discriminate.
Qed.

(** C2: the ready flag becomes true only in an execution whose
    [knowledge_base.load()] returned; an execution whose load raised leaves
    the flag as it was.  So in every session, a flag that went from false to
    true did so through a load that returned. *)
Theorem C2_ready_only_after_load_returned
  (inputs : list run_input) (s : session_state) (w : W) :
  Forall
    (fun run : session_state * runtime W =>
       (knowledge_base_loaded (session (snd run)) = true ->
        knowledge_base_loaded (fst run) = true
        \/ existsb load_returned (calls (snd run)) = true)
       /\ (existsb load_raised (calls (snd run)) = true ->
           knowledge_base_loaded (session (snd run)) = knowledge_base_loaded (fst run)))
    (session_trace env inputs s w)
  /\ (knowledge_base_loaded s = false ->
      knowledge_base_loaded (fst (run_session env inputs s w)) = true ->
      Exists
        (fun run : session_state * runtime W =>
           existsb load_returned (calls (snd run)) = true)
        (session_trace env inputs s w)).
Proof.
  revert s w. induction inputs as [|inp inputs IH]; intros s w.
  - split; [constructor|]. cbn. congruence.
  - cbn [session_trace run_session].
    destruct (IH (session (after_run env inp s w)) (world (after_run env inp s w)))
      as [Hall Hreach].
    pose proof (run_flag inp s w) as Hflag.
    split; [constructor; [exact Hflag|exact Hall]|].
    intros Hs Hfinal.
    destruct (knowledge_base_loaded (session (after_run env inp s w))) eqn:Hmid.
    + apply Exists_cons_hd. cbn [snd]. destruct Hflag as [[Hold|Hnew] _];
        [reflexivity|congruence|exact Hnew].
    + apply Exists_cons_tl. apply Hreach; [reflexivity|exact Hfinal].
Qed.

(** C9: an execution whose [knowledge_base.load()] returned, from the upload
    form or from the URL form, ends with the ready flag set and the
    transcript empty, whatever the transcript held before. *)
Theorem C9_load_resets_transcript (inp : run_input) (s : session_state) (w : W) :
  existsb load_returned (calls (after_run env inp s w)) = true ->
  knowledge_base_loaded (session (after_run env inp s w)) = true
  /\ messages (session (after_run env inp s w)) = [].
Proof.
  destruct (run_cases inp s w) as [[_ ->] | (k & _ & Heff)]; [discriminate|].
  destruct Heff as
    [ c _ _ Hs Hc _ _
    | c kb report _ _ _ Hs Hc _
    | c label e made _ _ Hmade Hs Hc _
    | c _ _ Hs Hc _
    | c q reply made shown before _ _ _ _ Hto Hs Hc _ _ ];
    rewrite Hs, Hc; cbn; try discriminate.
  - split; reflexivity.
  - destruct Hmade as [->|(kb & _ & ->)]; discriminate.
  - destruct (turn_outcome_no_load _ _ _ _ _ Hto) as [-> _]. discriminate.
Qed.

(** C5 (amended): a load that raises is reported once for the whole load,
    by the two [st.error] boxes of the handler, and leaves the ready flag,
    the transcript and the assistant as they were; the ready flag becomes
    true only in an execution whose load returned, and such an execution
    shows no error. *)
Theorem C5_load_is_all_or_nothing (inp : run_input) (s : session_state) (w : W) :
  (forall kb e,
      In (LoadCall kb (Raise e)) (calls (after_run env inp s w)) ->
      knowledge_base_loaded (session (after_run env inp s w)) = knowledge_base_loaded s
      /\ messages (session (after_run env inp s w)) = messages s
      /\ assistant (session (after_run env inp s w)) = assistant s
      /\ exists label,
           errors_shown (screen (after_run env inp s w))
           = [label +:+ exn_str e; "Details: " +:+ format_exc env e])
  /\ (knowledge_base_loaded s = false ->
      knowledge_base_loaded (session (after_run env inp s w)) = true ->
      errors_shown (screen (after_run env inp s w)) = []
      /\ exists kb report, calls (after_run env inp s w) = [LoadCall kb (Return report)]).
Proof.
  destruct (run_cases inp s w) as [[_ ->] | (k & _ & Heff)].
  - cbn. split; [intros ? ? []|congruence].
  - destruct Heff as
      [ c _ _ Hs Hc Herr _
      | c kb report _ _ _ Hs Hc Herr
      | c label e made _ _ Hmade Hs Hc Herr
      | c _ _ Hs Hc Herr
      | c q reply made shown before _ _ _ Hl Hto Hs Hc _ _ ];
      rewrite Hs, Hc; cbn [named after_load cleared with_turn knowledge_base_loaded
                           messages assistant].
    + split; [intros ? ? []|congruence].
    + split; [intros ? ? [Hin|[]]; discriminate|].
      intros _ _. split; [exact Herr|eauto].
    + split; [|congruence].
      intros kb e' Hin. destruct Hmade as [->|(kb' & _ & ->)]; [destruct Hin|].
      destruct Hin as [Hin|[]]. injection Hin as _ <-.
      repeat split; try reflexivity. exists label. exact Herr.
    + split; [intros ? ? []|congruence].
    + split; [|congruence].
      intros kb e Hin. destruct Hto; cbn in Hin; intuition discriminate.
Qed.


End Claims.

(** ** The extraction and the empty context *)


(** C6 (amended): with no document retrieved the prompt is the usual
    template around an empty context, a non-empty string that says nothing
    about the missing context. *)
Theorem C6_empty_context_prompt (q : string) :
  enhanced_prompt (build_context []) q = empty_context_prompt q
  /\ answers_from_empty_string q (enhanced_prompt (build_context []) q)
  /\ 0 < String.length (enhanced_prompt (build_context []) q).
Proof.
  split; [reflexivity|]. split; [reflexivity|].
  assert (exists c rest, enhanced_prompt (build_context []) q = String c rest)
    as (c & rest & ->) by (do 2 eexists; reflexivity).
  cbn [String.length]. lia.
Qed.

(** ** The index of the specification under the script *)

Lemma entries_of_createCollection (id id' : string) (idx : gmap string (list SpecIndex.Chunk)) :
  SpecIndex.entries_of id' (SpecIndex.createCollection id idx) = SpecIndex.entries_of id' idx.
Proof.
  unfold SpecIndex.createCollection, SpecIndex.entries_of.
  destruct (idx !! id) eqn:E; [reflexivity|].
  destruct (decide (id = id')) as [<-|Hne].
  - rewrite lookup_insert_eq, E. reflexivity.
  - rewrite lookup_insert_ne by exact Hne. reflexivity.
Qed.

Lemma entries_of_upsert (id id' : string) (entries : list SpecIndex.Chunk)
  (idx : gmap string (list SpecIndex.Chunk)) :
  SpecIndex.entries_of id' (SpecIndex.upsert id entries idx)
  = if decide (id = id') then SpecIndex.entries_of id idx ++ entries
    else SpecIndex.entries_of id' idx.
Proof.
  unfold SpecIndex.upsert. unfold SpecIndex.entries_of at 1.
  destruct (decide (id = id')) as [<-|Hne].
  - rewrite lookup_insert_eq. reflexivity.
  - rewrite lookup_insert_ne by exact Hne. reflexivity.
Qed.

(** An ingestion only adds entries. *)
Lemma ingest_keeps_entries (reader : string -> result (list string)) (sources : list string)
  (id : string) (idx : gmap string (list SpecIndex.Chunk)) :
  entries_kept idx (snd (SpecIndex.ingest reader sources id idx)).
Proof.
  unfold SpecIndex.ingest. destruct (SpecIndex.read_sources reader sources) as [errors chunks].
  cbn [snd]. intros id' c Hin. rewrite entries_of_upsert.
  destruct (decide (id = id')) as [<-|Hne].
  - apply in_or_app. left. rewrite entries_of_createCollection. exact Hin.
  - rewrite entries_of_createCollection. exact Hin.
Qed.

Lemma insert_ranked_In (score : SpecIndex.Chunk -> nat) (c x : SpecIndex.Chunk)
  (ranked : list SpecIndex.Chunk) :
  In x (SpecIndex.insert_ranked score c ranked) <-> x = c \/ In x ranked.
Proof.
  induction ranked as [|d ranked IH]; cbn.
  - intuition congruence.
  - destruct (SpecIndex.ranks_before score c d); cbn; [intuition congruence|].
    rewrite IH. intuition congruence.
Qed.

Lemma insert_ranked_length (score : SpecIndex.Chunk -> nat) (c : SpecIndex.Chunk)
  (ranked : list SpecIndex.Chunk) :
  length (SpecIndex.insert_ranked score c ranked) = S (length ranked).
Proof.
  induction ranked as [|d ranked IH]; cbn; [reflexivity|].
  destruct (SpecIndex.ranks_before score c d); cbn; [reflexivity|]. rewrite IH. reflexivity.
Qed.

Lemma rank_In (score : SpecIndex.Chunk -> nat) (x : SpecIndex.Chunk)
  (entries : list SpecIndex.Chunk) :
  In x (SpecIndex.rank score entries) <-> In x entries.
Proof.
  unfold SpecIndex.rank. induction entries as [|c entries IH]; cbn; [tauto|].
  rewrite insert_ranked_In, IH. intuition congruence.
Qed.

Lemma rank_length (score : SpecIndex.Chunk -> nat) (entries : list SpecIndex.Chunk) :
  length (SpecIndex.rank score entries) = length entries.
Proof.
  unfold SpecIndex.rank. induction entries as [|c entries IH]; cbn; [reflexivity|].
  rewrite insert_ranked_length, IH. reflexivity.
Qed.

(** A search that asks for as many results as the collection holds returns
    every entry of the collection. *)
Lemma search_finds (id : string) (score : SpecIndex.Chunk -> nat) (k : nat)
  (idx : gmap string (list SpecIndex.Chunk)) (c : SpecIndex.Chunk) :
  In c (SpecIndex.entries_of id idx) ->
  length (SpecIndex.entries_of id idx) <= k ->
  In c (SpecIndex.search id score k idx).
Proof.
  intros Hin Hk. unfold SpecIndex.search.
  rewrite firstn_all2 by (rewrite rank_length; exact Hk).
  apply rank_In. exact Hin.
Qed.

Lemma search_length (id : string) (score : SpecIndex.Chunk -> nat) (k : nat)
  (idx : gmap string (list SpecIndex.Chunk)) :
  length (SpecIndex.search id score k idx) <= k.
Proof. unfold SpecIndex.search. rewrite length_firstn. lia. Qed.

Section SpecEnvFacts.

Variable strict : bool.
Variable parse_pdf : string -> result (list string).
Variable download : string -> result string.
Variable similarity : string -> SpecIndex.Chunk -> nat.
Variable language_model : string -> result Response.
Variable construct : KnowledgeBase -> result unit.
Variable groq_key : option string.

Local Abbreviation env :=
  (spec_env strict parse_pdf download similarity language_model construct groq_key).

Lemma spec_search_honours_k : search_honours_k env.
Proof.
  intros kb query k w docs w' Heq. cbn in Heq. unfold spec_kb_search in Heq.
  injection Heq as <- _. rewrite length_map. apply search_length.
Qed.

(** No collaborator of the specification removes an entry of the index. *)
Lemma spec_env_keeps_entries (w0 : rag_world) :
  respects env (fun w _ => entries_kept (vector_index w0) (vector_index w)).
Proof.
  constructor; cbn.
  - intros w cs H. exact H.
  - intros bytes w cs H. exact H.
  - intros p w cs H. unfold spec_os_unlink. destruct (tmp_files w !! p); exact H.
  - intros kb w cs H. exact H.
  - intros kb w cs H. unfold spec_kb_load.
    pose proof (ingest_keeps_entries (reader_of parse_pdf download kb w) (sources_of kb)
                  (collection (vector_db_of kb)) (vector_index w)) as Hk.
    destruct (SpecIndex.ingest _ _ _ _) as [errors idx]. cbn [snd] in Hk.
    assert (entries_kept (vector_index w0) idx) as Hall
      by (intros id c Hin; apply Hk, H, Hin).
    destruct errors as [|first rest]; [exact Hall|]. destruct strict; exact Hall.
  - intros kb q k w cs H. exact H.
  - intros a p w cs H. exact H.
Qed.


End SpecEnvFacts.

(** ** The claims on sample sessions *)

(** Two questions after a load: four messages, as C1 says. *)
Lemma C1_witness :
  GROQ_API_KEY (sample_env true echo_model) = Some "gsk-key"
  /\ knowledge_base_loaded (session first_load) = true
  /\ Forall (fun q => truthy q = true) ["What is X?"; "And Y?"]
  /\ exists replies,
       length replies = 2
       /\ messages (fst (run_session (sample_env true echo_model)
                           (ask_inputs idle ["What is X?"; "And Y?"])
                           (session first_load) (world first_load)))
          = messages (session first_load)
            ++ transcript_of ["What is X?"; "And Y?"] replies
       /\ length (transcript_of ["What is X?"; "And Y?"] replies) = 4.
Proof.
  assert (knowledge_base_loaded (session first_load) = true) as Hl
    by (vm_compute; reflexivity).
  assert (Forall (fun q => truthy q = true) ["What is X?"; "And Y?"]) as Hq
    by (repeat constructor).
  split; [reflexivity|]. split; [exact Hl|]. split; [exact Hq|].
  destruct (C1_transcript_two_messages_per_turn (sample_env true echo_model)
              "gsk-key" idle ["What is X?"; "And Y?"]
              (session first_load) (world first_load) eq_refl Hl Hq)
    as (replies & Hlen & Hms & Hlen2 & _).
  exists replies. split; [exact Hlen|]. split; [exact Hms|exact Hlen2].
Defined.

(** Three interactions from a fresh session, the second one a load. *)
Lemma C2_witness :
  knowledge_base_loaded fresh_session = false
  /\ knowledge_base_loaded
       (fst (run_session (sample_env true echo_model)
               [ask_click "What is X?"; url_click good_url; ask_click "What is X?"]
               fresh_session empty_world)) = true
  /\ Exists
       (fun run : session_state * runtime rag_world =>
          existsb load_returned (calls (snd run)) = true)
       (session_trace (sample_env true echo_model)
          [ask_click "What is X?"; url_click good_url; ask_click "What is X?"]
          fresh_session empty_world).
Proof.
  assert (knowledge_base_loaded
            (fst (run_session (sample_env true echo_model)
                    [ask_click "What is X?"; url_click good_url; ask_click "What is X?"]
                    fresh_session empty_world)) = true) as Hfinal
    by (vm_compute; reflexivity).
  split; [reflexivity|]. split; [exact Hfinal|].
  exact (proj2 (C2_ready_only_after_load_returned (sample_env true echo_model)
                  [ask_click "What is X?"; url_click good_url; ask_click "What is X?"]
                  fresh_session empty_world) eq_refl Hfinal).
Defined.




(** A load whose second source is corrupt, with a pipeline that raises. *)
Lemma C5_witness :
  In (LoadCall
        (PDFUrlKnowledgeBase [good_url; corrupt_url]
           (new_vector_db (sample_env true echo_model) "docs_3f2b8c1e"))
        (Raise {| exn_type := "IngestionError"; exn_str := corrupt_url |}))
     (calls (mixed_load true))
  /\ knowledge_base_loaded (session (mixed_load true)) = knowledge_base_loaded fresh_session
  /\ exists label,
       errors_shown (screen (mixed_load true))
       = [label +:+ corrupt_url;
          "Details: " +:+ format_exc (sample_env true echo_model)
                            {| exn_type := "IngestionError"; exn_str := corrupt_url |}].
Proof.
  assert (In (LoadCall
                (PDFUrlKnowledgeBase [good_url; corrupt_url]
                   (new_vector_db (sample_env true echo_model) "docs_3f2b8c1e"))
                (Raise {| exn_type := "IngestionError"; exn_str := corrupt_url |}))
             (calls (mixed_load true))) as Hin
    by (vm_compute; left; reflexivity).
  split; [exact Hin|].
  destruct (proj1 (C5_load_is_all_or_nothing (sample_env true echo_model)
                     (url_click (good_url +:+ nl +:+ corrupt_url)) fresh_session empty_world)
              _ _ Hin)
    as (Hflag & _ & _ & Herr).
  split; [exact Hflag|exact Herr].
Defined.

(** C5, as stated, fails for either kind of pipeline.  When the pipeline
    raises on the corrupt source, the ready flag stays false and one error
    is shown for the whole load.  When the pipeline returns a report that
    names the corrupt source, the flag becomes true and the script shows no
    error at all: the report is not read. *)
Lemma C5_counterexample :
  (knowledge_base_loaded (session (mixed_load true)) = false
   /\ errors_shown (screen (mixed_load true))
      = ["❌ Error loading URLs: https://example.org/corrupt.pdf";
         "Details: Traceback (most recent call last): IngestionError"])
  /\ (knowledge_base_loaded (session (mixed_load false)) = true
      /\ errors_shown (screen (mixed_load false)) = []
      /\ exists kb,
           calls (mixed_load false)
           = [LoadCall kb (Return [ {| failed_source := corrupt_url;
                                       cause := "invalid pdf header" |} ])]).
Proof.
  split; [split; vm_compute; reflexivity|].
  split; [vm_compute; reflexivity|]. split; [vm_compute; reflexivity|].
  eexists. vm_compute. reflexivity.
Qed.

(** C6, as stated, fails: with no document the prompt is the template
    around the empty string, word for word. *)
Lemma C6_counterexample :
  answers_from_empty_string "What is X?" (enhanced_prompt (build_context []) "What is X?")
  /\ enhanced_prompt (build_context []) "What is X?"
     = "Based on the following context from the documents, please answer the question.

Context:


Question: What is X?

Answer:".
Proof. split; vm_compute; reflexivity. Qed.



(** A question while the model is unreachable. *)
Lemma C8_witness :
  GROQ_API_KEY (sample_env true broken_model) = Some "gsk-key"
  /\ knowledge_base_loaded (session first_load) = true
  /\ collection_name (session first_load) = Some "docs_3f2b8c1e"
  /\ truthy "What is X?" = true
  /\ In failed_model_call (calls question_to_broken_model)
  /\ step_raised failed_model_call
     = Some {| exn_type := "APIConnectionError"; exn_str := "Connection error." |}
  /\ session question_to_broken_model
     = with_turn (session first_load) "What is X?" "Error: Connection error."
  /\ knowledge_base_loaded (session question_to_broken_model) = true.
Proof.
  assert (knowledge_base_loaded (session first_load) = true) as Hl
    by (vm_compute; reflexivity).
  assert (collection_name (session first_load) = Some "docs_3f2b8c1e") as Hc
    by (vm_compute; reflexivity).
  assert (In failed_model_call (calls question_to_broken_model)) as Hin
    by (vm_compute; right; left; reflexivity).
  assert (step_raised failed_model_call
          = Some {| exn_type := "APIConnectionError"; exn_str := "Connection error." |}) as Hr
    by (vm_compute; reflexivity).
  split; [reflexivity|]. split; [exact Hl|]. split; [exact Hc|]. split; [reflexivity|].
  split; [exact Hin|]. split; [exact Hr|].
  destruct (C8_turn_failure_is_caught (sample_env true broken_model) "gsk-key" idle
              "What is X?" "docs_3f2b8c1e" (session first_load) (world first_load)
              failed_model_call _ eq_refl Hl Hc eq_refl Hin Hr)
    as (_ & Hs & _ & Hflag & _).
  split; [exact Hs|exact Hflag].
Defined.

(** A reload after a conversation: the transcript is emptied. *)
Lemma C9_witness :
  existsb load_returned
    (calls (after_run (sample_env true echo_model) (url_click other_url)
              (session one_turn) (world one_turn))) = true
  /\ messages (session one_turn) <> []
  /\ messages (session (after_run (sample_env true echo_model) (url_click other_url)
                          (session one_turn) (world one_turn))) = [].
Proof.
  assert (existsb load_returned
            (calls (after_run (sample_env true echo_model) (url_click other_url)
                      (session one_turn) (world one_turn))) = true) as Hload
    by (vm_compute; reflexivity).
  split; [exact Hload|]. split; [vm_compute; discriminate|].
  exact (proj2 (C9_load_resets_transcript (sample_env true echo_model)
                  (url_click other_url) (session one_turn) (world one_turn) Hload)).
Defined.

(** * Further properties of the script *)

(** ** Python strings *)

Lemma str_app_cons (c : ascii) (a b : string) : String c a +:+ b = String c (a +:+ b).
Proof. reflexivity. Qed.

Lemma str_app_nil_l (b : string) : EmptyString +:+ b = b.
Proof. reflexivity. Qed.

Lemma str_app_nil_r (s : string) : s +:+ EmptyString = s.
Proof.
  induction s as [|c s IH]; [reflexivity|]. rewrite str_app_cons, IH. reflexivity.
Qed.

Lemma str_app_assoc (a b c : string) : (a +:+ b) +:+ c = a +:+ (b +:+ c).
Proof.
  induction a as [|x a IH]; [reflexivity|]. rewrite !str_app_cons, IH. reflexivity.
Qed.

Lemma str_length_app (a b : string) :
  String.length (a +:+ b) = String.length a + String.length b.
Proof.
  induction a as [|x a IH]; [reflexivity|]. rewrite str_app_cons. cbn. rewrite IH. reflexivity.
Qed.

Lemma str_app_inv_head (a b c : string) : a +:+ b = a +:+ c -> b = c.
Proof.
  induction a as [|x a IH]; [rewrite !str_app_nil_l; tauto|].
  rewrite !str_app_cons. intros [= H]. exact (IH H).
Qed.

Lemma reversed_app (a b : string) : reversed (a +:+ b) = reversed b +:+ reversed a.
Proof.
  induction a as [|x a IH].
  - rewrite str_app_nil_l. cbn. rewrite str_app_nil_r. reflexivity.
  - rewrite str_app_cons. cbn. rewrite IH, str_app_assoc. reflexivity.
Qed.

Lemma reversed_involutive (s : string) : reversed (reversed s) = s.
Proof.
  induction s as [|x s IH]; [reflexivity|]. cbn. rewrite reversed_app, IH. reflexivity.
Qed.

Lemma reversed_length (s : string) : String.length (reversed s) = String.length s.
Proof.
  induction s as [|x s IH]; [reflexivity|]. cbn. rewrite str_length_app, IH. cbn. lia.
Qed.

Lemma without_prefix_app (p s r : string) :
  without_prefix p s = Some r <-> s = p +:+ r.
Proof.
  revert s. induction p as [|a p IH]; intros s; cbn [without_prefix].
  - rewrite str_app_nil_l. split; [intros [= ->]; reflexivity|intros ->; reflexivity].
  - rewrite str_app_cons. destruct s as [|b s]; [split; discriminate|].
    destruct (Ascii.eqb a b) eqn:Hab.
    + apply Ascii.eqb_eq in Hab. subst b. rewrite IH. split; [intros ->; reflexivity|].
      intros [= H]. exact H.
    + split; [discriminate|]. intros [= H _]. subst b. rewrite Ascii.eqb_refl in Hab.
      discriminate.
Qed.

Lemma skip_one_some (chars : list string) (s r : string) :
  skip_one chars s = Some r -> exists ch, In ch chars /\ s = ch +:+ r.
Proof.
  induction chars as [|ch chars IH]; cbn; [discriminate|].
  destruct (without_prefix ch s) as [s'|] eqn:Hp.
  - intros [= <-]. exists ch. split; [left; reflexivity|]. apply without_prefix_app, Hp.
  - intros H. destruct (IH H) as (ch' & Hin & Heq). exists ch'. split; [right|]; assumption.
Qed.

Lemma skip_one_none (chars : list string) (s : string) :
  skip_one chars s = None <-> forall ch r, In ch chars -> s <> ch +:+ r.
Proof.
  induction chars as [|ch chars IH]; cbn.
  - split; [intros _ ? ? []|reflexivity].
  - destruct (without_prefix ch s) as [s'|] eqn:Hp.
    + split; [discriminate|]. intros H. exfalso.
      apply (H ch s'); [left; reflexivity|]. apply without_prefix_app, Hp.
    + rewrite IH. split.
      * intros H ch' r [<-|Hin]; [|apply H, Hin].
        intros Heq. apply without_prefix_app in Heq. congruence.
      * intros H ch' r Hin. apply H. right. exact Hin.
Qed.

Lemma skip_one_empty (chars : list string) :
  Forall (fun ch => ch <> EmptyString) chars -> skip_one chars EmptyString = None.
Proof.
  intros Hne. apply skip_one_none. intros ch r Hin Heq.
  rewrite List.Forall_forall in Hne. apply (Hne ch Hin).
  destruct ch; [reflexivity|discriminate].
Qed.

(** Skipping is idle on a string that starts with no character of the
    list. *)
Lemma skip_all_idle (chars : list string) (fuel : nat) (s : string) :
  skip_one chars s = None -> skip_all chars fuel s = s.
Proof. intros H. destruct fuel; cbn; [reflexivity|]. rewrite H. reflexivity. Qed.

Lemma made_of_app (chars : list string) (a b : string) :
  made_of chars a -> made_of chars b -> made_of chars (a +:+ b).
Proof.
  intros Ha Hb. induction Ha as [|ch s Hin _ IH]; [exact Hb|].
  rewrite str_app_assoc. apply made_of_cons; assumption.
Qed.

Lemma made_of_one (chars : list string) (ch : string) :
  In ch chars -> made_of chars ch.
Proof.
  intros Hin. rewrite <- (str_app_nil_r ch). apply made_of_cons; [exact Hin|constructor].
Qed.

Lemma made_of_reversed (chars : list string) (s : string) :
  made_of (map reversed chars) s -> made_of chars (reversed s).
Proof.
  intros H. induction H as [|ch s Hin _ IH]; [constructor|].
  rewrite reversed_app. apply made_of_app; [exact IH|].
  apply List.in_map_iff in Hin. destruct Hin as (ch' & <- & Hin).
  rewrite reversed_involutive. apply made_of_one, Hin.
Qed.

(** What skipping gives: the string without a beginning made of characters
    of the list, and starting with none of them. *)
Lemma skip_all_spec (chars : list string) (fuel : nat) (s : string) :
  Forall (fun ch => ch <> EmptyString) chars ->
  String.length s <= fuel ->
  exists skipped,
    made_of chars skipped
    /\ s = skipped +:+ skip_all chars fuel s
    /\ skip_one chars (skip_all chars fuel s) = None.
Proof.
  intros Hne. revert s. induction fuel as [|fuel IH]; intros s Hlen.
  - destruct s; [|cbn in Hlen; lia]. exists EmptyString.
    split; [constructor|]. split; [reflexivity|].
    cbn. apply skip_one_empty, Hne.
  - cbn [skip_all]. destruct (skip_one chars s) as [s'|] eqn:Hs.
    + destruct (skip_one_some _ _ _ Hs) as (ch & Hin & ->).
      destruct (IH s') as (skipped & Hmade & Heq & Hnone).
      { rewrite List.Forall_forall in Hne. specialize (Hne ch Hin).
        rewrite str_length_app in Hlen. destruct ch; [contradiction|]. cbn in Hlen. lia. }
      exists (ch +:+ skipped). split; [apply made_of_cons; assumption|].
      split; [|exact Hnone]. rewrite str_app_assoc, <- Heq. reflexivity.
    + exists EmptyString. split; [constructor|]. split; [reflexivity|exact Hs].
Qed.

(** A string made of characters of a prefix-free list is skipped
    entirely. *)
Lemma prefix_free_spec (chars : list string) (a b r r' : string) :
  prefix_free chars = true -> In a chars -> In b chars ->
  a +:+ r = b +:+ r' -> a = b.
Proof.
  unfold prefix_free. intros Hfree Ha Hb Heq.
  rewrite forallb_forall in Hfree.
  pose proof (Hfree a Ha) as Hab. rewrite forallb_forall in Hab. specialize (Hab b Hb).
  pose proof (Hfree b Hb) as Hba. rewrite forallb_forall in Hba. specialize (Hba a Ha).
  apply orb_prop in Hab. apply orb_prop in Hba.
  destruct Hab as [Hab|Hab]; [apply String.eqb_eq, Hab|].
  destruct Hba as [Hba|Hba]; [symmetry; apply String.eqb_eq, Hba|].
  exfalso. clear Hfree Ha Hb.
  revert b r r' Heq Hab Hba. induction a as [|x a IH]; intros b r r' Heq Hab Hba.
  - cbn in Hab. discriminate.
  - destruct b as [|y b]; [cbn in Hba; discriminate|].
    rewrite !str_app_cons in Heq. cbn in Hab, Hba. injection Heq as -> Heq.
    rewrite Ascii.eqb_refl in *. exact (IH b r r' Heq Hab Hba).
Qed.

Lemma skip_all_made_of (chars : list string) (fuel : nat) (s : string) :
  prefix_free chars = true ->
  Forall (fun ch => ch <> EmptyString) chars ->
  made_of chars s -> String.length s <= fuel ->
  skip_all chars fuel s = EmptyString.
Proof.
  intros Hfree Hne Hmade. revert fuel.
  induction Hmade as [|ch s Hin Hmade IH]; intros fuel Hlen.
  - apply skip_all_idle, skip_one_empty, Hne.
  - rewrite List.Forall_forall in Hne. pose proof (Hne ch Hin) as Hch.
    rewrite str_length_app in Hlen.
    destruct fuel as [|fuel]; [destruct ch; [contradiction|cbn in Hlen; lia]|].
    cbn [skip_all]. destruct (skip_one chars (ch +:+ s)) as [s'|] eqn:Hs.
    + destruct (skip_one_some _ _ _ Hs) as (ch' & Hin' & Heq).
      pose proof (prefix_free_spec chars ch ch' s s' Hfree Hin Hin' Heq) as <-.
      apply str_app_inv_head in Heq. subst s'. apply IH.
      destruct ch; [contradiction|cbn in Hlen; lia].
    + exfalso. rewrite skip_one_none in Hs. exact (Hs ch s Hin eq_refl).
Qed.

Lemma whitespace_not_empty : Forall (fun ch => ch <> EmptyString) whitespace.
Proof. repeat (constructor; [discriminate|]). constructor. Qed.

Lemma whitespace_reversed_not_empty :
  Forall (fun ch => ch <> EmptyString) (map reversed whitespace).
Proof. repeat (constructor; [discriminate|]). constructor. Qed.

Lemma whitespace_prefix_free : prefix_free whitespace = true.
Proof. vm_compute. reflexivity. Qed.

(** [lstrip] takes white space off the beginning until none is left. *)
Lemma lstrip_spec (s : string) :
  exists skipped,
    made_of whitespace skipped
    /\ s = skipped +:+ lstrip s
    /\ skip_one whitespace (lstrip s) = None.
Proof. apply skip_all_spec; [apply whitespace_not_empty|lia]. Qed.

(** [rstrip] takes white space off the end until none is left. *)
Lemma rstrip_spec (s : string) :
  exists skipped,
    made_of whitespace skipped
    /\ s = rstrip s +:+ skipped
    /\ skip_one (map reversed whitespace) (reversed (rstrip s)) = None.
Proof.
  unfold rstrip.
  destruct (skip_all_spec (map reversed whitespace) (String.length s) (reversed s))
    as (skipped & Hmade & Heq & Hnone);
    [apply whitespace_reversed_not_empty|rewrite reversed_length; lia|].
  exists (reversed skipped). split; [apply made_of_reversed, Hmade|].
  split; [|rewrite reversed_involutive; exact Hnone].
  rewrite <- reversed_app, <- Heq, reversed_involutive. reflexivity.
Qed.

Lemma rstrip_idempotent (s : string) : rstrip (rstrip s) = rstrip s.
Proof.
  destruct (rstrip_spec s) as (_ & _ & _ & Hnone).
  unfold rstrip at 1. rewrite skip_all_idle by exact Hnone. apply reversed_involutive.
Qed.

(** Taking white space off the end uncovers none at the beginning. *)
Lemma lstrip_rstrip (s : string) :
  skip_one whitespace s = None -> lstrip (rstrip s) = rstrip s.
Proof.
  intros Hnone. apply skip_all_idle. apply skip_one_none. intros ch r Hin Heq.
  destruct (rstrip_spec s) as (skipped & _ & Hs & _).
  rewrite skip_one_none in Hnone. apply (Hnone ch (r +:+ skipped) Hin).
  rewrite Hs at 1. rewrite Heq, str_app_assoc. reflexivity.
Qed.

Lemma strip_idempotent (s : string) : strip (strip s) = strip s.
Proof.
  unfold strip. destruct (lstrip_spec s) as (_ & _ & _ & Hnone).
  rewrite lstrip_rstrip by exact Hnone. apply rstrip_idempotent.
Qed.

(** A stripped string neither starts nor ends with white space. *)
Lemma strip_ends (s ch rest : string) :
  In ch whitespace -> strip s <> ch +:+ rest /\ strip s <> rest +:+ ch.
Proof.
  intros Hin. unfold strip. destruct (lstrip_spec s) as (_ & _ & _ & Hnone).
  split.
  - rewrite <- (lstrip_rstrip _ Hnone).
    destruct (lstrip_spec (rstrip (lstrip s))) as (_ & _ & _ & Hnone').
    rewrite skip_one_none in Hnone'. apply Hnone', Hin.
  - destruct (rstrip_spec (lstrip s)) as (_ & _ & _ & Hnone').
    rewrite skip_one_none in Hnone'. intros Heq.
    apply (Hnone' (reversed ch) (reversed rest)); [apply List.in_map, Hin|].
    rewrite Heq, reversed_app. reflexivity.
Qed.

Lemma made_of_starts (chars : list string) (s : string) :
  Forall (fun ch => ch <> EmptyString) chars ->
  made_of chars s -> skip_one chars s = None -> s = EmptyString.
Proof.
  intros Hne [|ch s' Hin _] Hnone; [reflexivity|].
  rewrite skip_one_none in Hnone. destruct (Hnone ch s' Hin eq_refl).
Qed.

(** The stripped string is empty exactly when the string is white space
    throughout. *)
Lemma strip_empty (s : string) : strip s = EmptyString <-> made_of whitespace s.
Proof.
  unfold strip. split.
  - intros Hs. destruct (lstrip_spec s) as (skipped & Hmade & Heq & Hnone).
    destruct (rstrip_spec (lstrip s)) as (skipped' & Hmade' & Heq' & _).
    rewrite Hs, str_app_nil_l in Heq'.
    rewrite Heq. apply made_of_app; [exact Hmade|]. rewrite Heq'. exact Hmade'.
  - intros Hmade.
    assert (lstrip s = EmptyString) as ->; [|reflexivity].
    apply skip_all_made_of;
      [apply whitespace_prefix_free|apply whitespace_not_empty|exact Hmade|lia].
Qed.

Lemma truthy_false (s : string) : truthy s = false <-> s = EmptyString.
Proof. destruct s; cbn; split; congruence. Qed.

Lemma no_newline_app (a b : string) :
  no_newline (a +:+ b) = no_newline a && no_newline b.
Proof.
  induction a as [|c a IH]; [reflexivity|].
  rewrite str_app_cons. cbn. rewrite IH, andb_assoc. reflexivity.
Qed.

Lemma no_newline_strip (s : string) : no_newline s = true -> no_newline (strip s) = true.
Proof.
  unfold strip. intros Hs.
  destruct (lstrip_spec s) as (skipped & _ & Heq & _).
  destruct (rstrip_spec (lstrip s)) as (skipped' & _ & Heq' & _).
  rewrite Heq, no_newline_app in Hs. apply andb_prop in Hs as [_ Hs].
  rewrite Heq', no_newline_app in Hs. apply andb_prop in Hs as [Hs _]. exact Hs.
Qed.

Lemma split_nl_nonempty (s : string) : split_nl s <> [].
Proof.
  induction s as [|c s IH]; cbn; [discriminate|].
  destruct (Ascii.eqb c (ascii_of_nat 10)); [discriminate|].
  destruct (split_nl s); discriminate.
Qed.

Lemma no_newline_split_nl (s : string) :
  Forall (fun line => no_newline line = true) (split_nl s).
Proof.
  induction s as [|c s IH]; cbn [split_nl]; [repeat constructor|].
  destruct (Ascii.eqb c (ascii_of_nat 10)) eqn:Hc; [constructor; [reflexivity|exact IH]|].
  destruct (split_nl s) as [|line lines]; [repeat constructor; cbn; rewrite Hc; reflexivity|].
  inversion IH as [|? ? Hline Hlines]; subst.
  constructor; [cbn; rewrite Hc, Hline; reflexivity|exact Hlines].
Qed.

(** The lines joined again give the text back. *)
Lemma split_nl_join (text : string) : str_join nl (split_nl text) = text.
Proof.
  induction text as [|c s IH]; [reflexivity|].
  cbn [split_nl]. destruct (Ascii.eqb c (ascii_of_nat 10)) eqn:Hc.
  - apply Ascii.eqb_eq in Hc. subst c.
    destruct (split_nl s) as [|line lines] eqn:Hs; [destruct (split_nl_nonempty s Hs)|].
    cbn [str_join] in *. rewrite IH. reflexivity.
  - destruct (split_nl s) as [|line lines] eqn:Hs; [destruct (split_nl_nonempty s Hs)|].
    destruct lines as [|line' lines']; cbn [str_join] in *; rewrite <- IH; reflexivity.
Qed.

Lemma split_nl_app (a s : string) :
  no_newline a = true ->
  split_nl (a +:+ s)
  = match split_nl s with
    | [] => [a]
    | line :: lines => (a +:+ line) :: lines
    end.
Proof.
  induction a as [|c a IH]; cbn [no_newline].
  - intros _. rewrite str_app_nil_l.
    destruct (split_nl s) eqn:Hs; [destruct (split_nl_nonempty s Hs)|reflexivity].
  - intros H. apply andb_prop in H as [Hc Ha]. apply negb_true_iff in Hc.
    rewrite str_app_cons. cbn [split_nl]. rewrite Hc, (IH Ha).
    destruct (split_nl s) as [|line lines]; reflexivity.
Qed.

(** White space throughout, line by line. *)
Lemma made_of_whitespace_lines (text : string) :
  made_of whitespace text <-> Forall (made_of whitespace) (split_nl text).
Proof.
  split.
  - intros Hmade. induction Hmade as [|ch s Hin Hmade IH]; [repeat constructor|].
    assert (ch = nl \/ no_newline ch = true) as [->|Hch].
    { revert Hin. clear. intros Hin.
      repeat (destruct Hin as [<-|Hin]; [first [left; reflexivity|right; reflexivity]|]).
      destruct Hin. }
    + cbn. constructor; [constructor|exact IH].
    + rewrite (split_nl_app _ _ Hch).
      destruct (split_nl s) as [|line lines] eqn:Hs; [destruct (split_nl_nonempty s Hs)|].
      inversion IH as [|? ? Hline Hlines]; subst.
      constructor; [apply made_of_cons; assumption|exact Hlines].
  - intros Hall. rewrite <- (split_nl_join text).
    induction Hall as [|line lines Hline Hlines IH]; [constructor|].
    destruct lines as [|line' lines']; [exact Hline|].
    change (made_of whitespace (line +:+ nl +:+ str_join nl (line' :: lines'))).
    apply made_of_app; [exact Hline|]. apply made_of_app; [|exact IH].
    apply made_of_one. right. left. reflexivity.
Qed.

(** ** The URLs of the text area *)

Lemma parse_urls_nil (text : string) :
  parse_urls text = [] <-> made_of whitespace text.
Proof.
  rewrite made_of_whitespace_lines. unfold parse_urls.
  induction (split_nl text) as [|line lines IH]; cbn [List.filter map].
  - split; [constructor|reflexivity].
  - destruct (truthy (strip line)) eqn:Hline; cbn [map].
    + split; [discriminate|]. intros Hall. inversion Hall as [|? ? Hmade _]; subst.
      apply strip_empty in Hmade. rewrite Hmade in Hline. discriminate.
    + rewrite IH. apply truthy_false, strip_empty in Hline.
      split; [intros Hall; constructor; assumption|].
      intros Hall. inversion Hall; assumption.
Qed.

(** A text that passes the test of line 130 holds a URL. *)
Lemma parse_urls_some (text : string) :
  truthy (strip text) = true -> parse_urls text <> [].
Proof.
  intros Htext Hnil. apply parse_urls_nil, strip_empty in Hnil.
  rewrite Hnil in Htext. discriminate.
Qed.

(** X1: Line 134: every URL handed to the knowledge base comes from a line of
    the text area and is that line stripped; it is not empty, neither starts
    nor ends with a white-space character (of any script: the no-break and
    the ideographic space among them), is left alone by another [strip], and
    has no line break inside. *)
Theorem parse_urls_clean (text url : string) :
  In url (parse_urls text) ->
  (exists line, In line (split_nl text) /\ url = strip line)
  /\ url <> EmptyString
  /\ (forall ch rest, In ch whitespace -> url <> ch +:+ rest /\ url <> rest +:+ ch)
  /\ strip url = url
  /\ no_newline url = true.
Proof.
  unfold parse_urls. intros Hin. apply List.in_map_iff in Hin.
  destruct Hin as (line & <- & Hline). apply List.filter_In in Hline.
  destruct Hline as [Hline Htruthy].
  split; [exists line; split; [exact Hline|reflexivity]|].
  split; [intros Heq; rewrite Heq in Htruthy; discriminate|].
  split; [intros ch rest Hch; apply strip_ends, Hch|].
  split; [apply strip_idempotent|].
  apply no_newline_strip.
  pose proof (no_newline_split_nl text) as Hall.
  rewrite List.Forall_forall in Hall. apply Hall, Hline.
Qed.

(** X2: Lines 130 and 134: the test [url_input.strip()] that opens the load
    succeeds exactly when the text holds at least one URL, so the knowledge
    base of a URL load never has an empty list of URLs; it fails exactly on
    a text of white-space characters only. *)
Theorem url_guard_iff_some_url (text : string) :
  (truthy (strip text) = true <-> parse_urls text <> [])
  /\ (truthy (strip text) = false <-> made_of whitespace text).
Proof.
  assert (truthy (strip text) = false <-> made_of whitespace text) as Hblank
    by (rewrite truthy_false; apply strip_empty).
  split; [|exact Hblank].
  split; [apply parse_urls_some|].
  intros Hsome. destruct (truthy (strip text)) eqn:Htext; [reflexivity|].
  exfalso. apply Hsome, parse_urls_nil, Hblank. reflexivity.
Qed.

Example strip_unicode :
  strip (utf8 [194; 160] +:+ " x " +:+ utf8 [227; 128; 128] +:+ utf8 [194; 133]) = "x"
  /\ parse_urls (" a " +:+ nl +:+ utf8 [194; 160] +:+ nl +:+ utf8 [226; 128; 131] +:+ "b")
     = ["a"; "b"].
Proof. split; vm_compute; reflexivity. Qed.

(** ** What a piece of the script leaves alone *)

Section Unchanged.

Context {W X : Type}.
Variable obs : runtime W -> X.

Lemma unchanged_bind {A B : Type} (m : M W A) (k : A -> M W B) :
  unchanged obs m -> (forall a, unchanged obs (k a)) -> unchanged obs (bind m k).
Proof.
  intros Hm Hk rt. unfold bind. specialize (Hm rt).
  destruct (m rt) as [[a|e|] rt1]; cbn [snd] in *; try exact Hm.
  rewrite Hk. exact Hm.
Qed.

Lemma unchanged_try_except {A : Type} (body : M W A) (handler : exn -> M W A) :
  unchanged obs body -> (forall e, unchanged obs (handler e)) ->
  unchanged obs (try_except body handler).
Proof.
  intros Hb Hh rt. unfold try_except. specialize (Hb rt).
  destruct (body rt) as [[a|e|] rt1]; cbn [snd] in *; try exact Hb.
  rewrite Hh. exact Hb.
Qed.

Lemma unchanged_try_pass (body : M W unit) :
  unchanged obs body -> unchanged obs (try_pass body).
Proof. intros Hb rt. unfold try_pass. cbn [snd]. apply Hb. Qed.

Lemma unchanged_for_each {A : Type} (f : A -> M W unit) (l : list A) :
  (forall x, unchanged obs (f x)) -> unchanged obs (for_each f l).
Proof.
  intros Hf. induction l as [|x l IH]; cbn [for_each].
  - intros rt. reflexivity.
  - apply unchanged_bind; [apply Hf|intros _; exact IH].
Qed.

Lemma unchanged_ret {A : Type} (a : A) : unchanged obs (ret a).
Proof. intros rt. reflexivity. Qed.

Lemma unchanged_raise {A : Type} (e : exn) : unchanged obs (@raise W A e).
Proof. intros rt. reflexivity. Qed.

Lemma unchanged_st_rerun {A : Type} : unchanged obs (@st_rerun W A).
Proof. intros rt. reflexivity. Qed.

Lemma unchanged_read {A : Type} (f : session_state -> A) : unchanged obs (read f).
Proof. intros rt. reflexivity. Qed.

Lemma unchanged_get_collection_name : unchanged obs (@get_collection_name W).
Proof.
  intros rt. unfold get_collection_name.
  destruct (collection_name (session rt)); reflexivity.
Qed.

End Unchanged.

(** The steps that can change an observation, for an observation that does
    not look at what they change. *)
Ltac unchanged_step :=
  lazymatch goal with
  | |- unchanged _ (ret _) => apply unchanged_ret
  | |- unchanged _ (raise _) => apply unchanged_raise
  | |- unchanged _ st_rerun => apply unchanged_st_rerun
  | |- unchanged _ (read _) => apply unchanged_read
  | |- unchanged _ get_collection_name => apply unchanged_get_collection_name
  | |- unchanged _ (bind _ _) => apply unchanged_bind; [|intros ?]
  | |- unchanged _ (try_except _ _) => apply unchanged_try_except; [|intros ?]
  | |- unchanged _ (try_pass _) => apply unchanged_try_pass
  | |- unchanged _ (for_each _ _) => apply unchanged_for_each; intros ?
  | |- unchanged _ (if ?b then _ else _) => destruct b
  | |- unchanged _ (match ?x with _ => _ end) => destruct x
  end.

Lemma chats_shown_app (a b : list ui_event) :
  chats_shown (a ++ b) = chats_shown a ++ chats_shown b.
Proof. unfold chats_shown. apply List.filter_app. Qed.

Lemma chats_shown_history (ms : list message) : chats_shown (history ms) = history ms.
Proof. induction ms as [|m ms IH]; [reflexivity|]. cbn. f_equal. exact IH. Qed.

Section Frames.

Context {W : Type}.
Variable env : Env W.

Lemma unchanged_save_uploads {X : Type} (obs : runtime W -> X)
  (files : list UploadedFile) (acc : list string) :
  (forall rt w, obs {| session := session rt; world := w; screen := screen rt;
                      calls := calls rt |} = obs rt) ->
  unchanged obs (save_uploads env files acc).
Proof.
  intros Hw rt. destruct (save_uploads_frame env files acc rt) as (o & w' & Heq & _).
  rewrite Heq. cbn [snd]. apply Hw.
Qed.

Ltac close_steps :=
  repeat unchanged_step;
  try (intros rt; reflexivity);
  try (intros rt; unfold call, call_quiet;
       match goal with |- context [let (_, _) := ?x in _] => destruct x end; reflexivity).

(** Nothing after line 44 touches the collection name. *)
Lemma sidebar_keeps_name (inp : run_input) : unchanged name_of (sidebar env inp).
Proof.
  unfold sidebar, load_pdfs, load_urls, remove_temp_files, knowledge_base_load,
    set_messages, set_assistant, set_knowledge_base_loaded.
  close_steps.
  all: try (apply unchanged_save_uploads; intros; reflexivity).
Qed.

Lemma main_chat_keeps_name (inp : run_input) : unchanged name_of (main_chat env inp).
Proof.
  unfold main_chat, chat_turn, answer, assistant_attr, knowledge_base_search,
    run_assistant, append_message.
  close_steps.
Qed.

(** The sidebar draws no chat message. *)
Lemma sidebar_keeps_chats (inp : run_input) : unchanged chats_of (sidebar env inp).
Proof.
  unfold sidebar, load_pdfs, load_urls, remove_temp_files, knowledge_base_load,
    set_messages, set_assistant, set_knowledge_base_loaded.
  close_steps.
  all: try (apply unchanged_save_uploads; intros; reflexivity).
  all: try (intros rt; unfold chats_of, show; cbn [snd screen];
            rewrite chats_shown_app; cbn; apply app_nil_r).
Qed.

End Frames.

(** ** The parts of an execution *)

Section Parts.

Context {W : Type}.
Variable env : Env W.

(** Lines 14-44, with the name the session ends up with. *)
Lemma script_prelude_named (k : string) (inp : run_input) (rt : runtime W) :
  GROQ_API_KEY env = Some k ->
  exists c w1,
    ((collection_name (session rt) = None
      /\ c = drawn_name env (world rt) /\ w1 = snd (uuid4 env (world rt)))
     \/ (collection_name (session rt) = Some c /\ w1 = world rt))
    /\ script env inp rt
       = bind (sidebar env inp) (fun _ => main_chat env inp)
           {| session := named c (session rt); world := w1;
              screen := screen rt ++ page_top; calls := calls rt |}.
Proof.
  intros Hk. unfold script, configure, page_header, init_session_state. rewrite Hk.
  unfold bind at 1. unfold ret at 1.
  unfold bind at 1. unfold bind at 1. unfold show at 1. unfold show at 1.
  unfold bind at 1. unfold bind at 1. unfold read at 1.
  cbn [session world screen calls].
  destruct (collection_name (session rt)) as [c|] eqn:Hc.
  - exists c, (world rt). split; [right; split; reflexivity|].
    unfold ret at 1. rewrite <- app_assoc. cbn [app].
    replace (named c (session rt)) with (session rt); [reflexivity|].
    symmetry. apply named_id. exact Hc.
  - unfold bind at 1. unfold call_quiet at 1. cbn [session world screen calls].
    unfold drawn_name.
    destruct (uuid4 env (world rt)) as [u w1].
    exists ("docs_" +:+ substring 0 8 u), w1. split; [left; repeat split; reflexivity|].
    cbn [lift_result]. unfold set_collection_name, with_session.
    cbn [session world screen calls]. rewrite <- app_assoc. reflexivity.
Qed.

(** The chat area never raises and never asks for a rerun. *)
Lemma main_chat_ok (inp : run_input) (rt : runtime W) :
  exists rt', main_chat env inp rt = (Ok tt, rt').
Proof.
  destruct (knowledge_base_loaded (session rt)) eqn:Hl.
  - destruct (fired inp) as [| | | |q] eqn:Hf;
      try (rewrite main_chat_idle by (try assumption; intros ?; congruence); eauto).
    destruct (truthy q) eqn:Hq.
    + destruct (main_chat_ask env inp rt q Hl Hf Hq) as (? & ? & ? & ? & Heq & _).
      rewrite Heq. eauto.
    + rewrite main_chat_idle by (try assumption; intros ?; congruence). eauto.
  - rewrite main_chat_not_loaded by assumption. eauto.
Qed.

(** An execution is the sidebar, then either the chat area or, after
    "Clear Conversation", the whole script once more. *)
Lemma run_script_parts (k : string) (inp : run_input) (s : session_state) (w : W) :
  GROQ_API_KEY env = Some k ->
  exists c w1 o rt2,
    ((collection_name s = None /\ c = drawn_name env w /\ w1 = snd (uuid4 env w))
     \/ (collection_name s = Some c /\ w1 = w))
    /\ sidebar env inp (at_sidebar c s w1) = (o, rt2)
    /\ ((o = Ok tt /\ fired inp <> ClickClear
         /\ run_script env inp s w = main_chat env inp rt2)
        \/ (o = Rerun /\ fired inp = ClickClear
            /\ run_script env inp s w = script env (without_trigger inp) (rerun_from rt2))).
Proof.
  intros Hk. unfold run_script.
  destruct (script_prelude_named k inp (start s w) Hk) as (c & w1 & Hname & Heq).
  rewrite Heq. clear Heq. cbn [start session world screen calls app] in *.
  fold (at_sidebar c s w1).
  destruct (sidebar_spec env inp (at_sidebar c s w1) c eq_refl)
    as (o & rt2 & Hs & Ho & _).
  exists c, w1, o, rt2. split; [exact Hname|]. split; [exact Hs|].
  unfold bind. rewrite Hs.
  destruct Ho as [[-> Hnc] | [-> Hclear]]; cbv beta iota.
  - left. split; [reflexivity|]. split; [exact Hnc|].
    destruct (main_chat_ok inp rt2) as (rt3 & ->). reflexivity.
  - right. split; [reflexivity|]. split; [exact Hclear|]. reflexivity.
Qed.

End Parts.

(** ** The collection name of a session *)

Lemma string_length_app (a b : string) :
  String.length (a +:+ b) = String.length a + String.length b.
Proof.
  induction a as [|c a IH]; [reflexivity|].
  change (S (String.length (a +:+ b)) = S (String.length a + String.length b)).
  rewrite IH. reflexivity.
Qed.

Lemma prefix_app (a b : string) : String.prefix a (a +:+ b) = true.
Proof.
  induction a as [|c a IH]; [destruct b; reflexivity|].
  change (String.prefix (String c a) (String c (a +:+ b)) = true).
  cbn [String.prefix]. destruct (ascii_dec c c) as [_|Hne]; [exact IH|].
  destruct (Hne eq_refl).
Qed.

Lemma substring_length_le (n m : nat) (s : string) :
  String.length (substring n m s) <= m.
Proof.
  revert n m. induction s as [|c s IH]; intros n m.
  - destruct n, m; cbn; lia.
  - destruct n as [|n]; [destruct m as [|m]|]; cbn; [lia| |apply IH].
    specialize (IH 0 m). lia.
Qed.

Section Names.

Context {W : Type}.
Variable env : Env W.

Lemma script_keeps_name (inp : run_input) (rt : runtime W) (c : string) :
  name_of rt = Some c -> name_of (snd (script env inp rt)) = Some c.
Proof.
  intros Hc. destruct (GROQ_API_KEY env) as [k|] eqn:Hk.
  - destruct (script_prelude_named env k inp rt Hk) as (c' & w1 & Hname & ->).
    assert (c' = c) as ->
      by (unfold name_of in Hc; destruct Hname as [[? _]|[? _]]; congruence).
    rewrite (unchanged_bind name_of _ _ (sidebar_keeps_name env inp)
               (fun _ => main_chat_keeps_name env inp)).
    reflexivity.
  - rewrite script_without_key by exact Hk. exact Hc.
Qed.

Lemma after_run_keeps_name (inp : run_input) (s : session_state) (w : W) (c : string) :
  collection_name s = Some c ->
  collection_name (session (after_run env inp s w)) = Some c.
Proof.
  intros Hc. unfold after_run, run_script.
  pose proof (script_keeps_name inp (start s w) c Hc) as H1.
  destruct (script env inp (start s w)) as [[[]|e|] rt1]; cbn [snd] in *; try exact H1.
  apply (script_keeps_name (without_trigger inp)). exact H1.
Qed.

(** X3: Lines 42-44: once a session has a collection name, no interaction
    changes it, whatever is loaded, asked or cleared, with or without an
    API key. *)
Theorem collection_name_is_stable
  (inputs : list run_input) (s : session_state) (w : W) (c : string) :
  collection_name s = Some c ->
  collection_name (fst (run_session env inputs s w)) = Some c
  /\ Forall (fun run : session_state * runtime W =>
              collection_name (session (snd run)) = Some c)
       (session_trace env inputs s w).
Proof.
  revert s w. induction inputs as [|inp inputs IH]; intros s w Hc.
  - split; [exact Hc|constructor].
  - cbn [run_session session_trace].
    pose proof (after_run_keeps_name inp s w c Hc) as H1.
    destruct (IH _ (world (after_run env inp s w)) H1) as [Hfinal Hall].
    split; [exact Hfinal|]. constructor; [exact H1|exact Hall].
Qed.

(** X4: Lines 42-44: the first execution of a session names its collection
    ["docs_"] followed by the first eight characters of a fresh UUID, so the
    name has at most thirteen characters. *)
Theorem first_execution_names_collection
  (k : string) (inp : run_input) (s : session_state) (w : W) :
  GROQ_API_KEY env = Some k ->
  collection_name s = None ->
  collection_name (session (after_run env inp s w)) = Some (drawn_name env w)
  /\ String.prefix "docs_" (drawn_name env w) = true
  /\ String.length (drawn_name env w) <= 13.
Proof.
  intros Hk Hnone. split; [|split].
  - unfold after_run.
    destruct (run_script_parts env k inp s w Hk) as (c & w1 & o & rt2 & Hname & Hs & Hrest).
    assert (c = drawn_name env w) as -> by (destruct Hname as [(_ & ? & _)|[? _]]; congruence).
    pose proof (sidebar_keeps_name env inp (at_sidebar (drawn_name env w) s w1)) as H2.
    rewrite Hs in H2. cbn [snd] in H2. unfold name_of in H2 at 2. cbn in H2.
    destruct Hrest as [(_ & _ & ->) | (_ & _ & ->)].
    + rewrite <- H2. apply (main_chat_keeps_name env inp rt2).
    + apply (script_keeps_name (without_trigger inp)). exact H2.
  - apply prefix_app.
  - unfold drawn_name. rewrite string_length_app.
    pose proof (substring_length_le 0 8 (fst (uuid4 env w))). cbn [String.length]. lia.
Qed.

End Names.

(** ** Sessions *)

Lemma alternating_app (b : bool) (ms ms' : list message) :
  alternating b (ms ++ ms')
  = alternating b ms && alternating (if Nat.even (length ms) then b else negb b) ms'.
Proof.
  revert b. induction ms as [|m ms IH]; intros b; [reflexivity|].
  cbn [app alternating length]. rewrite IH, <- andb_assoc. f_equal. f_equal.
  rewrite Nat.even_succ, <- Nat.negb_even. destruct (Nat.even (length ms)), b; reflexivity.
Qed.

Section Sessions.

Context {W : Type}.
Variable env : Env W.

(** X5: Line 18: without [GROQ_API_KEY] every execution stops with a
    [TypeError] before anything is drawn; over a whole session nothing is
    called and neither the session state nor the world changes, so the
    session never becomes ready. *)
Theorem without_api_key_nothing_happens
  (inputs : list run_input) (s : session_state) (w : W) :
  GROQ_API_KEY env = None ->
  run_session env inputs s w = (s, w)
  /\ Forall (fun run : session_state * runtime W => snd run = start s w)
       (session_trace env inputs s w)
  /\ forall inp, fst (run_script env inp s w)
                 = Raised (TypeError "str expected, not NoneType").
Proof.
  intros Hk. split; [|split].
  - induction inputs as [|inp inputs IH]; [reflexivity|].
    cbn [run_session]. unfold after_run. rewrite run_script_without_key by exact Hk.
    exact IH.
  - induction inputs as [|inp inputs IH]; [constructor|].
    cbn [session_trace]. unfold after_run. rewrite run_script_without_key by exact Hk.
    constructor; [reflexivity|exact IH].
  - intros inp. rewrite run_script_without_key by exact Hk. reflexivity.
Qed.

Lemma after_run_transcript_step (inp : run_input) (s : session_state) (w : W) :
  transcript_step (messages s) (messages (session (after_run env inp s w))).
Proof.
  destruct (run_cases env inp s w) as [[_ ->] | (k & _ & Heff)].
  - apply transcript_kept. reflexivity.
  - destruct Heff as
      [ c _ _ Hs _ _ _
      | c kb report _ _ _ Hs _ _
      | c label e made _ _ _ Hs _ _
      | c _ _ Hs _ _
      | c q reply made shown before _ _ _ _ _ Hs _ _ _ ];
      rewrite Hs; cbn.
    + apply transcript_kept. reflexivity.
    + apply transcript_emptied. reflexivity.
    + apply transcript_kept. reflexivity.
    + apply transcript_emptied. reflexivity.
    + eapply transcript_extended. reflexivity.
Qed.

(** X6: What an execution does to the transcript, at every step of a session:
    it keeps it, empties it, or appends one user message and one assistant
    message; it never edits, reorders or removes single messages. *)
Theorem transcript_changes_by_whole_turns
  (inputs : list run_input) (s : session_state) (w : W) :
  Forall (fun run : session_state * runtime W =>
            transcript_step (messages (fst run)) (messages (session (snd run))))
    (session_trace env inputs s w).
Proof.
  revert s w. induction inputs as [|inp inputs IH]; intros s w; cbn [session_trace].
  - constructor.
  - constructor; [apply after_run_transcript_step|apply IH].
Qed.

Lemma transcript_step_well_formed (before after : list message) :
  transcript_step before after ->
  well_formed_transcript before -> well_formed_transcript after.
Proof.
  intros [-> | -> | q reply ->] [Halt Heven]; [split; assumption|split; reflexivity|].
  split.
  - rewrite alternating_app, Halt, Heven. reflexivity.
  - rewrite length_app, Nat.even_add, Heven. reflexivity.
Qed.

(** X7: Over any session, however loads, failed loads, clears, questions and
    idle reruns are mixed, the transcript stays a sequence of whole turns:
    roles alternate from ["user"] and every user message is answered. *)
Theorem transcript_is_always_whole_turns
  (inputs : list run_input) (s : session_state) (w : W) :
  well_formed_transcript (messages s) ->
  well_formed_transcript (messages (fst (run_session env inputs s w))).
Proof.
  revert s w. induction inputs as [|inp inputs IH]; intros s w Hwf; [exact Hwf|].
  cbn [run_session]. apply IH.
  eapply transcript_step_well_formed; [|exact Hwf].
  apply after_run_transcript_step.
Qed.

Lemma after_run_keeps_ready (inp : run_input) (s : session_state) (w : W) :
  (knowledge_base_loaded s = true ->
   knowledge_base_loaded (session (after_run env inp s w)) = true)
  /\ (assistant s <> None -> assistant (session (after_run env inp s w)) <> None).
Proof.
  destruct (run_cases env inp s w) as [[_ ->] | (k & _ & Heff)]; [split; auto|].
  destruct Heff as
    [ c _ _ Hs _ _ _
    | c kb report _ _ _ Hs _ _
    | c label e made _ _ _ Hs _ _
    | c _ _ Hs _ _
    | c q reply made shown before _ _ _ _ _ Hs _ _ _ ];
    rewrite Hs; cbn; split; auto; discriminate.
Qed.

(** X8: Nothing in the script resets the ready flag or drops the assistant:
    once a load has returned the session stays ready, through failed
    reloads and cleared conversations alike. *)
Theorem ready_is_never_reset
  (inputs : list run_input) (s : session_state) (w : W) :
  knowledge_base_loaded s = true ->
  assistant s <> None ->
  knowledge_base_loaded (fst (run_session env inputs s w)) = true
  /\ assistant (fst (run_session env inputs s w)) <> None.
Proof.
  revert s w. induction inputs as [|inp inputs IH]; intros s w Hl Ha; [split; assumption|].
  cbn [run_session]. destruct (after_run_keeps_ready inp s w) as [H1 H2].
  apply IH; auto.
Qed.

(** X9: From a fresh session, a ready flag always comes with an assistant and
    a collection name; so a question put to a reachable ready session always
    gets as far as the retrieval: the read of
    [st.session_state.assistant.knowledge_base] never meets [None]. *)
Theorem ready_session_has_assistant
  (k : string) (inputs : list run_input) (w : W) (inp : run_input) (q : string) :
  GROQ_API_KEY env = Some k ->
  truthy q = true ->
  knowledge_base_loaded (fst (run_session env inputs fresh_session w)) = true ->
  collection_name (fst (run_session env inputs fresh_session w)) <> None
  /\ assistant (fst (run_session env inputs fresh_session w)) <> None
  /\ exists a r rest,
       assistant (fst (run_session env inputs fresh_session w)) = Some a
       /\ calls (after_run env (ask_input inp q)
                   (fst (run_session env inputs fresh_session w))
                   (snd (run_session env inputs fresh_session w)))
          = SearchCall (knowledge_base a) q 5 r :: rest.
Proof.
  intros Hk Hq Hl.
  destruct (loaded_session_complete env inputs fresh_session w) as [Hc Ha];
    [cbn; discriminate|exact Hl|].
  split; [exact Hc|]. split; [exact Ha|].
  destruct (run_ask env k inp q _ (snd (run_session env inputs fresh_session w)) Hk Hl Hq)
    as (c & reply & made & shown & before & rt' & Heq & _ & Hto & _ & Hcalls & _).
  unfold after_run. rewrite Heq. cbn [snd]. rewrite Hcalls.
  destruct Hto as [Hnone | a e Hsome | a docs e Hsome | a docs response Hsome];
    cbn in *; [contradiction|..]; exists a; eauto.
Qed.

(** X10: Lines 213-230: in every execution the model is called at most once,
    only after the search of the same question returned, and with the
    prompt built from what the search returned; when the search raises the
    model is not called at all. *)
Theorem model_called_only_after_search (inp : run_input) (s : session_state) (w : W) :
  (forall a prompt r,
      In (RunCall a prompt r) (calls (after_run env inp s w)) ->
      exists q docs,
        fired inp = SubmitChat q
        /\ calls (after_run env inp s w)
           = [SearchCall (knowledge_base a) q 5 (Return docs); RunCall a prompt r]
        /\ prompt = enhanced_prompt (build_context docs) q)
  /\ (forall kb q n e,
        In (SearchCall kb q n (Raise e)) (calls (after_run env inp s w)) ->
        calls (after_run env inp s w) = [SearchCall kb q n (Raise e)]).
Proof.
  destruct (run_cases env inp s w) as [[_ ->] | (k & _ & Heff)];
    [split; intros; cbn in *; tauto|].
  destruct Heff as
    [ c _ _ _ Hc _ _
    | c kb report _ _ _ _ Hc _
    | c label e made _ _ Hmade _ Hc _
    | c _ _ _ Hc _
    | c q reply made shown before _ Hf _ _ Hto _ Hc _ _ ];
    rewrite Hc.
  - split; intros; cbn in *; tauto.
  - split; intros ? ? ? ** ; cbn in *; intuition discriminate.
  - destruct Hmade as [->|(kb & _ & ->)]; split; intros ? ? ? **; cbn in *;
      intuition discriminate.
  - split; intros; cbn in *; tauto.
  - destruct Hto as [Ha | a e Ha | a docs e Ha | a docs response Ha]; split.
    + intros ? ? ? [].
    + intros ? ? ? ? [].
    + intros ? ? ? [Hin|[]]. discriminate.
    + intros ? ? ? ? [Hin|[]]. rewrite Hin. reflexivity.
    + intros a' prompt r [Hin|[Hin|[]]]; [discriminate|].
      injection Hin as <- <- <-. exists q, docs. repeat split; assumption || reflexivity.
    + intros ? ? ? ? [Hin|[Hin|[]]]; discriminate.
    + intros a' prompt r [Hin|[Hin|[]]]; [discriminate|].
      injection Hin as <- <- <-. exists q, docs. repeat split; assumption || reflexivity.
    + intros ? ? ? ? [Hin|[Hin|[]]]; discriminate.
Qed.

(** X11: Lines 96-103 and 213-214: after a load that returned, the next question
    is searched in the knowledge base that was loaded, once, for five
    documents, and the assistant that answers is the one built over it. *)
Theorem question_goes_to_loaded_knowledge_base
  (k : string) (inp inp' : run_input) (q : string) (s : session_state) (w : W)
  (kb : KnowledgeBase) (report : list IngestionError) :
  GROQ_API_KEY env = Some k ->
  truthy q = true ->
  In (LoadCall kb (Return report)) (calls (after_run env inp s w)) ->
  (exists r rest,
      calls (after_run env (ask_input inp' q)
               (session (after_run env inp s w)) (world (after_run env inp s w)))
      = SearchCall kb q 5 r :: rest)
  /\ (forall kb' q' n r,
        In (SearchCall kb' q' n r)
           (calls (after_run env (ask_input inp' q)
                     (session (after_run env inp s w)) (world (after_run env inp s w)))) ->
        kb' = kb)
  /\ (forall a prompt r,
        In (RunCall a prompt r)
           (calls (after_run env (ask_input inp' q)
                     (session (after_run env inp s w)) (world (after_run env inp s w)))) ->
        a = new_assistant kb).
Proof.
  intros Hk Hq Hin.
  assert (session (after_run env inp s w)
          = after_load (session (after_run env inp s w)) (new_assistant kb)) as Hloaded.
  { destruct (run_cases env inp s w) as [[_ Heq] | (k' & _ & Heff)];
      [rewrite Heq in Hin; destruct Hin|].
    destruct Heff as
      [ c _ _ _ Hc _ _
      | c kb' report' _ _ _ Hs Hc _
      | c label e made _ _ Hmade _ Hc _
      | c _ _ _ Hc _
      | c q' reply made shown before _ _ _ _ Hto _ Hc _ _ ];
      rewrite Hc in Hin.
    - destruct Hin.
    - destruct Hin as [Hin|[]]. injection Hin as -> _. rewrite Hs. reflexivity.
    - destruct Hmade as [->|(kb' & _ & ->)]; [destruct Hin|].
      destruct Hin as [Hin|[]]. discriminate.
    - destruct Hin.
    - destruct Hto; cbn in Hin; intuition discriminate. }
  set (s1 := session (after_run env inp s w)) in *.
  set (w1 := world (after_run env inp s w)).
  assert (knowledge_base_loaded s1 = true) as Hl by (rewrite Hloaded; reflexivity).
  assert (assistant s1 = Some (new_assistant kb)) as Ha by (rewrite Hloaded; reflexivity).
  destruct (run_ask env k inp' q s1 w1 Hk Hl Hq)
    as (c & reply & made & shown & before & rt' & Heq & _ & Hto & _ & Hc & _).
  replace (after_run env (ask_input inp' q) s1 w1) with rt'
    by (unfold after_run; rewrite Heq; reflexivity).
  rewrite Hc.
  destruct Hto as [Ha' | a e Ha' | a docs e Ha' | a docs response Ha'];
    cbn in Ha'; rewrite Ha in Ha'; try discriminate; injection Ha' as <-.
  - split; [eauto|]. split.
    + intros ? ? ? ? [Hin'|[]]. injection Hin' as <- _ _ _. reflexivity.
    + intros ? ? ? [Hin'|[]]. discriminate.
  - split; [eauto|]. split.
    + intros ? ? ? ? [Hin'|[Hin'|[]]]; [|discriminate]. injection Hin' as <- _ _ _. reflexivity.
    + intros ? ? ? [Hin'|[Hin'|[]]]; [discriminate|]. injection Hin' as <- _ _. reflexivity.
  - split; [eauto|]. split.
    + intros ? ? ? ? [Hin'|[Hin'|[]]]; [|discriminate]. injection Hin' as <- _ _ _. reflexivity.
    + intros ? ? ? [Hin'|[Hin'|[]]]; [discriminate|]. injection Hin' as <- _ _. reflexivity.
Qed.

End Sessions.

(** ** Interactions that load nothing *)

Section Quiet.

Context {W : Type}.
Variable env : Env W.

(** Lines 47-192 when no load is asked for: the sidebar calls nothing and
    touches at most the transcript. *)
Lemma sidebar_quiet (inp : run_input) (rt : runtime W) :
  load_requested inp = false ->
  exists drawn,
    sidebar env inp rt
    = ((if button_clear inp then Rerun else Ok tt),
       {| session := (if button_clear inp then cleared (session rt) else session rt);
          world := world rt;
          screen := screen rt ++ drawn;
          calls := calls rt |})
    /\ errors_shown drawn = []
    /\ chats_shown drawn = []
    /\ (radio inp = ProvideURLs -> fired inp = ClickLoadURLs ->
        In (UiWarning "Please enter at least one URL") drawn).
Proof.
  destruct inp as [method files text trig].
  unfold load_requested, sidebar, button_load_pdfs, button_load_urls, button_clear, cleared.
  cbn [radio uploaded_files url_input fired]. intros Hq.
  destruct method.
  - rewrite Hq. munfold.
    destruct trig; cbn [session world screen calls];
      destruct (knowledge_base_loaded (session rt));
      cbn [session world screen calls]; rewrite <- ?app_assoc; cbn [app]; eexists;
      (split; [reflexivity|]); (split; [reflexivity|]); (split; [reflexivity|]);
      intros; discriminate.
  - destruct trig; cbn [andb] in Hq; try rewrite Hq; munfold;
      cbn [session world screen calls];
      destruct (knowledge_base_loaded (session rt));
      cbn [session world screen calls]; rewrite <- ?app_assoc; cbn [app]; eexists;
      (split; [reflexivity|]); (split; [reflexivity|]); (split; [reflexivity|]);
      intros; try discriminate; cbn; tauto.
Qed.


(** Lines 195-276 when there is no question to answer. *)
Lemma main_chat_quiet (inp : run_input) (rt : runtime W) :
  (forall q, fired inp = SubmitChat q ->
             truthy q = false \/ knowledge_base_loaded (session rt) = false) ->
  exists drawn,
    main_chat env inp rt
    = (Ok tt, {| session := session rt; world := world rt;
                 screen := screen rt ++ drawn; calls := calls rt |})
    /\ errors_shown drawn = []
    /\ chats_shown drawn
       = (if knowledge_base_loaded (session rt) then history (messages (session rt)) else []).
Proof.
  intros Hq. destruct (knowledge_base_loaded (session rt)) eqn:Hl.
  - rewrite main_chat_idle; [|exact Hl|].
    + eexists. split; [reflexivity|]. split; [apply errors_shown_history|].
      apply chats_shown_history.
    + intros q Hf. destruct (Hq q Hf) as [H|H]; [exact H|discriminate].
  - rewrite main_chat_not_loaded by exact Hl.
    eexists. split; [reflexivity|]. split; reflexivity.
Qed.

Lemma session_name_cases (s : session_state) (w : W) (c : string) (w1 : W) :
  (collection_name s = None /\ c = drawn_name env w /\ w1 = snd (uuid4 env w))
  \/ (collection_name s = Some c /\ w1 = w) ->
  c = session_name env s w /\ w1 = world_named env s w.
Proof.
  unfold session_name, world_named.
  intros [(-> & -> & ->) | (-> & ->)]; split; reflexivity.
Qed.

Lemma quiet_cases (loaded : bool) (inp : run_input) :
  quiet loaded inp = true ->
  load_requested inp = false
  /\ fired inp <> ClickClear
  /\ button_clear inp = false
  /\ forall q, fired inp = SubmitChat q -> truthy q = false \/ loaded = false.
Proof.
  unfold quiet, button_clear. intros H. apply andb_prop in H as [Hl Hf].
  apply negb_true_iff in Hl. split; [exact Hl|].
  destruct (fired inp) as [| | | |q]; try discriminate;
    (split; [discriminate|]); (split; [reflexivity|]); try (intros ? ?; discriminate).
  intros q' Hq'. injection Hq' as <-. apply negb_true_iff in Hf.
  destruct loaded; [left; exact Hf|right; reflexivity].
Qed.

(** One quiet execution, from any runtime of a named session. *)
Lemma script_quiet (k : string) (inp : run_input) (rt : runtime W) (c : string) :
  GROQ_API_KEY env = Some k ->
  collection_name (session rt) = Some c ->
  quiet (knowledge_base_loaded (session rt)) inp = true ->
  exists drawn,
    script env inp rt
    = (Ok tt, {| session := session rt; world := world rt;
                 screen := screen rt ++ drawn; calls := calls rt |})
    /\ errors_shown drawn = []
    /\ chats_shown drawn
       = (if knowledge_base_loaded (session rt) then history (messages (session rt)) else [])
    /\ (radio inp = ProvideURLs -> fired inp = ClickLoadURLs ->
        In (UiWarning "Please enter at least one URL") drawn).
Proof.
  intros Hk Hc Hquiet.
  destruct (quiet_cases _ _ Hquiet) as (Hload & Hnc & Hb & Hq).
  destruct (script_prelude_named env k inp rt Hk) as (c' & w1 & Hname & Heq).
  rewrite Heq. clear Heq.
  assert (c' = c /\ w1 = world rt) as [-> ->]
    by (destruct Hname as [(? & _)|(? & ?)]; [congruence|split; congruence]).
  rewrite (named_id c _ Hc). unfold bind at 1.
  match goal with |- context [sidebar env inp ?r] =>
    destruct (sidebar_quiet inp r Hload) as (d1 & Hs & He1 & Hc1 & Hwarn) end.
  rewrite Hs, Hb. cbn [session world screen calls] in *.
  match goal with |- context [main_chat env inp ?r] =>
    destruct (main_chat_quiet inp r Hq) as (d2 & Hm & He2 & Hc2) end.
  rewrite Hm. cbn [session world screen calls] in *.
  exists (page_top ++ d1 ++ d2). rewrite <- !app_assoc. split; [reflexivity|].
  rewrite !errors_shown_app, !chats_shown_app, He1, He2, Hc1, Hc2.
  split; [reflexivity|]. split; [reflexivity|].
  intros Hr Hf. apply in_or_app. right. apply in_or_app. left. auto.
Qed.

(** One quiet interaction. *)
Lemma run_script_quiet (k : string) (inp : run_input) (s : session_state) (w : W) :
  GROQ_API_KEY env = Some k ->
  quiet (knowledge_base_loaded s) inp = true ->
  exists drawn,
    run_script env inp s w
    = (Ok tt, {| session := named (session_name env s w) s; world := world_named env s w;
                 screen := drawn; calls := [] |})
    /\ errors_shown drawn = []
    /\ chats_shown drawn = (if knowledge_base_loaded s then history (messages s) else [])
    /\ (radio inp = ProvideURLs -> fired inp = ClickLoadURLs ->
        In (UiWarning "Please enter at least one URL") drawn).
Proof.
  intros Hk Hquiet.
  destruct (quiet_cases _ _ Hquiet) as (Hload & Hnc & Hb & Hq).
  destruct (run_script_parts env k inp s w Hk) as (c & w1 & o & rt2 & Hname & Hs & Hrun).
  apply session_name_cases in Hname as [-> ->].
  destruct (sidebar_quiet inp (at_sidebar (session_name env s w) s (world_named env s w)) Hload)
    as (d1 & Hs' & He1 & Hc1 & Hwarn).
  rewrite Hs' in Hs. rewrite Hb in Hs. injection Hs as <- <-.
  destruct Hrun as [(_ & _ & ->) | (Ho & _)]; [|discriminate].
  match goal with |- context [main_chat env inp ?r] =>
    destruct (main_chat_quiet inp r Hq) as (d2 & Hm & He2 & Hc2) end.
  rewrite Hm. cbn [session world screen calls at_sidebar named knowledge_base_loaded messages] in *.
  exists ((page_top ++ d1) ++ d2). split; [reflexivity|].
  rewrite !errors_shown_app, !chats_shown_app, He1, He2, Hc1, Hc2.
  split; [reflexivity|]. split; [reflexivity|].
  intros Hr Hf. apply in_or_app. left. apply in_or_app. right. auto.
Qed.

(** One "Clear Conversation". *)
Lemma run_script_clear (k : string) (inp : run_input) (s : session_state) (w : W) :
  GROQ_API_KEY env = Some k ->
  fired inp = ClickClear ->
  exists drawn,
    run_script env inp s w
    = (Ok tt, {| session := cleared (named (session_name env s w) s);
                 world := world_named env s w; screen := drawn; calls := [] |})
    /\ errors_shown drawn = []
    /\ chats_shown drawn = [].
Proof.
  intros Hk Hf.
  assert (load_requested inp = false) as Hload.
  { unfold load_requested, button_load_pdfs, button_load_urls. rewrite Hf.
    destruct (radio inp); [apply andb_false_r|reflexivity]. }
  destruct (run_script_parts env k inp s w Hk) as (c & w1 & o & rt2 & Hname & Hs & Hrun).
  apply session_name_cases in Hname as [-> ->].
  destruct (sidebar_quiet inp (at_sidebar (session_name env s w) s (world_named env s w)) Hload)
    as (d1 & Hs' & _).
  rewrite Hs' in Hs. unfold button_clear in Hs. rewrite Hf in Hs. injection Hs as <- <-.
  destruct Hrun as [(Ho & _) | (_ & _ & ->)]; [discriminate|].
  unfold rerun_from. cbn [session world screen calls at_sidebar].
  match goal with |- context [script env ?i ?r] =>
    destruct (script_quiet k i r (session_name env s w) Hk eq_refl) as (d & Heq & He & Hc & _)
  end.
  { unfold quiet, load_requested, button_load_pdfs, button_load_urls, without_trigger.
    cbn [radio uploaded_files url_input fired].
    destruct (radio inp); [rewrite andb_false_r|]; reflexivity. }
  rewrite Heq. cbn [session world screen calls app] in *.
  exists d. split; [reflexivity|]. split; [exact He|].
  rewrite Hc. cbn. destruct (knowledge_base_loaded s); reflexivity.
Qed.

(** X12: Lines 185-187: "Clear Conversation" empties the transcript and nothing
    else: the execution ends normally after one rerun, the ready flag, the
    assistant and the collection stay, no library call is made, the world is
    untouched, and the page drawn shows neither an error nor a chat
    message. *)
Theorem clear_conversation_only_empties_transcript
  (k : string) (inp : run_input) (s : session_state) (w : W) :
  GROQ_API_KEY env = Some k ->
  fired inp = ClickClear ->
  fst (run_script env inp s w) = Ok tt
  /\ messages (session (after_run env inp s w)) = []
  /\ session (after_run env inp s w) = cleared (named (session_name env s w) s)
  /\ world (after_run env inp s w) = world_named env s w
  /\ calls (after_run env inp s w) = []
  /\ errors_shown (screen (after_run env inp s w)) = []
  /\ chats_shown (screen (after_run env inp s w)) = [].
Proof.
  intros Hk Hf. unfold after_run.
  destruct (run_script_clear k inp s w Hk Hf) as (d & Heq & He & Hc).
  rewrite Heq. cbn [fst snd session world screen calls].
  repeat split; assumption.
Qed.

(** X13: An interaction that asks for nothing (a rerun with nothing fired, a
    "Load PDFs" without files, a "Load URLs" on blank text, an empty
    question, a question while not ready) is harmless: over any number of
    them a named session and the world stay exactly as they were, nothing is
    called and no error is shown. *)
Theorem quiet_interactions_change_nothing
  (k : string) (inputs : list run_input) (s : session_state) (w : W) (c : string) :
  GROQ_API_KEY env = Some k ->
  collection_name s = Some c ->
  Forall (fun inp => quiet (knowledge_base_loaded s) inp = true) inputs ->
  run_session env inputs s w = (s, w)
  /\ Forall (fun run : session_state * runtime W =>
               fst run = s /\ session (snd run) = s /\ world (snd run) = w
               /\ calls (snd run) = [] /\ errors_shown (screen (snd run)) = [])
       (session_trace env inputs s w).
Proof.
  intros Hk Hc Hall.
  assert (forall inp, quiet (knowledge_base_loaded s) inp = true ->
            exists drawn, after_run env inp s w
              = {| session := s; world := w; screen := drawn; calls := [] |}
              /\ errors_shown drawn = []) as Hone.
  { intros inp Hq. destruct (run_script_quiet k inp s w Hk Hq) as (d & Heq & He & _).
    exists d. unfold after_run. rewrite Heq. cbn [snd].
    unfold session_name, world_named. rewrite Hc, (named_id c s Hc).
    split; [reflexivity|exact He]. }
  induction Hall as [|inp inputs Hq _ IH].
  - split; [reflexivity|constructor].
  - destruct (Hone inp Hq) as (d & Heq & He). cbn [run_session session_trace].
    rewrite Heq. cbn [session world]. destruct IH as [IH1 IH2].
    split; [exact IH1|]. constructor; [|exact IH2].
    cbn. repeat split; assumption.
Qed.

(** X14: Lines 129-130 and 180-181: "Load URLs" on a text area that is empty or
    holds only white space loads nothing; the page shows the warning. *)
Theorem blank_url_input_is_refused
  (k : string) (inp : run_input) (s : session_state) (w : W) :
  GROQ_API_KEY env = Some k ->
  radio inp = ProvideURLs ->
  fired inp = ClickLoadURLs ->
  truthy (strip (url_input inp)) = false ->
  In (UiWarning "Please enter at least one URL") (screen (after_run env inp s w))
  /\ calls (after_run env inp s w) = []
  /\ session (after_run env inp s w) = named (session_name env s w) s
  /\ errors_shown (screen (after_run env inp s w)) = [].
Proof.
  intros Hk Hr Hf Hblank.
  assert (quiet (knowledge_base_loaded s) inp = true) as Hq.
  { unfold quiet, load_requested. rewrite Hr, Hf, Hblank. rewrite andb_false_r. reflexivity. }
  destruct (run_script_quiet k inp s w Hk Hq) as (d & Heq & He & _ & Hwarn).
  unfold after_run. rewrite Heq. cbn [snd session world screen calls].
  repeat split; auto.
Qed.

End Quiet.

(** ** Loads *)

Section Loads.

Context {W : Type}.
Variable env : Env W.

Lemma save_uploads_run (files : list UploadedFile) (acc : list string) (rt : runtime W) :
  save_uploads env files acc rt
  = (lift_result (fst (write_uploads env files acc (world rt))),
     {| session := session rt; world := snd (write_uploads env files acc (world rt));
        screen := screen rt; calls := calls rt |}).
Proof.
  revert acc rt. induction files as [|f files IH]; intros acc rt.
  - destruct rt; reflexivity.
  - cbn [save_uploads write_uploads]. unfold bind at 1. unfold call_quiet at 1.
    destruct (save_upload env (getvalue f) (world rt)) as [[name|e] w1];
      cbn [lift_result]; [|reflexivity].
    rewrite IH. reflexivity.
Qed.

Lemma remove_temp_files_run (temp_paths : list string) (rt : runtime W) :
  remove_temp_files env temp_paths rt
  = (Ok tt, {| session := session rt; world := unlink_all env temp_paths (world rt);
               screen := screen rt; calls := calls rt |}).
Proof.
  revert rt. induction temp_paths as [|p rest IH]; intros rt.
  - destruct rt; reflexivity.
  - unfold remove_temp_files in *. cbn [for_each unlink_all].
    unfold bind at 1. unfold try_pass at 1. rewrite IH. unfold call_quiet.
    destruct (os_unlink env p (world rt)) as [[[]|e] w1]; reflexivity.
Qed.

Lemma write_uploads_length (files : list UploadedFile) (acc temp_paths : list string)
  (w w' : W) :
  write_uploads env files acc w = (Return temp_paths, w') ->
  length temp_paths = length acc + length files.
Proof.
  revert acc w. induction files as [|f files IH]; intros acc w; cbn [write_uploads].
  - intros [= <- _]. cbn. lia.
  - destruct (save_upload env (getvalue f) w) as [[name|e] w1]; [|discriminate].
    intros H. apply IH in H. rewrite length_app in H. cbn in *. lia.
Qed.

Local Ltac upload_raised :=
  let Hw' := fresh in let Hc' := fresh in
  intros ? ? ? ? _ Hw' Hc';
  first [ discriminate Hw'
        | injection Hw' as <- <-; first [ congruence | split; reflexivity ] ].

(** What an interaction that asks for a load does in the sidebar: the
    library's [load] is called once on the knowledge base the form
    describes, or not at all when writing an upload failed. *)
Lemma sidebar_load (inp : run_input) (rt : runtime W) (c : string) :
  collection_name (session rt) = Some c ->
  load_requested inp = true ->
  exists rt2 made,
    sidebar env inp rt = (Ok tt, rt2)
    /\ load_click inp
    /\ calls rt2 = calls rt ++ made
    /\ (session rt2 = session rt
        \/ exists kb, session rt2 = after_load (session rt) (new_assistant kb))
    /\ (made = []
        \/ exists kb r, made = [LoadCall kb r] /\ requested_knowledge_base env inp c kb)
    /\ (radio inp = UploadPDFs ->
        world rt2 = world_after_upload env (uploaded_files inp) c (world rt))
    /\ (forall temp_paths w1 e w2,
          radio inp = UploadPDFs ->
          write_uploads env (uploaded_files inp) [] (world rt) = (Return temp_paths, w1) ->
          construct_knowledge_base env
            (PDFKnowledgeBase temp_paths {| chunk := true |} (new_vector_db env c)) w1
          = (Raise e, w2) ->
          made = [] /\ session rt2 = session rt).
Proof.
  intros Hc Hreq.
  destruct inp as [method files text trig].
  unfold load_requested, sidebar, button_load_pdfs, button_load_urls, button_clear,
    load_click, requested_knowledge_base, world_after_upload in *.
  cbn [radio uploaded_files url_input fired] in *.
  destruct method.
  - apply andb_prop in Hreq as [Hfiles Htrig].
    destruct trig; try discriminate. rewrite Hfiles. cbn [andb].
    unfold load_pdfs. munfold. rewrite save_uploads_run. cbn [session world screen calls].
    destruct (write_uploads env files [] (world rt)) as [[temp_paths|e] w1] eqn:Hw;
      cbn [fst snd lift_result session world screen calls].
    + rewrite Hc. cbn [session world screen calls].
      pose proof (write_uploads_length _ _ _ _ _ Hw) as Hlen.
      destruct (construct_knowledge_base env
                  (PDFKnowledgeBase temp_paths {| chunk := true |} (new_vector_db env c)) w1)
        as [[[]|e] w1'] eqn:Hcons; cbn [session world screen calls].
      * destruct (kb_load env (PDFKnowledgeBase temp_paths {| chunk := true |} (new_vector_db env c)) w1')
          as [[report|e] w2]; cbn [session world screen calls].
        -- rewrite remove_temp_files_run. cbn [session world screen calls snd].
           do 2 eexists. split; [reflexivity|]. split; [left; reflexivity|].
           cbn [session world screen calls messages knowledge_base_loaded].
           split; [reflexivity|]. split; [right; eexists; reflexivity|].
           split; [|split; [reflexivity|upload_raised]].
           right. do 2 eexists. split; [reflexivity|]. exists temp_paths.
           split; [exact Hlen|reflexivity].
        -- destruct (knowledge_base_loaded (session rt)) eqn:Hl;
             do 2 eexists; (split; [reflexivity|]); (split; [left; reflexivity|]);
             cbn [session world screen calls messages knowledge_base_loaded];
             (split; [reflexivity|]); (split; [left; reflexivity|]);
             (split; [|split; [reflexivity|upload_raised]]);
             right; do 2 eexists; (split; [reflexivity|]); exists temp_paths;
             (split; [exact Hlen|reflexivity]).
      * destruct (knowledge_base_loaded (session rt)) eqn:Hl;
          do 2 eexists; (split; [reflexivity|]); (split; [left; reflexivity|]);
          cbn [session world screen calls messages knowledge_base_loaded];
          (split; [symmetry; apply app_nil_r|]); (split; [left; reflexivity|]);
          (split; [left; reflexivity|split; [reflexivity|upload_raised]]).
    + destruct (knowledge_base_loaded (session rt)) eqn:Hl;
        do 2 eexists; (split; [reflexivity|]); (split; [left; reflexivity|]);
        cbn [session world screen calls messages knowledge_base_loaded];
        (split; [symmetry; apply app_nil_r|]); (split; [left; reflexivity|]);
        (split; [left; reflexivity|split; [reflexivity|upload_raised]]).
  - apply andb_prop in Hreq as [Htrig Htext].
    destruct trig; try discriminate. rewrite Htext.
    unfold load_urls. munfold. rewrite Hc. cbn [session world screen calls].
    destruct (construct_knowledge_base env
                (PDFUrlKnowledgeBase (parse_urls text) (new_vector_db env c)) (world rt))
      as [[[]|e] w1]; cbn [session world screen calls].
    + destruct (kb_load env (PDFUrlKnowledgeBase (parse_urls text) (new_vector_db env c)) w1)
        as [[report|e] w2]; cbn [session world screen calls].
      * do 2 eexists. split; [reflexivity|]. split; [right; reflexivity|].
        cbn [session world screen calls messages knowledge_base_loaded].
        split; [reflexivity|]. split; [right; eexists; reflexivity|].
        split; [|split; [discriminate|intros; discriminate]].
        right. do 2 eexists. split; reflexivity.
      * destruct (knowledge_base_loaded (session rt)) eqn:Hl;
          do 2 eexists; (split; [reflexivity|]); (split; [right; reflexivity|]);
          cbn [session world screen calls messages knowledge_base_loaded];
          (split; [reflexivity|]); (split; [left; reflexivity|]);
          (split; [|split; [discriminate|intros; discriminate]]);
          right; do 2 eexists; split; reflexivity.
    + destruct (knowledge_base_loaded (session rt)) eqn:Hl;
        do 2 eexists; (split; [reflexivity|]); (split; [right; reflexivity|]);
        cbn [session world screen calls messages knowledge_base_loaded];
        (split; [symmetry; apply app_nil_r|]); (split; [left; reflexivity|]);
        (split; [left; reflexivity|split; [discriminate|intros; discriminate]]).
Qed.


Lemma load_requested_click (inp : run_input) :
  load_requested inp = true ->
  load_click inp /\ fired inp <> ClickClear /\ forall q, fired inp <> SubmitChat q.
Proof.
  unfold load_requested, load_click, button_load_pdfs, button_load_urls.
  destruct (radio inp), (fired inp); rewrite ?andb_false_r; cbn [andb];
    try discriminate; intros _; (split; [auto|]); split; discriminate.
Qed.

Lemma not_load_requested (inp : run_input) :
  fired inp <> ClickLoadPDFs -> fired inp <> ClickLoadURLs -> load_requested inp = false.
Proof.
  unfold load_requested, button_load_pdfs, button_load_urls.
  destruct (radio inp), (fired inp); rewrite ?andb_false_r; cbn [andb]; congruence.
Qed.

(** One interaction that asks for a load. *)
Lemma run_script_load (k : string) (inp : run_input) (s : session_state) (w : W) :
  GROQ_API_KEY env = Some k ->
  load_requested inp = true ->
  exists rt2 made drawn,
    sidebar env inp (at_sidebar (session_name env s w) s (world_named env s w)) = (Ok tt, rt2)
    /\ run_script env inp s w
       = (Ok tt, {| session := session rt2; world := world rt2;
                    screen := screen rt2 ++ drawn; calls := made |})
    /\ chats_shown (screen rt2) = []
    /\ chats_shown drawn
       = (if knowledge_base_loaded (session rt2) then history (messages (session rt2)) else [])
    /\ (made = []
        \/ exists kb r, made = [LoadCall kb r]
                        /\ requested_knowledge_base env inp (session_name env s w) kb)
    /\ (radio inp = UploadPDFs ->
        world rt2 = world_after_upload env (uploaded_files inp) (session_name env s w)
                      (world_named env s w))
    /\ (forall temp_paths w1 e w2,
          radio inp = UploadPDFs ->
          write_uploads env (uploaded_files inp) [] (world_named env s w)
          = (Return temp_paths, w1) ->
          construct_knowledge_base env
            (PDFKnowledgeBase temp_paths {| chunk := true |}
               (new_vector_db env (session_name env s w))) w1
          = (Raise e, w2) ->
          made = [] /\ session rt2 = named (session_name env s w) s).
Proof.
  intros Hk Hreq.
  destruct (load_requested_click inp Hreq) as (_ & Hnc & Hnq).
  destruct (run_script_parts env k inp s w Hk) as (c & w1 & o & rt2 & Hname & Hs & Hrun).
  apply session_name_cases in Hname as [-> ->].
  destruct (sidebar_load inp (at_sidebar (session_name env s w) s (world_named env s w))
              (session_name env s w) eq_refl Hreq)
    as (rt2' & made & Hs' & _ & Hcalls & _ & Hmade & Hworld & Hraised).
  rewrite Hs' in Hs. injection Hs as <- <-.
  destruct Hrun as [(_ & _ & ->) | (Ho & _)]; [|discriminate].
  destruct (main_chat_quiet env inp rt2') as (d2 & Hm & _ & Hc2).
  { intros q Hf. destruct (Hnq q Hf). }
  exists rt2', made, d2. split; [exact Hs'|]. split; [rewrite Hm, Hcalls; reflexivity|].
  split.
  { pose proof (sidebar_keeps_chats env inp
                  (at_sidebar (session_name env s w) s (world_named env s w))) as Hk'.
    rewrite Hs' in Hk'. exact Hk'. }
  split; [exact Hc2|]. split; [exact Hmade|]. split; [exact Hworld|exact Hraised].
Qed.

Lemma history_app (ms ms' : list message) : history (ms ++ ms') = history ms ++ history ms'.
Proof. apply map_app. Qed.

Lemma turn_outcome_calls (s : session_state) (q : string) (made : list ext_call)
  (reply : string) (shown : ui_event) :
  turn_outcome s q made reply shown ->
  (shown = UiChat "assistant" reply \/ shown = UiError reply)
  /\ forall kb r, ~ In (LoadCall kb r) made.
Proof.
  intros [Ha | a e Ha | a docs e Ha | a docs response Ha];
    (split; [auto|]); intros kb r Hin; cbn in Hin; intuition discriminate.
Qed.

(** X15: Lines 59, 129-130: the library's [load] is called only by an
    interaction that asks for it (a "Load PDFs" with at least one file, a
    "Load URLs" on text that is not blank), at most once, on the knowledge
    base of that form over the session's collection, and never over an
    empty list of sources. *)
Theorem load_called_only_when_requested
  (k : string) (inp : run_input) (s : session_state) (w : W)
  (kb : KnowledgeBase) (r : result (list IngestionError)) :
  GROQ_API_KEY env = Some k ->
  In (LoadCall kb r) (calls (after_run env inp s w)) ->
  load_requested inp = true
  /\ calls (after_run env inp s w) = [LoadCall kb r]
  /\ requested_knowledge_base env inp (session_name env s w) kb
  /\ sources_of kb <> [].
Proof.
  intros Hk Hin. destruct (load_requested inp) eqn:Hreq.
  - destruct (run_script_load k inp s w Hk Hreq)
      as (rt2 & made & d & _ & Heq & _ & _ & Hmade & _ & _).
    unfold after_run in *. rewrite Heq in *. cbn [snd calls] in *.
    destruct Hmade as [-> | (kb' & r' & -> & Hkb)]; [destruct Hin|].
    destruct Hin as [Hin|[]]. injection Hin as -> ->.
    split; [reflexivity|]. split; [reflexivity|]. split; [exact Hkb|].
    unfold requested_knowledge_base, load_requested in *.
    destruct (radio inp).
    + destruct Hkb as (temp_paths & Hlen & ->). cbn [sources_of].
      apply andb_prop in Hreq as [Hfiles _].
      destruct (uploaded_files inp); [discriminate|].
      destruct temp_paths; [discriminate|discriminate].
    + subst kb. cbn [sources_of]. apply andb_prop in Hreq as [_ Htext].
      apply parse_urls_some. exact Htext.
  - exfalso.
    destruct (run_cases env inp s w) as [[_ Heq] | (k' & _ & Heff)];
      [rewrite Heq in Hin; destruct Hin|].
    assert (load_click inp -> False) as Hquiet.
    { intros Hclick.
      assert (quiet (knowledge_base_loaded s) inp = true) as Hq.
      { unfold quiet. rewrite Hreq. destruct Hclick as [-> | ->]; reflexivity. }
      destruct (run_script_quiet env k inp s w Hk Hq) as (d & Heq & _).
      unfold after_run in Hin. rewrite Heq in Hin. destruct Hin. }
    destruct Heff as
      [ c _ _ _ Hc _ _
      | c kb' report _ Hclick _ _ Hc _
      | c label e made _ Hclick _ _ Hc _
      | c _ _ _ Hc _
      | c q reply made shown before _ _ _ _ Hto _ Hc _ _ ];
      auto; rewrite Hc in Hin; try (destruct Hin; fail).
    apply turn_outcome_calls in Hto as [_ Hno]. exact (Hno _ _ Hin).
Qed.

(** X16: Lines 64-87 and 110-119: an upload interaction works on the world in
    this order: every upload is written to a temporary file, the knowledge
    base over the written paths is constructed and [load] is called on it,
    and the paths are unlinked, a failed unlink being ignored, only if
    [load] returned.  When a write, the constructor or the load raises,
    nothing is unlinked and the files written so far stay; when it is the
    constructor that raises, [load] is not called at all and the session
    state stays as it was. *)
Theorem temporary_files_removed_only_after_load_returned
  (k : string) (inp : run_input) (s : session_state) (w : W) :
  GROQ_API_KEY env = Some k ->
  radio inp = UploadPDFs ->
  fired inp = ClickLoadPDFs ->
  uploaded_files inp <> [] ->
  world (after_run env inp s w)
  = world_after_upload env (uploaded_files inp) (session_name env s w) (world_named env s w)
  /\ (forall temp_paths w1 e w2,
        write_uploads env (uploaded_files inp) [] (world_named env s w)
        = (Return temp_paths, w1) ->
        construct_knowledge_base env
          (PDFKnowledgeBase temp_paths {| chunk := true |}
             (new_vector_db env (session_name env s w))) w1
        = (Raise e, w2) ->
        world (after_run env inp s w) = w2
        /\ calls (after_run env inp s w) = []
        /\ session (after_run env inp s w) = named (session_name env s w) s).
Proof.
  intros Hk Hr Hf Hfiles.
  assert (load_requested inp = true) as Hreq.
  { unfold load_requested, button_load_pdfs. rewrite Hr, Hf.
    destruct (uploaded_files inp); [contradiction|reflexivity]. }
  destruct (run_script_load k inp s w Hk Hreq)
    as (rt2 & made & d & _ & Heq & _ & _ & _ & Hw & Hraised).
  unfold after_run. rewrite Heq. cbn [snd session world calls].
  split; [exact (Hw Hr)|].
  intros temp_paths w1 e w2 Hwrite Hcons.
  destruct (Hraised temp_paths w1 e w2 Hr Hwrite Hcons) as [-> Hs].
  split; [|split; [reflexivity|exact Hs]].
  rewrite (Hw Hr). unfold world_after_upload. rewrite Hwrite, Hcons. reflexivity.
Qed.

(** X17: Lines 197-199, 205-206, 245 and 253-255: whenever an execution leaves
    the session ready, the chat messages drawn on its page are the
    transcript, in order; the one exception is the reply of a turn that
    failed in this very execution, which is drawn by [st.error] and is drawn
    as a chat message only from the next page on. *)
Theorem page_shows_the_transcript
  (k : string) (inp : run_input) (s : session_state) (w : W) :
  GROQ_API_KEY env = Some k ->
  knowledge_base_loaded (session (after_run env inp s w)) = true ->
  history (messages (session (after_run env inp s w)))
  = chats_shown (screen (after_run env inp s w))
  \/ exists q reply,
       fired inp = SubmitChat q
       /\ history (messages (session (after_run env inp s w)))
          = chats_shown (screen (after_run env inp s w)) ++ [UiChat "assistant" reply]
       /\ In (UiError reply) (screen (after_run env inp s w)).
Proof.
  intros Hk Hready.
  destruct (load_requested inp) eqn:Hreq.
  { left. destruct (run_script_load k inp s w Hk Hreq)
      as (rt2 & made & d & _ & Heq & Hc2 & Hd & _ & _ & _).
    unfold after_run in *. rewrite Heq in *. cbn [snd session screen] in *.
    rewrite chats_shown_app, Hc2, Hd, Hready. reflexivity. }
  destruct (quiet (knowledge_base_loaded s) inp) eqn:Hquiet.
  { left. destruct (run_script_quiet env k inp s w Hk Hquiet) as (d & Heq & _ & Hd & _).
    unfold after_run in *. rewrite Heq in *. cbn [snd session screen] in *.
    rewrite Hd. cbn [named knowledge_base_loaded messages] in *. rewrite Hready. reflexivity. }
  unfold quiet in Hquiet. rewrite Hreq in Hquiet. cbn [negb andb] in Hquiet.
  destruct (fired inp) as [| | | |q] eqn:Hf; try discriminate.
  { left. destruct (run_script_clear env k inp s w Hk Hf) as (d & Heq & _ & Hc).
    unfold after_run. rewrite Heq. cbn [snd session screen]. rewrite Hc. reflexivity. }
  apply negb_false_iff, andb_prop in Hquiet as [Hl Hq].
  unfold after_run in *.
  destruct (run_script_parts env k inp s w Hk) as (c & w1 & o & rt2 & Hname & Hs & Hrun).
  apply session_name_cases in Hname as [-> ->].
  destruct (sidebar_quiet env inp (at_sidebar (session_name env s w) s (world_named env s w)) Hreq)
    as (d1 & Hs' & _ & Hc1 & _).
  rewrite Hs' in Hs. unfold button_clear in Hs. rewrite Hf in Hs. injection Hs as <- <-.
  destruct Hrun as [(_ & _ & Hrun) | (Ho & _)]; [|discriminate].
  rewrite Hrun in *. clear Hrun.
  match goal with |- context [main_chat env inp ?r] =>
    destruct (main_chat_ask env inp r q Hl Hf Hq) as (reply & made & shown & w' & Heq & Hto) end.
  rewrite Heq. cbn [snd session world screen calls at_sidebar with_turn messages named].
  change (UiTitle "📚 PDF Assistant with RAG"
          :: UiMarkdown "Upload PDFs or provide URLs to chat with your documents" :: d1)
    with (page_top ++ d1).
  rewrite !chats_shown_app, Hc1, history_app, chats_shown_history.
  apply turn_outcome_calls in Hto as [[-> | ->] _].
  - left. reflexivity.
  - right. exists q, reply. split; [reflexivity|]. split.
    + cbn. rewrite <- app_assoc. reflexivity.
    + apply in_or_app. right. right. left. reflexivity.
Qed.

End Loads.

(** ** The further properties on sample sessions *)

Lemma parse_urls_clean_witness :
  In "https://a.example/x.pdf"
     (parse_urls ("  https://a.example/x.pdf  " +:+ nl +:+ nl +:+ " https://b.example/y.pdf"))
  /\ strip "https://a.example/x.pdf" = "https://a.example/x.pdf"
  /\ no_newline "https://a.example/x.pdf" = true.
Proof.
  assert (In "https://a.example/x.pdf"
            (parse_urls ("  https://a.example/x.pdf  " +:+ nl +:+ nl +:+ " https://b.example/y.pdf")))
    as Hin by (vm_compute; left; reflexivity).
  split; [exact Hin|].
  destruct (parse_urls_clean _ _ Hin) as (_ & _ & _ & Hs & Hn).
  split; [exact Hs|exact Hn].
Defined.

Lemma collection_name_is_stable_witness :
  collection_name (session first_load) = Some "docs_3f2b8c1e"
  /\ collection_name
       (fst (run_session (sample_env true echo_model)
               [url_click other_url; clear_click; ask_click "What is X?"]
               (session first_load) (world first_load)))
     = Some "docs_3f2b8c1e".
Proof.
  assert (collection_name (session first_load) = Some "docs_3f2b8c1e") as Hc
    by (vm_compute; reflexivity).
  split; [exact Hc|].
  exact (proj1 (collection_name_is_stable (sample_env true echo_model)
                  [url_click other_url; clear_click; ask_click "What is X?"]
                  (session first_load) (world first_load) "docs_3f2b8c1e" Hc)).
Defined.

Lemma first_execution_names_collection_witness :
  GROQ_API_KEY (sample_env true echo_model) = Some "gsk-key"
  /\ collection_name fresh_session = None
  /\ collection_name (session (after_run (sample_env true echo_model) idle fresh_session empty_world))
     = Some (drawn_name (sample_env true echo_model) empty_world)
  /\ drawn_name (sample_env true echo_model) empty_world = "docs_3f2b8c1e".
Proof.
  split; [reflexivity|]. split; [reflexivity|].
  split; [|vm_compute; reflexivity].
  exact (proj1 (first_execution_names_collection (sample_env true echo_model) "gsk-key"
                  idle fresh_session empty_world eq_refl eq_refl)).
Defined.

Lemma without_api_key_nothing_happens_witness :
  GROQ_API_KEY (spec_env true sample_parse_pdf sample_download sample_similarity echo_model sample_construct None)
  = None
  /\ run_session (spec_env true sample_parse_pdf sample_download sample_similarity echo_model sample_construct None)
       [url_click good_url; ask_click "What is X?"] fresh_session empty_world
     = (fresh_session, empty_world).
Proof.
  split; [reflexivity|].
  exact (proj1 (without_api_key_nothing_happens
                  (spec_env true sample_parse_pdf sample_download sample_similarity echo_model sample_construct None)
                  [url_click good_url; ask_click "What is X?"] fresh_session empty_world
                  eq_refl)).
Defined.

Lemma transcript_is_always_whole_turns_witness :
  well_formed_transcript (messages fresh_session)
  /\ well_formed_transcript
       (messages
          (fst (run_session (sample_env true broken_model)
                  [url_click good_url; ask_click "What is X?"; url_click corrupt_url;
                   ask_click "And Y?"]
                  fresh_session empty_world))).
Proof.
  assert (well_formed_transcript (messages fresh_session)) as Hwf by (split; reflexivity).
  split; [exact Hwf|].
  exact (transcript_is_always_whole_turns (sample_env true broken_model)
           [url_click good_url; ask_click "What is X?"; url_click corrupt_url;
            ask_click "And Y?"]
           fresh_session empty_world Hwf).
Defined.

Lemma ready_is_never_reset_witness :
  knowledge_base_loaded (session first_load) = true
  /\ assistant (session first_load) <> None
  /\ knowledge_base_loaded
       (fst (run_session (sample_env true echo_model)
               [url_click corrupt_url; clear_click]
               (session first_load) (world first_load))) = true.
Proof.
  assert (knowledge_base_loaded (session first_load) = true) as Hl
    by (vm_compute; reflexivity).
  assert (assistant (session first_load) <> None) as Ha
    by (vm_compute; discriminate).
  split; [exact Hl|]. split; [exact Ha|].
  exact (proj1 (ready_is_never_reset (sample_env true echo_model)
                  [url_click corrupt_url; clear_click]
                  (session first_load) (world first_load) Hl Ha)).
Defined.

Lemma ready_session_has_assistant_witness :
  GROQ_API_KEY (sample_env true echo_model) = Some "gsk-key"
  /\ truthy "What is X?" = true
  /\ knowledge_base_loaded
       (fst (run_session (sample_env true echo_model) [url_click good_url]
               fresh_session empty_world)) = true
  /\ assistant
       (fst (run_session (sample_env true echo_model) [url_click good_url]
               fresh_session empty_world)) <> None.
Proof.
  assert (knowledge_base_loaded
            (fst (run_session (sample_env true echo_model) [url_click good_url]
                    fresh_session empty_world)) = true) as Hl
    by (vm_compute; reflexivity).
  split; [reflexivity|]. split; [reflexivity|]. split; [exact Hl|].
  exact (proj1 (proj2 (ready_session_has_assistant (sample_env true echo_model) "gsk-key"
                         [url_click good_url] empty_world idle "What is X?"
                         eq_refl eq_refl Hl))).
Defined.

Lemma model_called_only_after_search_witness :
  In failed_model_call (calls question_to_broken_model)
  /\ exists q docs,
       fired (ask_click "What is X?") = SubmitChat q
       /\ calls question_to_broken_model
          = [SearchCall
               (PDFUrlKnowledgeBase [good_url]
                  (new_vector_db (sample_env true broken_model) "docs_3f2b8c1e"))
               q 5 (Return docs);
             failed_model_call].
Proof.
  assert (In failed_model_call (calls question_to_broken_model)) as Hin
    by (vm_compute; right; left; reflexivity).
  split; [exact Hin|].
  destruct (proj1 (model_called_only_after_search (sample_env true broken_model)
                     (ask_click "What is X?") (session first_load) (world first_load))
              _ _ _ Hin) as (q & docs & Hf & Hc & _).
  exists q, docs. split; [exact Hf|exact Hc].
Defined.

Lemma question_goes_to_loaded_knowledge_base_witness :
  GROQ_API_KEY (sample_env true echo_model) = Some "gsk-key"
  /\ truthy "What is X?" = true
  /\ In (LoadCall
           (PDFUrlKnowledgeBase [good_url]
              (new_vector_db (sample_env true echo_model) "docs_3f2b8c1e"))
           (Return []))
        (calls first_load)
  /\ exists r rest,
       calls one_turn
       = SearchCall
           (PDFUrlKnowledgeBase [good_url]
              (new_vector_db (sample_env true echo_model) "docs_3f2b8c1e"))
           "What is X?" 5 r :: rest.
Proof.
  assert (In (LoadCall
                (PDFUrlKnowledgeBase [good_url]
                   (new_vector_db (sample_env true echo_model) "docs_3f2b8c1e"))
                (Return []))
             (calls first_load)) as Hin
    by (vm_compute; left; reflexivity).
  split; [reflexivity|]. split; [reflexivity|]. split; [exact Hin|].
  exact (proj1 (question_goes_to_loaded_knowledge_base (sample_env true echo_model) "gsk-key"
                  (url_click good_url) idle "What is X?" fresh_session empty_world
                  _ _ eq_refl eq_refl Hin)).
Defined.

Lemma clear_conversation_only_empties_transcript_witness :
  GROQ_API_KEY (sample_env true echo_model) = Some "gsk-key"
  /\ fired clear_click = ClickClear
  /\ messages (session one_turn) <> []
  /\ session (after_run (sample_env true echo_model) clear_click
                (session one_turn) (world one_turn))
     = cleared (session one_turn)
  /\ calls (after_run (sample_env true echo_model) clear_click
              (session one_turn) (world one_turn)) = [].
Proof.
  split; [reflexivity|]. split; [reflexivity|]. split; [vm_compute; discriminate|].
  destruct (clear_conversation_only_empties_transcript (sample_env true echo_model) "gsk-key"
              clear_click (session one_turn) (world one_turn) eq_refl eq_refl)
    as (_ & _ & Hs & _ & Hc & _).
  split; [|exact Hc].
  rewrite Hs. vm_compute. reflexivity.
Defined.

Lemma quiet_interactions_change_nothing_witness :
  GROQ_API_KEY (sample_env true echo_model) = Some "gsk-key"
  /\ collection_name (session first_load) = Some "docs_3f2b8c1e"
  /\ Forall (fun inp => quiet (knowledge_base_loaded (session first_load)) inp = true)
       [idle; upload_click []; url_click "   "; ask_click EmptyString]
  /\ run_session (sample_env true echo_model)
       [idle; upload_click []; url_click "   "; ask_click EmptyString]
       (session first_load) (world first_load)
     = (session first_load, world first_load).
Proof.
  assert (collection_name (session first_load) = Some "docs_3f2b8c1e") as Hc
    by (vm_compute; reflexivity).
  assert (Forall (fun inp => quiet (knowledge_base_loaded (session first_load)) inp = true)
            [idle; upload_click []; url_click "   "; ask_click EmptyString]) as Hq
    by (repeat (constructor; [vm_compute; reflexivity|]); constructor).
  split; [reflexivity|]. split; [exact Hc|]. split; [exact Hq|].
  exact (proj1 (quiet_interactions_change_nothing (sample_env true echo_model) "gsk-key"
                  [idle; upload_click []; url_click "   "; ask_click EmptyString]
                  (session first_load) (world first_load) "docs_3f2b8c1e" eq_refl Hc Hq)).
Defined.

Lemma blank_url_input_is_refused_witness :
  GROQ_API_KEY (sample_env true echo_model) = Some "gsk-key"
  /\ radio (url_click ("  " +:+ nl +:+ " ")) = ProvideURLs
  /\ fired (url_click ("  " +:+ nl +:+ " ")) = ClickLoadURLs
  /\ truthy (strip (url_input (url_click ("  " +:+ nl +:+ " ")))) = false
  /\ In (UiWarning "Please enter at least one URL")
        (screen (after_run (sample_env true echo_model) (url_click ("  " +:+ nl +:+ " "))
                   fresh_session empty_world))
  /\ calls (after_run (sample_env true echo_model) (url_click ("  " +:+ nl +:+ " "))
              fresh_session empty_world) = [].
Proof.
  assert (truthy (strip (url_input (url_click ("  " +:+ nl +:+ " ")))) = false) as Hb
    by (vm_compute; reflexivity).
  split; [reflexivity|]. split; [reflexivity|]. split; [reflexivity|]. split; [exact Hb|].
  destruct (blank_url_input_is_refused (sample_env true echo_model) "gsk-key"
              (url_click ("  " +:+ nl +:+ " ")) fresh_session empty_world
              eq_refl eq_refl eq_refl Hb) as (Hw & Hc & _).
  split; [exact Hw|exact Hc].
Defined.

Lemma load_called_only_when_requested_witness :
  GROQ_API_KEY (sample_env true echo_model) = Some "gsk-key"
  /\ In (LoadCall
           (PDFUrlKnowledgeBase [good_url]
              (new_vector_db (sample_env true echo_model) "docs_3f2b8c1e"))
           (Return []))
        (calls first_load)
  /\ load_requested (url_click good_url) = true
  /\ calls first_load
     = [LoadCall
          (PDFUrlKnowledgeBase [good_url]
             (new_vector_db (sample_env true echo_model) "docs_3f2b8c1e"))
          (Return [])].
Proof.
  assert (In (LoadCall
                (PDFUrlKnowledgeBase [good_url]
                   (new_vector_db (sample_env true echo_model) "docs_3f2b8c1e"))
                (Return []))
             (calls first_load)) as Hin
    by (vm_compute; left; reflexivity).
  split; [reflexivity|]. split; [exact Hin|].
  destruct (load_called_only_when_requested (sample_env true echo_model) "gsk-key"
              (url_click good_url) fresh_session empty_world _ _ eq_refl Hin)
    as (Hreq & Hcalls & _).
  split; [exact Hreq|exact Hcalls].
Defined.

Lemma temporary_files_removed_only_after_load_returned_witness :
  GROQ_API_KEY (sample_env true echo_model) = Some "gsk-key"
  /\ radio (upload_click [good_pdf]) = UploadPDFs
  /\ fired (upload_click [good_pdf]) = ClickLoadPDFs
  /\ uploaded_files (upload_click [good_pdf]) <> []
  /\ world (after_run (sample_env true echo_model) (upload_click [good_pdf])
              fresh_session empty_world)
     = world_after_upload (sample_env true echo_model) [good_pdf]
         "docs_3f2b8c1e" empty_world
  /\ tmp_files (world (after_run (sample_env true echo_model) (upload_click [good_pdf])
                         fresh_session empty_world)) !! "/tmp/tmp0.pdf"
     = Some (getvalue good_pdf)
  /\ calls (after_run (sample_env true echo_model) (upload_click [good_pdf])
              fresh_session empty_world) = [].
Proof.
  split; [reflexivity|]. split; [reflexivity|]. split; [reflexivity|].
  split; [discriminate|].
  destruct (temporary_files_removed_only_after_load_returned (sample_env true echo_model)
              "gsk-key" (upload_click [good_pdf]) fresh_session empty_world
              eq_refl eq_refl eq_refl ltac:(discriminate)) as [Hworld _].
  split; [exact Hworld|]. split; vm_compute; reflexivity.
Defined.

Lemma page_shows_the_transcript_witness :
  GROQ_API_KEY (sample_env true broken_model) = Some "gsk-key"
  /\ knowledge_base_loaded (session question_to_broken_model) = true
  /\ history (messages (session question_to_broken_model))
     = chats_shown (screen question_to_broken_model)
       ++ [UiChat "assistant" "Error: Connection error."]
  /\ (history (messages (session question_to_broken_model))
      = chats_shown (screen question_to_broken_model)
      \/ exists q reply,
           fired (ask_click "What is X?") = SubmitChat q
           /\ history (messages (session question_to_broken_model))
              = chats_shown (screen question_to_broken_model) ++ [UiChat "assistant" reply]
           /\ In (UiError reply) (screen question_to_broken_model)).
Proof.
  assert (knowledge_base_loaded (session question_to_broken_model) = true) as Hl
    by (vm_compute; reflexivity).
  split; [reflexivity|]. split; [exact Hl|]. split; [vm_compute; reflexivity|].
  exact (page_shows_the_transcript (sample_env true broken_model) "gsk-key"
           (ask_click "What is X?") (session first_load) (world first_load) eq_refl Hl).
Defined.
